(** * LexiconFlow App Store asset scripts: a shallow embedding

    The repository is a set of Python scripts built on Pillow:
    - [scripts/validate_app_store_assets.py]   (module [Validator])
    - [scripts/process_screenshots.py]         (module [Screenshots])
    - [scripts/generate-icon-variants.py]      (module [IconVariants])
    - [.worktrees/.../generate-icon-variants.py] (module [WorktreeVariants])
    - [scripts/create-glass-morphism-icon.py]  (module [GlassIcon])

    Integers are [Z], Python floats that the scripts compare or truncate are
    exact rationals [Q] (each use says why that is sound or what it idealises),
    strings are [string], exceptions and [sys.exit] are an explicit outcome
    type, and the file system is an explicit value. *)

From Stdlib Require Import ZArith QArith Ascii String List Bool Lia DecimalString.
From stdpp Require Import base option list strings gmap.
Import ListNotations.

Open Scope string_scope.
Open Scope list_scope.
Open Scope Z_scope.

(** ** Python values used by every script *)

Module Py.

(** Exceptions that the scripts can meet.  Every one of them is an instance
    of Python's [Exception]; [sys.exit] raises [SystemExit], which is not, so
    an [except Exception] handler lets it through. *)
Inductive exn :=
| FileNotFoundError
| IsADirectoryError
| UnidentifiedImageError
| ValueError
| EOFError
| FileExistsError
| OSError
| KeyError
| NotADirectoryError
| OverflowError.

Inductive outcome (A : Type) :=
| Ok (a : A)
| Raise (e : exn)
| SysExit (code : Z).
Arguments Ok {A} a.
Arguments Raise {A} e.
Arguments SysExit {A} code.

Definition bind {A B} (m : outcome A) (k : A -> outcome B) : outcome B :=
  match m with
  | Ok a => k a
  | Raise e => Raise e
  | SysExit c => SysExit c
  end.

(** [try: body  except Exception as e: handler e] *)
Definition try_except {A} (body : outcome A) (handler : exn -> outcome A)
  : outcome A :=
  match body with
  | Raise e => handler e
  | other => other
  end.

(** A call that returns or raises, inside code that may also exit. *)
Definition lift {A} (r : exn + A) : outcome A :=
  match r with
  | inr a => Ok a
  | inl e => Raise e
  end.

(** [s.endswith(suffix)] *)
Definition endswith (s suffix : string) : bool :=
  let n := String.length s in
  let k := String.length suffix in
  (k <=? n)%nat && String.eqb (substring (n - k) k s) suffix.

(** [str(n)] for an integer *)
Definition str (n : Z) : string := NilZero.string_of_int (Z.to_int n).

(** [int(x)] for a number: truncation toward zero. *)
Definition int (x : Q) : Z := Z.quot (Qnum x) (Zpos (Qden x)).

(** [os.path.join(a, b)] for two components (posixpath). *)
Definition path_join (a b : string) : string :=
  if String.prefix "/" b then b
  else if String.eqb a "" then b
  else if endswith a "/" then a +:+ b
  else a +:+ "/" +:+ b.

(** [os.path.splitext(p)]: the extension starts at the last dot of the last
    path component, unless that component has only dots before it. *)
Fixpoint all_dots (s : string) : bool :=
  match s with
  | EmptyString => true
  | String c r => Ascii.eqb c "."%char && all_dots r
  end.

(** [split_last acc s best] scans [s], the text after [acc]; it gives the
    split of the path at the last dot of its last component. *)
Fixpoint split_last (acc : string) (s : string) (best : option (string * string))
  : option (string * string) :=
  match s with
  | EmptyString => best
  | String c r =>
      if Ascii.eqb c "/"%char then split_last (acc +:+ String c "") r None
      else if Ascii.eqb c "."%char then
        split_last (acc +:+ String c "") r (Some (acc, s))
      else split_last (acc +:+ String c "") r best
  end.

Fixpoint last_component (acc s : string) : string :=
  match s with
  | EmptyString => acc
  | String c r =>
      if Ascii.eqb c "/"%char then last_component "" r
      else last_component (acc +:+ String c "") r
  end.

Definition splitext (p : string) : string * string :=
  match split_last "" p None with
  | Some (root, ext) =>
      (* the part of the last component before the dot must hold a
         character that is not a dot *)
      if all_dots (last_component "" root) then (p, "") else (root, ext)
  | None => (p, "")
  end.

End Py.

Import Py.

Notation "'let*' x ':=' m 'in' k" := (Py.bind m (fun x => k))
  (at level 10, x name, m at level 100, k at level 200).

(** A [for] loop whose body may raise or exit: the loop stops there. *)
Fixpoint for_each {A B} (body : A -> B -> outcome A) (items : list B) (acc : A)
  : outcome A :=
  match items with
  | [] => Ok acc
  | x :: rest => let* acc := body acc x in for_each body rest acc
  end.

(** ** Pillow images

    An image carries what the scripts read from it: its size, its mode, the
    format of the file it was opened from, and its pixels.  The pixels are kept
    as the expression that built them: no property below depends on a pixel
    value, only on which operation produced the picture. *)

Module PIL.

Definition color := list Z.

Inductive font :=
| TrueType (path : string) (size : Z)
| DefaultFont.

Inductive shape :=
| Rectangle (x0 y0 x1 y1 : Z)
| RoundedRectangle (x0 y0 x1 y1 : Z) (radius : Z) (outline : color) (width : Z)
| Polygon (points : list (Q * Q))
| Text (x y : Z) (text : string) (f : font).

Inductive pixels :=
| Decoded (source : Z)                   (* read from a file *)
| Truncated                              (* of a file whose data ends early *)
| Blank (fill : color)                   (* Image.new *)
| FromArray (a : Z -> Z -> color)        (* Image.fromarray, a[y][x] *)
| Drawn (s : shape) (fill : color) (under : pixels)
| Converted (mode : string) (p : pixels)
| Resampled (w h : Z) (p : pixels)       (* resize, LANCZOS *)
| AlphaComposited (dst src : pixels)
| Composited (im1 im2 mask : pixels)
| Pasted (src mask onto : pixels)         (* paste through a mask *)
| PastedOver (src onto : pixels)         (* paste without a mask *)
| LastBand (p : pixels)                  (* im.split()[-1] *)
| Blurred (radius : Z) (p : pixels)
| WithAlpha (alpha : Z) (p : pixels).    (* putalpha *)

Record image := Image {
  size : Z * Z;
  mode : string;
  format : option string;
  data : pixels
}.

(** [Image.open] reads the header of a file: size, mode and format.  The
    pixels are read by the first operation that needs them, and that
    operation raises when the data of the file ends early. *)
Definition loads (im : image) : bool :=
  match data im with
  | Truncated => false
  | _ => true
  end.

Definition load (im : image) : outcome image :=
  if loads im then Ok im else Raise OSError.

(** [Image.new(mode, size, color)]; Pillow refuses a negative side. *)
Definition new (m : string) (sz : Z * Z) (c : color) : outcome image :=
  if (fst sz <? 0) || (snd sz <? 0) then Raise ValueError
  else Ok (Image sz m None (Blank c)).

(** [im.convert(mode)]: a converted copy of the same size. *)
Definition convert (im : image) (m : string) : image :=
  Image (size im) m None (Converted m (data im)).

(** [im.resize((w, h), LANCZOS)]: an image of the requested size.  A side
    below 1 is refused here, which is at least as strict as Pillow. *)
Definition resize (im : image) (sz : Z * Z) : outcome image :=
  if (fst sz <? 1) || (snd sz <? 1) then Raise ValueError
  else Ok (Image sz (mode im) None (Resampled (fst sz) (snd sz) (data im))).

Definition same_size (a b : image) : bool :=
  (fst (size a) =? fst (size b)) && (snd (size a) =? snd (size b)).

(** [Image.alpha_composite(im1, im2)]: both must be RGBA and of one size. *)
Definition alpha_composite (im1 im2 : image) : outcome image :=
  if negb (String.eqb (mode im1) "RGBA") || negb (String.eqb (mode im2) "RGBA")
  then Raise ValueError
  else if negb (same_size im1 im2) then Raise ValueError
  else Ok (Image (size im1) "RGBA" None (AlphaComposited (data im1) (data im2))).

(** [Image.composite(im1, im2, mask)]: a copy of [im2] with [im1] pasted
    through [mask]; the three must have one size. *)
Definition composite (im1 im2 mask : image) : outcome image :=
  if negb (same_size im1 im2) || negb (same_size im1 mask) then Raise ValueError
  else Ok (Image (size im2) (mode im2) None
             (Composited (data im1) (data im2) (data mask))).

(** [im.split()[-1]]: the last band, a single-band image. *)
Definition last_band (im : image) : image :=
  Image (size im) "L" None (LastBand (data im)).

(** [onto.paste(src, mask=mask)] at the origin: [onto] keeps its size and
    mode; a mask must have the size of [src]. *)
Definition paste (onto src : image) (mask : option image) : outcome image :=
  match mask with
  | Some m =>
      if negb (same_size src m) then Raise ValueError
      else Ok (Image (size onto) (mode onto) (format onto)
                 (Pasted (data src) (data m) (data onto)))
  | None =>
      Ok (Image (size onto) (mode onto) (format onto)
            (PastedOver (data src) (data onto)))
  end.

(** [ImageDraw.Draw(im).<shape>(..., fill=fill)] draws in place. *)
Definition draw (im : image) (s : shape) (fill : color) : image :=
  Image (size im) (mode im) (format im) (Drawn s fill (data im)).

(** [im.filter(ImageFilter.GaussianBlur(radius))] *)
Definition gaussian_blur (im : image) (radius : Z) : image :=
  Image (size im) (mode im) None (Blurred radius (data im)).

(** [im.putalpha(alpha)] on an RGBA image, in place. *)
Definition putalpha (im : image) (alpha : Z) : image :=
  Image (size im) (mode im) (format im) (WithAlpha alpha (data im)).

(** [Image.fromarray(a, mode)] for an array of [height] rows and [width]
    columns. *)
Definition fromarray (height width : Z) (a : Z -> Z -> color) (m : string)
  : image :=
  Image (width, height) m None (FromArray a).

End PIL.

(** ** Files and directories *)

Module FS.

(** A file has a length in bytes and, when Pillow can decode it, an image. *)
#[local] Unset Elimination Schemes.
Inductive node :=
| File (bytes : Z) (decoded : option PIL.image)
| Dir (entries : list (string * node)).
#[local] Set Elimination Schemes.

(** The node that [name] denotes inside a directory. *)
Fixpoint lookup_entry (entries : list (string * node)) (name : string)
  : option node :=
  match entries with
  | [] => None
  | (n, x) :: rest => if String.eqb n name then Some x else lookup_entry rest name
  end.

(** [os.listdir] *)
Definition listdir (entries : list (string * node)) : list string :=
  map fst entries.

(** [os.path.isdir] *)
Definition isdir (target : option node) : bool :=
  match target with
  | Some (Dir _) => true
  | _ => false
  end.

(** [os.path.exists] *)
Definition exists_ (target : option node) : bool :=
  match target with
  | Some _ => true
  | None => false
  end.

(** [Image.open(path)], with the header read that [img.size] forces: the
    image, or the exception raised. *)
Definition Image_open (target : option node) : exn + PIL.image :=
  match target with
  | None => inl FileNotFoundError
  | Some (Dir _) => inl IsADirectoryError
  | Some (File _ None) => inl UnidentifiedImageError
  | Some (File _ (Some img)) => inr img
  end.

(** [os.path.getsize(path)] of a file.  (For a directory the system gives
    the size of the directory entry; no script gets that far, [Image.open]
    has raised before.) *)
Definition getsize (target : option node) : exn + Z :=
  match target with
  | Some (File bytes _) => inr bytes
  | Some (Dir _) => inl IsADirectoryError
  | None => inl FileNotFoundError
  end.

End FS.

(** ** The file system that the generators write to

    The generators make directories and files.  Their file system is a table
    from locations to entries, a location being the list of names that leads
    from the root directory to the entry, together with the location of the
    working directory.  Paths are resolved as POSIX does it, name by name;
    there are no symbolic links, a path holds no NUL character, the process
    may read and write every entry, and the device is never full. *)

Module Posix.

Inductive entry :=
| RegularFile (decoded : option PIL.image)
| Directory.

Record filesystem := {
  cwd : list string;
  store : gmap (list string) entry
}.

(** What a location holds.  The root directory is always there. *)
Definition entry_at (st : gmap (list string) entry) (loc : list string)
  : option entry :=
  match loc with
  | [] => Some Directory
  | _ => st !! loc
  end.

Definition is_dir (st : gmap (list string) entry) (loc : list string) : bool :=
  match entry_at st loc with
  | Some Directory => true
  | _ => false
  end.

(** [path.split("/")] *)
Fixpoint components (path : string) : list string :=
  match path with
  | EmptyString => [""]
  | String c rest =>
      if Ascii.eqb c "/"%char then "" :: components rest
      else match components rest with
           | first :: others => String c first :: others
           | [] => [String c ""]
           end
  end.

(** The names that leave the directory where it is: the empty name, which
    doubled and trailing slashes give, and the dot. *)
Definition stays (name : string) : bool :=
  String.eqb name "" || String.eqb name ".".

(** Path resolution from the directory at [loc]: every name but the last
    must lead to a directory; the location reached need not hold anything. *)
Fixpoint walk (st : gmap (list string) entry) (loc : list string)
    (names : list string) : exn + list string :=
  match names with
  | [] => inr loc
  | name :: rest =>
      match entry_at st loc with
      | Some Directory =>
          if stays name then walk st loc rest
          else if String.eqb name ".." then walk st (removelast loc) rest
          else walk st (loc ++ [name]) rest
      | Some (RegularFile _) => inl NotADirectoryError
      | None => inl FileNotFoundError
      end
  end.

(** Where the resolution of a path starts. *)
Definition origin (fs : filesystem) (absolute : bool) : list string :=
  if absolute then [] else cwd fs.

(** The location that a path given as text denotes; the empty path denotes
    nothing. *)
Definition resolve (fs : filesystem) (path : string) : exn + list string :=
  if String.eqb path "" then inl FileNotFoundError
  else walk (store fs) (origin fs (String.prefix "/" path)) (components path).

(** [os.path.exists], [os.path.isdir] and [Image.open] (with the header
    read that [img.size] forces) at a resolved location. *)
Definition found (st : gmap (list string) entry) (target : exn + list string)
  : bool :=
  match target with
  | inr loc => match entry_at st loc with Some _ => true | None => false end
  | inl _ => false
  end.

Definition found_dir (st : gmap (list string) entry) (target : exn + list string)
  : bool :=
  match target with
  | inr loc => is_dir st loc
  | inl _ => false
  end.

Definition opened (st : gmap (list string) entry) (target : exn + list string)
  : exn + PIL.image :=
  match target with
  | inl e => inl e
  | inr loc =>
      match entry_at st loc with
      | None => inl FileNotFoundError
      | Some Directory => inl IsADirectoryError
      | Some (RegularFile None) => inl UnidentifiedImageError
      | Some (RegularFile (Some img)) => inr img
      end
  end.

(** [open(path, "w")] followed by the writing of [content]: the file is
    created in an existing directory, or replaced; a directory is not. *)
Definition created (st : gmap (list string) entry) (target : exn + list string)
    (content : option PIL.image) : exn + gmap (list string) entry :=
  match target with
  | inl e => inl e
  | inr loc =>
      match entry_at st loc with
      | Some Directory => inl IsADirectoryError
      | _ =>
          if is_dir st (removelast loc)
          then inr (<[loc := RegularFile content]> st)
          else inl FileNotFoundError
      end
  end.

(** Making every missing directory along a path, as [os.makedirs(path,
    exist_ok=True)] and [Path.mkdir(parents=True, exist_ok=True)] do: a name
    that is missing becomes a directory, a name that is a directory is
    entered, and a regular file in the way is an error. *)
Fixpoint make_along (st : gmap (list string) entry) (loc : list string)
    (names : list string) : exn + gmap (list string) entry :=
  match names with
  | [] =>
      match entry_at st loc with
      | Some Directory => inr st
      | Some (RegularFile _) => inl FileExistsError
      | None => inl FileNotFoundError
      end
  | name :: rest =>
      match entry_at st loc with
      | Some Directory =>
          if stays name then make_along st loc rest
          else if String.eqb name ".." then make_along st (removelast loc) rest
          else
            match st !! (loc ++ [name]) with
            | None =>
                make_along (<[loc ++ [name] := Directory]> st) (loc ++ [name]) rest
            | Some _ => make_along st (loc ++ [name]) rest
            end
      | Some (RegularFile _) => inl NotADirectoryError
      | None => inl FileNotFoundError
      end
  end.

Definition with_store (fs : filesystem) (r : exn + gmap (list string) entry)
  : exn + filesystem :=
  match r with
  | inr st => inr {| cwd := cwd fs; store := st |}
  | inl e => inl e
  end.

(** The calls of [os] and [os.path] on a path given as text. *)
Definition exists_ (fs : filesystem) (path : string) : bool :=
  found (store fs) (resolve fs path).

Definition isdir (fs : filesystem) (path : string) : bool :=
  found_dir (store fs) (resolve fs path).

Definition Image_open (fs : filesystem) (path : string) : exn + PIL.image :=
  opened (store fs) (resolve fs path).

Definition write (fs : filesystem) (path : string) (content : option PIL.image)
  : exn + filesystem :=
  with_store fs (created (store fs) (resolve fs path) content).

(** [os.makedirs(path, exist_ok=True)] *)
Definition makedirs (fs : filesystem) (path : string) : exn + filesystem :=
  if String.eqb path "" then inl FileNotFoundError
  else with_store fs
         (make_along (store fs) (origin fs (String.prefix "/" path))
            (components path)).

(** [pathlib.Path(text)]: the path keeps its names; empty names and dots
    are dropped when the path is made, so [Path("")] is the working
    directory. *)
Record path := {
  absolute : bool;
  names : list string
}.

Definition parts (text : string) : list string :=
  List.filter (fun name => negb (stays name)) (components text).

Definition Path (text : string) : path :=
  {| absolute := String.prefix "/" text; names := parts text |}.

(** [p / text] *)
Definition joinpath (p : path) (text : string) : path :=
  if String.prefix "/" text then Path text
  else {| absolute := absolute p; names := names p ++ parts text |}.

Definition locate (fs : filesystem) (p : path) : exn + list string :=
  walk (store fs) (origin fs (absolute p)) (names p).

(** [p.exists()], [p.is_dir()], [Image.open(p)], a write to [p] and
    [p.mkdir(parents=True, exist_ok=True)]. *)
Definition path_exists (fs : filesystem) (p : path) : bool :=
  found (store fs) (locate fs p).


Definition path_open (fs : filesystem) (p : path) : exn + PIL.image :=
  opened (store fs) (locate fs p).

Definition path_mkdir (fs : filesystem) (p : path) : exn + filesystem :=
  with_store fs (make_along (store fs) (origin fs (absolute p)) (names p)).

End Posix.


(** ** scripts/validate_app_store_assets.py *)

Module Validator.

Import FS.

(** [ICON_SPECS] *)
Record icon_specs := {
  icon_size : Z * Z;
  icon_format : string;
  max_size_mb : Q;
  no_alpha : bool
}.

Definition ICON_SPECS : icon_specs :=
  {| icon_size := (1024, 1024);
     icon_format := "PNG";
     max_size_mb := 0.5;
     no_alpha := true |}.

(** [SCREENSHOT_SPECS], in the insertion order that [.items()] follows. *)
Record screenshot_specs := {
  shot_size : Z * Z;
  shot_count : Z
}.

Definition SCREENSHOT_SPECS : list (string * screenshot_specs) :=
  [ ("iphone_se",         {| shot_size := (750, 1334);  shot_count := 6 |});
    ("iphone_15",         {| shot_size := (1179, 2556); shot_count := 6 |});
    ("iphone_15_pro_max", {| shot_size := (1290, 2796); shot_count := 6 |});
    ("ipad",              {| shot_size := (1640, 2360); shot_count := 6 |}) ].

(** What the validator prints, one constructor per [print] call. *)
Inductive line :=
| ValidatingIcon
| FileNotFound
| WrongSize (width height expected_w expected_h : Z)
| WrongFormat (fmt : option string) (expected : string)
| FileTooLarge (file_size_mb limit : Q)
| AlphaWarning
| IconPassesWithWarnings
| IconPassesAll
| IconSize (width height : Z)
| IconFormat (fmt : option string)
| IconFileSize (file_size_mb : Q)
| ErrorReadingImage (e : exn)
| ValidatingScreenshots
| DirectoryNotFound
| DeviceHeader (device : string)
| DeviceDirectoryNotFound (device : string)
| FoundScreenshots (actual expected : Z)
| ShotWrongSize (screenshot : string) (width height expected_w expected_h : Z)
| ShotOk (screenshot : string) (width height : Z)
| ShotError (screenshot : string) (e : exn)
| AllScreenshotsValidated.

(** [os.path.getsize(path) / (1024 * 1024)].  Python divides two integers
    with correct rounding and the divisor is a power of two, so the float is
    above 0.5 exactly when the rational is. *)
Definition file_size_mb (bytes : Z) : Q := inject_Z bytes / inject_Z (1024 * 1024).

Definition format_differs (fmt : option string) (expected : string) : bool :=
  match fmt with
  | Some f => negb (String.eqb f expected)
  | None => true
  end.

(** The three rules of [validate_icon], in the order of the source; each
    gives the error it appends, or nothing. *)
Definition dimension_errors (width height : Z) : list line :=
  if negb (width =? fst (icon_size ICON_SPECS))
     || negb (height =? snd (icon_size ICON_SPECS))
  then [WrongSize width height (fst (icon_size ICON_SPECS)) (snd (icon_size ICON_SPECS))]
  else [].

Definition format_errors (fmt : option string) : list line :=
  if format_differs fmt (icon_format ICON_SPECS)
  then [WrongFormat fmt (icon_format ICON_SPECS)]
  else [].

Definition file_size_errors (mb : Q) : list line :=
  if negb (Qle_bool mb (max_size_mb ICON_SPECS))
  then [FileTooLarge mb (max_size_mb ICON_SPECS)]
  else [].

Definition alpha_warnings (mode : string) : list line :=
  if String.eqb mode "RGBA" && no_alpha ICON_SPECS then [AlphaWarning] else [].

(** [validate_icon(icon_path)]; [target] is what [icon_path] names.  The
    result is the returned boolean and the printed lines.  Inside the [try]
    only [Image.open] and [os.path.getsize] can raise. *)
Definition validate_icon (target : option node) : bool * list line :=
  let out := [ValidatingIcon] in
  if negb (exists_ target) then (false, out ++ [FileNotFound])
  else
    match Image_open target with
    | inl e => (false, out ++ [ErrorReadingImage e])
    | inr img =>
        let '(width, height) := PIL.size img in
        let format := PIL.format img in
        let mode := PIL.mode img in
        match getsize target with
        | inl e => (false, out ++ [ErrorReadingImage e])
        | inr bytes =>
            let mb := file_size_mb bytes in
            let errors := dimension_errors width height ++ format_errors format
                          ++ file_size_errors mb in
            let warnings := alpha_warnings mode in
            match errors, warnings with
            | _ :: _, _ => (false, out ++ errors)
            | [], _ :: _ => (true, out ++ warnings ++ [IconPassesWithWarnings])
            | [], [] =>
                (true, out ++ [IconPassesAll; IconSize width height;
                               IconFormat format; IconFileSize mb])
            end
        end
    end.

(** One turn of the inner loop [for screenshot in screenshots]. *)
Definition check_screenshot (specs : screenshot_specs)
    (device_dir : list (string * node))
    (st : bool * list line) (screenshot : string) : bool * list line :=
  let '(all_passed, out) := st in
  match Image_open (lookup_entry device_dir screenshot) with
  | inr img =>
      let '(width, height) := PIL.size img in
      let '(expected_width, expected_height) := shot_size specs in
      if negb (width =? expected_width) || negb (height =? expected_height)
      then (false, out ++ [ShotWrongSize screenshot width height
                             expected_width expected_height])
      else (all_passed, out ++ [ShotOk screenshot width height])
  | inl e => (false, out ++ [ShotError screenshot e])
  end.

(** The [.png] names of a device directory:
    [[f for f in os.listdir(device_dir) if f.endswith(".png")]] *)
Definition png_files (device_dir : list (string * node)) : list string :=
  List.filter (fun f => endswith f ".png") (listdir device_dir).

(** One turn of the outer loop [for device, specs in SCREENSHOT_SPECS.items()]. *)
Definition check_device (root : list (string * node))
    (st : bool * list line) (d : string * screenshot_specs) : bool * list line :=
  let '(all_passed, out) := st in
  let '(device, specs) := d in
  let out := out ++ [DeviceHeader device] in
  match lookup_entry root device with
  | Some (Dir device_dir) =>
      let screenshots := png_files device_dir in
      let actual_count := Z.of_nat (length screenshots) in
      if actual_count <? shot_count specs
      then (false, out ++ [FoundScreenshots actual_count (shot_count specs)])
      else fold_left (check_screenshot specs device_dir) screenshots
             (all_passed, out)
  | _ => (false, out ++ [DeviceDirectoryNotFound device])
  end.

(** [validate_screenshots(screenshots_dir)]; [target] is what
    [screenshots_dir] names. *)
Definition validate_screenshots (target : option node) : bool * list line :=
  let out := [ValidatingScreenshots] in
  match target with
  | Some (Dir root) =>
      let '(all_passed, out) :=
        fold_left (check_device root) SCREENSHOT_SPECS (true, out) in
      if all_passed then (all_passed, out ++ [AllScreenshotsValidated])
      else (all_passed, out)
  | _ => (false, out ++ [DirectoryNotFound])
  end.

(** [main()] for [--icon PATH] and [--screenshots PATH]: the value handed to
    [sys.exit]. *)
Definition exit_status (passed : bool) : Z := if passed then 0 else 1.

End Validator.

(** ** Saving as PNG

    [img.save(path, "PNG", ...)].  The written file decodes to the same
    picture with format PNG.  The PNG writer takes the modes of the list
    below and raises [OSError] for every other mode (mode I among them, which
    it took until Pillow 12). *)

Module Png.

Definition writable_modes : list string :=
  ["1"; "L"; "LA"; "I;16"; "I;16B"; "P"; "RGB"; "RGBA"].

Definition writable (mode : string) : bool :=
  existsb (String.eqb mode) writable_modes.

(** The image that [Image.open] gives back for a file written by [save]. *)
Definition saved (img : PIL.image) : PIL.image :=
  PIL.Image (PIL.size img) (PIL.mode img) (Some "PNG") (PIL.data img).

Definition save (img : PIL.image) : exn + PIL.image :=
  if writable (PIL.mode img) then inr (saved img) else inl OSError.

(** Saving at a location of the file system: [save] opens the file for
    writing first, which creates or empties it, and then runs the encoder.
    The result is the stored picture and the file system with the new
    file. *)
Definition save_at (st : gmap (list string) Posix.entry)
    (target : exn + list string) (img : PIL.image)
  : exn + (PIL.image * gmap (list string) Posix.entry) :=
  match Posix.created st target (Some (saved img)) with
  | inl e => inl e
  | inr st =>
      match save img with
      | inl e => inl e
      | inr stored => inr (stored, st)
      end
  end.

Definition keep_cwd (fs : Posix.filesystem)
    (r : exn + (PIL.image * gmap (list string) Posix.entry))
  : exn + (PIL.image * Posix.filesystem) :=
  match r with
  | inr (stored, st) =>
      inr (stored, {| Posix.cwd := Posix.cwd fs; Posix.store := st |})
  | inl e => inl e
  end.

(** [img.save(path, "PNG")] for a path given as text, and for a
    [pathlib.Path]. *)
Definition save_to (fs : Posix.filesystem) (path : string) (img : PIL.image)
  : exn + (PIL.image * Posix.filesystem) :=
  keep_cwd fs (save_at (Posix.store fs) (Posix.resolve fs path) img).

Definition save_to_path (fs : Posix.filesystem) (p : Posix.path)
    (img : PIL.image) : exn + (PIL.image * Posix.filesystem) :=
  keep_cwd fs (save_at (Posix.store fs) (Posix.locate fs p) img).

End Png.

(** ** scripts/process_screenshots.py *)

Module Screenshots.

Import FS.

Record device_specs := {
  name : string;
  screen_size : Z * Z;
  export_size : Z * Z;
  scale : Z
}.

Definition DEVICE_SPECS : list (string * device_specs) :=
  [ ("iphone_se",
     {| name := "iPhone SE"; screen_size := (375, 667);
        export_size := (750, 1334); scale := 2 |});
    ("iphone_15",
     {| name := "iPhone 15"; screen_size := (393, 852);
        export_size := (1179, 2556); scale := 3 |});
    ("iphone_15_pro_max",
     {| name := "iPhone 15 Pro Max"; screen_size := (430, 932);
        export_size := (1290, 2796); scale := 3 |});
    ("ipad",
     {| name := "iPad (10th Gen)"; screen_size := (820, 1180);
        export_size := (1640, 2360); scale := 2 |}) ].

(** A dictionary with string keys, as a list in insertion order. *)
Fixpoint get {A} (d : list (string * A)) (key : string) : option A :=
  match d with
  | [] => None
  | (k, v) :: rest => if String.eqb k key then Some v else get rest key
  end.

(** [d[key]] for a dictionary with integer keys. *)
Fixpoint getitem {A} (d : list (Z * A)) (key : Z) : exn + A :=
  match d with
  | [] => inl KeyError
  | (k, v) :: rest => if k =? key then inr v else getitem rest key
  end.

Definition CAPTIONS : list (Z * string) :=
  [ (1, "Tired of forgetting what you learn?");
    (2, "90% retention with FSRS v5 algorithm");
    (3, "Beautiful Liquid Glass interface");
    (4, "Flashcards, Quiz, and Writing modes");
    (5, "Smart scheduling optimizes study time");
    (6, "Start learning vocabulary today") ].

(** The dictionary of titles inside [batch_process], indexed at [i]. *)
Definition title (i : Z) : exn + string :=
  getitem
    [ (1, "FORGET_LESS");
      (2, "FSRS_V5");
      (3, "LIQUID_GLASS");
      (4, "STUDY_MODES");
      (5, "SMART_SCHEDULING");
      (6, "START_LEARNING") ] i.

(** ["iPad" in device_name] *)
Definition contains (needle s : string) : bool :=
  match String.index 0 needle s with
  | Some _ => true
  | None => false
  end.

(** What the machine supplies to the caption code: whether the Helvetica
    file loads, and the box that [draw.textbbox((0, 0), text, font)] gives. *)
Record typography := {
  helvetica_loads : bool;
  textbbox : PIL.font -> string -> Z * Z * Z * Z
}.

(** [add_caption(img, text, device_name)].  [height * 0.25] is exact in
    binary floating point; [caption_height * 0.3] is taken as a rational, it
    only moves the text. *)
Definition add_caption (env : typography) (img : PIL.image) (text : string)
    (device_name : string) : outcome PIL.image :=
  let '(width, height) := PIL.size img in
  let* overlay := PIL.new "RGBA" (width, height) [0; 0; 0; 0] in
  let caption_height := int (inject_Z height * 0.25) in
  let caption_y := height - caption_height in
  let overlay :=
    PIL.draw overlay (PIL.Rectangle 0 caption_y width height) [0; 0; 0; 153] in
  let font_size := if contains "iPad" device_name then 56 else 40 in
  let font :=
    if helvetica_loads env
    then PIL.TrueType "/System/Library/Fonts/Helvetica.ttc" font_size
    else PIL.DefaultFont in
  let '(bbox0, _, bbox2, _) := textbbox env font text in
  let text_width := bbox2 - bbox0 in
  let text_x := (width - text_width) / 2 in
  let text_y := caption_y + int (inject_Z caption_height * 0.3) in
  let overlay :=
    PIL.draw overlay (PIL.Text text_x text_y text font) [255; 255; 255; 255] in
  let* result := PIL.alpha_composite (PIL.convert img "RGBA") overlay in
  Ok (PIL.convert result "RGB").

(** [process_screenshot(input_path, output_path, caption_text, device_name)];
    [source] is what [input_path] names.  The pixels of the opened file are
    read by the first operation that needs them, [img.convert] in
    [add_caption] or else [img.save]; for a picture read from a file nothing
    fails before that, so the reading is placed right after [Image.open].
    The result is the picture stored at [output_path] and the file system
    that holds it. *)
Definition process_screenshot (env : typography) (fs : Posix.filesystem)
    (source : option node) (output_path : string)
    (caption_text : option string) (device_name : string)
  : outcome (PIL.image * Posix.filesystem) :=
  let* img := lift (Image_open source) in
  let* img := PIL.load img in
  let* img :=
    match caption_text with
    | Some text =>
        if String.eqb text "" then Ok img
        else add_caption env img text device_name
    | None => Ok img
    end in
  lift (Png.save_to fs output_path img).

(** The accepted names of raw screenshot [i]. *)
Definition input_files (i : Z) : list string :=
  [ str i +:+ ".png"; str i +:+ "_raw.png"; "screenshot_" +:+ str i +:+ ".png" ].

(** The first accepted name that exists in the input directory. *)
Fixpoint find_input (input_dir : list (string * node)) (names : list string)
  : option string :=
  match names with
  | [] => None
  | filename :: rest =>
      if exists_ (lookup_entry input_dir filename) then Some filename
      else find_input input_dir rest
  end.

(** [f"{i}_{title}_{width}x{height}.png"] *)
Definition output_filename (i : Z) (title : string) (export : Z * Z) : string :=
  let '(width, height) := export in
  str i +:+ "_" +:+ title +:+ "_" +:+ str width +:+ "x" +:+ str height +:+ ".png".

(** The body of [for i in range(1, 7)] for one [i]: nothing when no raw
    screenshot is found, else the file saved, as (output file name, stored
    picture); and the file system after the turn. *)
Definition process_index (env : typography) (fs : Posix.filesystem)
    (input_dir : list (string * node)) (output_dir : string)
    (specs : device_specs) (add_captions : bool) (i : Z)
  : outcome (option (string * PIL.image) * Posix.filesystem) :=
  match find_input input_dir (input_files i) with
  | None => Ok (None, fs)
  | Some filename =>
      let* title := lift (title i) in
      let output_filename := output_filename i title (export_size specs) in
      let output_path := path_join output_dir output_filename in
      let* caption_text :=
        (if add_captions
         then let* text := lift (getitem CAPTIONS i) in Ok (Some text)
         else Ok None) in
      let* stored :=
        process_screenshot env fs (lookup_entry input_dir filename)
          output_path caption_text (name specs) in
      Ok (Some (output_filename, fst stored), snd stored)
  end.

(** The loop.  The files saved so far stay on disk when a later turn raises,
    so the result is the list of saved files, oldest first, together with the
    way the loop ended. *)
Fixpoint process_all (env : typography) (fs : Posix.filesystem)
    (input_dir : list (string * node)) (output_dir : string)
    (specs : device_specs) (add_captions : bool) (indices : list Z)
    (written : list (string * PIL.image))
  : list (string * PIL.image) * outcome unit :=
  match indices with
  | [] => (written, Ok tt)
  | i :: rest =>
      match process_index env fs input_dir output_dir specs add_captions i with
      | Ok (Some w, fs) =>
          process_all env fs input_dir output_dir specs add_captions rest
            (written ++ [w])
      | Ok (None, fs) =>
          process_all env fs input_dir output_dir specs add_captions rest written
      | Raise e => (written, Raise e)
      | SysExit code => (written, SysExit code)
      end
  end.

(** [batch_process(input_dir, output_dir, device_type, add_captions)]:
    the files it saves under [output_dir], and how it ends.  The raw
    screenshots are given by the listing of the directory that [input_dir]
    names, as it is once the output directory is made; the output side is
    the file system [fs].  The output names differ
    from every input name, so no turn writes a file that a later turn
    reads. *)
Definition batch_process (env : typography) (fs : Posix.filesystem)
    (input_dir : list (string * node)) (output_dir : string)
    (device_type : string) (add_captions : bool)
  : list (string * PIL.image) * outcome unit :=
  match get DEVICE_SPECS device_type with
  | None => ([], SysExit 1)
  | Some specs =>
      match Posix.makedirs fs output_dir with
      | inl e => ([], Raise e)
      | inr fs =>
          process_all env fs input_dir output_dir specs add_captions
            [1; 2; 3; 4; 5; 6] []
      end
  end.

End Screenshots.

(** ** scripts/generate-icon-variants.py *)

Module IconVariants.

Import Posix.

(** [input(prompt)]: the line typed, or [EOFError] when there is none. *)
Definition input (answer : option string) : exn + string :=
  match answer with
  | Some text => inr text
  | None => inl EOFError
  end.

(** [s.lower()] on ASCII text. *)
Definition lower_char (c : ascii) : ascii :=
  let n := N_of_ascii c in
  if ((65 <=? n) && (n <=? 90))%N then ascii_of_N (n + 32) else c.

Fixpoint lower (s : string) : string :=
  match s with
  | EmptyString => EmptyString
  | String c r => String (lower_char c) (lower r)
  end.

(** [IOS_ICON_SIZES]: (export_size, display_size, scale, filename) *)
Definition IOS_ICON_SIZES : list (Z * Z * Z * string) :=
  [ (1024, 1024, 1, "app-icon-1024.png");
    (512, 512, 1, "app-icon-512.png");
    (256, 256, 1, "app-icon-256.png");
    (128, 128, 1, "app-icon-128.png");
    (128, 64, 2, "app-icon-64@2x.png");
    (120, 60, 2, "app-icon-60@2x.png");
    (180, 60, 3, "app-icon-60@3x.png");
    (80, 40, 2, "app-icon-40@2x.png");
    (120, 40, 3, "app-icon-40@3x.png");
    (58, 29, 2, "app-icon-29@2x.png");
    (87, 29, 3, "app-icon-29@3x.png");
    (40, 20, 2, "app-icon-20@2x.png");
    (60, 20, 3, "app-icon-20@3x.png");
    (16, 16, 1, "app-icon-16.png") ].

(** The file name of a variant: [if suffix: name, ext = splitext(filename);
    filename = name + suffix + ext]. *)
Definition with_suffix (suffix filename : string) : string :=
  if String.eqb suffix "" then filename
  else let '(name, ext) := splitext filename in name +:+ suffix +:+ ext.

(** The loop state: the files saved so far (oldest first, each path with
    the picture stored there) and the file system. *)
Definition progress : Type := list (string * PIL.image) * filesystem.

(** One turn of [for export_size, display_size, scale, filename in
    IOS_ICON_SIZES].  [master.resize] reads the pixels of the master, which
    [Image.open] has left in the file. *)
Definition generate_one (master : PIL.image) (output_dir suffix : string)
    (st : progress) (spec : Z * Z * Z * string) : outcome progress :=
  let '(generated_files, fs) := st in
  let '(export_size, display_size, scale, filename) := spec in
  let filename := with_suffix suffix filename in
  let output_path := path_join output_dir filename in
  let* master := PIL.load master in
  let* resized := PIL.resize master (export_size, export_size) in
  let* saved := lift (Png.save_to fs output_path resized) in
  Ok (generated_files ++ [(output_path, fst saved)], snd saved).

(** The [try] block that loads the master. *)
Definition load_master (fs : filesystem) (answer : option string)
    (input_path : string) : outcome PIL.image :=
  try_except
    (let* master := lift (Image_open fs input_path) in
     let '(master_width, master_height) := PIL.size master in
     if negb (master_width =? 1024) || negb (master_height =? 1024) then
       let* response := lift (input answer) in
       if negb (String.eqb (lower response) "y") then SysExit 1 else Ok master
     else Ok master)
    (fun _ => SysExit 1).

(** [generate_variants(input_path, output_dir, suffix, quality)]; the PNG
    writer ignores [quality].  The returned list pairs each generated path
    with the picture stored there. *)
Definition generate_variants (fs : filesystem) (answer : option string)
    (input_path output_dir suffix : string) : outcome progress :=
  if negb (exists_ fs input_path) then Raise FileNotFoundError
  else
    let* master := load_master fs answer input_path in
    let* fs := lift (makedirs fs output_dir) in
    for_each (generate_one master output_dir suffix) IOS_ICON_SIZES ([], fs).

(** [next(f[0] for f in IOS_ICON_SIZES if f[3] == filename)] *)
Fixpoint expected_size_of (table : list (Z * Z * Z * string)) (filename : string)
  : option Z :=
  match table with
  | [] => None
  | (export_size, _, _, f) :: rest =>
      if String.eqb f filename then Some export_size
      else expected_size_of rest filename
  end.

(** One turn of [for filename in required_files] in [validate_icons]. *)
Definition validate_required (fs : filesystem) (output_dir : string)
    (all_valid : bool) (filename : string) : bool :=
  let filepath := path_join output_dir filename in
  if negb (exists_ fs filepath) then false
  else
    match Image_open fs filepath with
    | inl _ => false
    | inr img =>
        let '(width, height) := PIL.size img in
        match expected_size_of IOS_ICON_SIZES filename with
        | None => false
        | Some expected_size =>
            if negb (width =? expected_size) || negb (height =? expected_size)
            then false
            else all_valid
        end
    end.

(** [validate_icons(output_dir)] *)
Definition validate_icons (fs : filesystem) (output_dir : string) : bool :=
  let required_files := map snd IOS_ICON_SIZES in
  fold_left (validate_required fs output_dir) required_files true.

(** The command line after [parser.parse_args()], which ends the process
    itself, with status 2, for a command line that it refuses (a value that
    starts with a dash, such as [--suffix -dark], must be written
    [--suffix=-dark]). *)
Record args := {
  arg_input : option string;
  arg_output : string;
  arg_suffix : string;
  arg_quality : Z;
  arg_update_contents_json : bool;
  arg_validate : bool
}.

(** [generate_contents_json(output_dir)] opens [Contents.json] for writing
    and writes the manifest there; the file holds no picture.  The list that
    it writes is built before, from the files that exist. *)
Definition generate_contents_json (fs : filesystem) (output_dir : string)
  : outcome filesystem :=
  lift (write fs (path_join output_dir "Contents.json") None).

(** [main()], from the parsed command line on.  The value of
    [validate_icons] is computed and dropped, as in the source.  In the
    manifest mode nothing catches an exception of [generate_contents_json]. *)
Definition main (a : args) (answer : option string) (fs : filesystem)
  : outcome filesystem :=
  if arg_update_contents_json a then
    if negb (isdir fs (arg_output a)) then SysExit 1
    else generate_contents_json fs (arg_output a)
  else
    match arg_input a with
    | None => SysExit 1
    | Some input_path =>
        if String.eqb input_path "" then SysExit 1
        else
          try_except
            (let* st := generate_variants fs answer input_path
                          (arg_output a) (arg_suffix a) in
             let fs := snd st in
             let _ := if arg_validate a
                      then validate_icons fs (arg_output a) else true in
             Ok fs)
            (fun _ => SysExit 1)
    end.

(** The status of the process: [main()] is called bare, so a normal return
    ends with status 0, and an exception that nothing catches ends it with
    status 1. *)
Definition exit_status {A} (run : outcome A) : Z :=
  match run with
  | Ok _ => 0
  | SysExit code => code
  | Raise _ => 1
  end.

End IconVariants.

(** ** .worktrees/007-app-store-assets-creation/scripts/generate-icon-variants.py *)

Module WorktreeVariants.

Import IconVariants.

Definition ICON_SIZES : list Z :=
  [16; 29; 32; 40; 58; 60; 76; 80; 87; 120; 152; 167; 180; 1024].

(** The conversion of the master to RGB.  Each branch but the last reads the
    pixels of the master first; in the last one the first turn of the loop
    does, which resizes to 16 by 16.  Every exception of the [try] block ends
    the same way, so the reading is placed at the head of the conversion. *)
Definition to_rgb (master : PIL.image) : outcome PIL.image :=
  let* master := PIL.load master in
  let m := PIL.mode master in
  if String.eqb m "RGBA" || String.eqb m "LA" || String.eqb m "P" then
    let* background := PIL.new "RGB" (PIL.size master) [255; 255; 255] in
    let master := if String.eqb m "P" then PIL.convert master "RGBA" else master in
    let mask := if String.eqb (PIL.mode master) "RGBA"
                then Some (PIL.last_band master) else None in
    PIL.paste background master mask
  else if negb (String.eqb m "RGB") then Ok (PIL.convert master "RGB")
  else Ok master.

(** One turn of [for size in ICON_SIZES]; the state is the list of files
    saved so far, each file name with the picture stored, and the file
    system. *)
Definition generate_size (master : PIL.image) (output_path : Posix.path)
    (st : list (string * PIL.image) * Posix.filesystem) (size : Z)
  : outcome (list (string * PIL.image) * Posix.filesystem) :=
  let '(generated, fs) := st in
  if size =? 1024 then
    let output_file := Posix.joinpath output_path "AppIcon-1024x1024.png" in
    let* saved := lift (Png.save_to_path fs output_file master) in
    Ok (generated ++ [("AppIcon-1024x1024.png", fst saved)], snd saved)
  else
    let* resized := PIL.resize master (size, size) in
    let name := "AppIcon-" +:+ str size +:+ "x" +:+ str size +:+ ".png" in
    let output_file := Posix.joinpath output_path name in
    let* saved := lift (Png.save_to_path fs output_file resized) in
    Ok (generated ++ [(name, fst saved)], snd saved).

(** [generate_icon_variants(master_path, output_dir)]: the files saved
    under [output_dir]. *)
Definition generate_icon_variants (fs : Posix.filesystem)
    (answer : option string) (master_path output_dir : string)
  : outcome (list (string * PIL.image)) :=
  let master_path := Posix.Path master_path in
  if negb (Posix.path_exists fs master_path) then SysExit 1
  else
    let output_path := Posix.Path output_dir in
    let* fs := lift (Posix.path_mkdir fs output_path) in
    try_except
      (let* master := lift (Posix.path_open fs master_path) in
       let* _ :=
         (if negb (fst (PIL.size master) =? 1024)
             || negb (snd (PIL.size master) =? 1024) then
            let* response := lift (input answer) in
            if negb (String.eqb (lower response) "y") then SysExit 1 else Ok tt
          else Ok tt) in
       let* master := to_rgb master in
       let* st := for_each (generate_size master output_path) ICON_SIZES ([], fs) in
       Ok (fst st))
      (fun _ => SysExit 1).

End WorktreeVariants.

(** ** scripts/create-glass-morphism-icon.py

    The geometry and the colours of the gradient are computed by Python in
    binary floating point; here the same expressions are exact rationals, for
    colour channels within 0..255, which the [uint8] array of the gradient
    can hold.  No property below reads a coordinate or a pixel value. *)

Module GlassIcon.

(** [int(255 * opacity / 100)]: the quotient of two integers, truncated. *)
Definition opacity_alpha (opacity : Z) : Z := int (inject_Z (255 * opacity) / 100).

(** [create_noise_texture(width, height, opacity)]; [rng y x] is the value
    that [np.random.randint] drew for row [y] and column [x]; it refuses a
    negative side.  [putalpha] hands the alpha value to C as an [int] and
    raises [OverflowError] when it does not fit; below that bound the
    truncated quotient is the one that Python computes through a float. *)
Definition create_noise_texture (rng : Z -> Z -> Z) (width height opacity : Z)
  : outcome PIL.image :=
  if (width <? 0) || (height <? 0) then Raise ValueError else
  let noise := fun y x => [rng y x] in
  let noise_img := PIL.fromarray height width noise "L" in
  let noise_rgba := PIL.convert noise_img "RGBA" in
  let alpha := opacity_alpha opacity in
  if (alpha <? - 2147483648) || (2147483647 <? alpha) then Raise OverflowError
  else Ok (PIL.putalpha noise_rgba alpha).

Definition channel (c : Z * Z * Z) (i : nat) : Q :=
  let '(r, g, b) := c in
  inject_Z (match i with O => r | S O => g | _ => b end).

(** The colour that [create_gradient_color] stores at row [y], column [x]. *)
Definition gradient_at (width height : Z) (color_start color_middle color_end : Z * Z * Z)
    (y x : Z) : PIL.color :=
  let pos := (inject_Z (x + y) / inject_Z (width + height))%Q in
  if negb (Qle_bool 0.5 pos) then
    let t := (pos * 2)%Q in
    map (fun i => int (channel color_start i * (1 - t) + channel color_middle i * t))
      [O; S O; S (S O)]
  else
    let t := ((pos - 0.5) * 2)%Q in
    map (fun i => int (channel color_middle i * (1 - t) + channel color_end i * t))
      [O; S O; S (S O)].

(** [create_gradient_color(size, color_start, color_middle, color_end)] *)
Definition create_gradient_color (size : Z * Z)
    (color_start color_middle color_end : Z * Z * Z) : PIL.image :=
  let '(width, height) := size in
  PIL.fromarray height width
    (gradient_at width height color_start color_middle color_end) "RGB".

(** [create_fluid_L(size, gradient_img)] *)
Definition create_fluid_L (size : Z * Z) (gradient_img : PIL.image)
  : outcome PIL.image :=
  let '(width, height) := size in
  let* img := PIL.new "RGBA" (width, height) [0; 0; 0; 0] in
  let l_height := int (inject_Z height * 0.5) in
  let l_width := int (inject_Z l_height * 0.7) in
  let stroke_thick := 120 in
  let stroke_thin := 60 in
  let center_x := width / 2 in
  let center_y := height / 2 in
  let left_ := center_x - l_width / 2 in
  let top := center_y - l_height / 2 in
  let right_ := left_ + l_width in
  let bottom := top + l_height in
  let crossbar_y := top + int (inject_Z l_height * 0.25) in
  let points : list (Q * Q) :=
    [ (inject_Z (left_ + stroke_thick / 3), inject_Z top);
      (inject_Z (left_ + stroke_thick / 2), inject_Z (top + 50));
      (inject_Z (left_ + stroke_thick), inject_Z top + inject_Z l_height * 0.1);
      (inject_Z (left_ + stroke_thick), inject_Z (bottom - 20));
      (inject_Z (left_ + stroke_thin + 20), inject_Z bottom);
      (inject_Z (left_ + stroke_thin), inject_Z bottom);
      (inject_Z (left_ + stroke_thin), inject_Z (crossbar_y + stroke_thin));
      (inject_Z left_ + inject_Z l_width * 0.7, inject_Z (crossbar_y + stroke_thin));
      (inject_Z left_ + inject_Z l_width * 0.7, inject_Z crossbar_y);
      (inject_Z (left_ + stroke_thick / 2), inject_Z (top + 50));
      (inject_Z (left_ + stroke_thick / 3), inject_Z top) ]%Q in
  let* l_mask := PIL.new "RGBA" (width, height) [0; 0; 0; 0] in
  let l_mask := PIL.draw l_mask (PIL.Polygon points) [255; 255; 255; 255] in
  let* clear := PIL.new "RGBA" (width, height) [0; 0; 0; 0] in
  let* l_final := PIL.alpha_composite clear (PIL.convert gradient_img "RGBA") in
  (* Image.new without a colour fills with 0 *)
  let* empty := PIL.new "RGBA" (width, height) [0] in
  PIL.composite l_final empty (PIL.last_band l_mask).

(** [create_glass_card(size, blur_radius, opacity, border_opacity)] *)
Definition create_glass_card (size : Z * Z) (blur_radius opacity border_opacity : Z)
  : outcome PIL.image :=
  let '(width, height) := size in
  let card_size := int (inject_Z (Z.min width height) * 0.80) in
  let corner_radius := int (inject_Z card_size * 0.225) in
  let* card := PIL.new "RGBA" (width, height) [0; 0; 0; 0] in
  let card_left := (width - card_size) / 2 in
  let card_top := (height - card_size) / 2 in
  let card_right := card_left + card_size in
  let card_bottom := card_top + card_size in
  let alpha := opacity_alpha opacity in
  let card :=
    PIL.draw card
      (PIL.RoundedRectangle card_left card_top card_right card_bottom
         corner_radius [255; 255; 255; opacity_alpha border_opacity] 2)
      [255; 255; 255; alpha] in
  Ok (PIL.gaussian_blur card blur_radius).


End GlassIcon.

(** * Statements about the scripts: auxiliary definitions *)

Import FS.

(** ** The icon rules *)

(** An existing, decodable icon file. *)
Definition icon_file (bytes : Z) (img : PIL.image) : option node :=
  Some (File bytes (Some img)).

(** The three rules: exactly 1024 by 1024, format PNG, at most 0.5 MB
    (524288 bytes). *)
Definition dimensions_ok (img : PIL.image) : bool :=
  (fst (PIL.size img) =? 1024) && (snd (PIL.size img) =? 1024).

Definition format_ok (img : PIL.image) : bool :=
  match PIL.format img with
  | Some f => String.eqb f "PNG"
  | None => false
  end.

Definition file_size_ok (bytes : Z) : bool := bytes <=? 524288.

(** How many of the three rules an icon breaks. *)
Definition violations (bytes : Z) (img : PIL.image) : nat :=
  ((if dimensions_ok img then 0 else 1)
   + (if format_ok img then 0 else 1)
   + (if file_size_ok bytes then 0 else 1))%nat.

Definition set_mode (m : string) (img : PIL.image) : PIL.image :=
  PIL.Image (PIL.size img) m (PIL.format img) (PIL.data img).



(** ** The screenshot report *)

(** The screenshot that a printed line gives a dimension status for. *)
Definition status_of (l : Validator.line) : option string :=
  match l with
  | Validator.ShotWrongSize screenshot _ _ _ _ => Some screenshot
  | Validator.ShotOk screenshot _ _ => Some screenshot
  | Validator.ShotError screenshot _ => Some screenshot
  | _ => None
  end.

(** Whether a screenshot of a device directory opens with the required size. *)
Definition shot_ok (specs : Validator.screenshot_specs)
    (device_dir : list (string * node)) (screenshot : string) : bool :=
  match Image_open (lookup_entry device_dir screenshot) with
  | inr img =>
      (fst (PIL.size img) =? fst (Validator.shot_size specs))
      && (snd (PIL.size img) =? snd (Validator.shot_size specs))
  | inl _ => false
  end.

(** The status line of one screenshot. *)
Definition shot_line (specs : Validator.screenshot_specs)
    (device_dir : list (string * node)) (screenshot : string) : Validator.line :=
  match Image_open (lookup_entry device_dir screenshot) with
  | inr img =>
      if shot_ok specs device_dir screenshot
      then Validator.ShotOk screenshot (fst (PIL.size img)) (snd (PIL.size img))
      else Validator.ShotWrongSize screenshot
             (fst (PIL.size img)) (snd (PIL.size img))
             (fst (Validator.shot_size specs)) (snd (Validator.shot_size specs))
  | inl e => Validator.ShotError screenshot e
  end.

(** The report for one device, in words: a missing directory fails with one
    line; a directory with fewer [.png] files than required fails with the
    count and no line about any file; otherwise every [.png] file gets its
    status line, and the device passes when all of them are right. *)
Definition device_report (root : list (string * node))
    (d : string * Validator.screenshot_specs) : bool * list Validator.line :=
  let '(device, specs) := d in
  match lookup_entry root device with
  | Some (Dir device_dir) =>
      let screenshots := Validator.png_files device_dir in
      let actual_count := Z.of_nat (length screenshots) in
      if actual_count <? Validator.shot_count specs
      then (false, [Validator.DeviceHeader device;
                    Validator.FoundScreenshots actual_count (Validator.shot_count specs)])
      else (forallb (shot_ok specs device_dir) screenshots,
            Validator.DeviceHeader device
            :: map (shot_line specs device_dir) screenshots)
  | _ => (false, [Validator.DeviceHeader device;
                  Validator.DeviceDirectoryNotFound device])
  end.

(** The whole report, assembled from the device reports. *)
Definition assembled_report (root : list (string * node))
  : bool * list Validator.line :=
  let reports := map (device_report root) Validator.SCREENSHOT_SPECS in
  let passed := forallb fst reports in
  (passed,
   [Validator.ValidatingScreenshots] ++ concat (map snd reports)
   ++ (if passed then [Validator.AllScreenshotsValidated] else [])).

(** The reading of the screenshot check that reports every present [.png]
    file of every existing device directory. *)
Definition reports_every_present_file (root : list (string * node)) : Prop :=
  forall device specs device_dir screenshot,
    In (device, specs) Validator.SCREENSHOT_SPECS ->
    lookup_entry root device = Some (Dir device_dir) ->
    In screenshot (Validator.png_files device_dir) ->
    exists l,
      In l (snd (Validator.validate_screenshots (Some (Dir root))))
      /\ status_of l = Some screenshot.

(** ** Changing a device directory *)

(** Apply [f] to the node that [name] denotes. *)
Fixpoint alter_entry (f : node -> node) (entries : list (string * node))
    (name : string) : list (string * node) :=
  match entries with
  | [] => []
  | (n, x) :: rest =>
      if String.eqb n name then (n, f x) :: rest
      else (n, x) :: alter_entry f rest name
  end.

Definition add_to_dir (name : string) (file : node) (d : node) : node :=
  match d with
  | Dir entries => Dir (entries ++ [(name, file)])
  | File _ _ => d
  end.

Definition remove_from_dir (name : string) (d : node) : node :=
  match d with
  | Dir entries =>
      Dir (List.filter (fun e => negb (String.eqb (fst e) name)) entries)
  | File _ _ => d
  end.

(** Add a file to, or remove a file from, the directory of a device. *)
Definition add_file (root : list (string * node)) (device name : string)
    (file : node) : list (string * node) :=
  alter_entry (add_to_dir name file) root device.

Definition remove_file (root : list (string * node)) (device name : string)
  : list (string * node) :=
  alter_entry (remove_from_dir name) root device.

(** A required file of a device directory: one of its [.png] files that
    either has the required resolution or is needed to reach the required
    count. *)
Definition required_file (specs : Validator.screenshot_specs)
    (device_dir : list (string * node)) (name : string) : Prop :=
  In name (Validator.png_files device_dir)
  /\ (shot_ok specs device_dir name = true
      \/ Z.of_nat (length (Validator.png_files device_dir))
         <= Validator.shot_count specs).

(** Keep only the [.png] entries of a device directory. *)
Definition only_png (d : node) : node :=
  match d with
  | Dir entries => Dir (List.filter (fun e => endswith (fst e) ".png") entries)
  | File _ _ => d
  end.

Definition drop_other_files (root : list (string * node)) : list (string * node) :=
  map (fun e => (fst e, only_png (snd e))) root.

(** ** Concrete inputs *)

(** An opaque RGB picture decoded from a PNG file. *)
Definition picture (w h : Z) : PIL.image :=
  PIL.Image (w, h) "RGB" (Some "PNG") (PIL.Decoded 0).

(** A directory listing of screenshots of one size. *)
Definition shots (names : list string) (w h : Z) : list (string * node) :=
  map (fun n => (n, File 200000 (Some (picture w h)))) names.

Definition six_names : list string :=
  ["1.png"; "2.png"; "3.png"; "4.png"; "5.png"; "6.png"].

(** A screenshots directory whose iphone_se folder holds four of the six
    required files, all of the right size. *)
Definition four_of_six : list (string * node) :=
  [ ("iphone_se", Dir (shots ["1.png"; "2.png"; "3.png"; "4.png"] 750 1334)) ].

(** A complete screenshots directory. *)
Definition complete_root : list (string * node) :=
  [ ("iphone_se", Dir (shots six_names 750 1334));
    ("iphone_15", Dir (shots six_names 1179 2556));
    ("iphone_15_pro_max", Dir (shots six_names 1290 2796));
    ("ipad", Dir (shots six_names 1640 2360)) ].

(** The same with one wrongly sized screenshot among the six of the iPad. *)
Definition one_wrong_root : list (string * node) :=
  [ ("iphone_se", Dir (shots six_names 750 1334));
    ("iphone_15", Dir (shots six_names 1179 2556));
    ("iphone_15_pro_max", Dir (shots six_names 1290 2796));
    ("ipad", Dir (shots ["1.png"; "2.png"; "3.png"; "4.png"; "5.png"] 1640 2360
                  ++ shots ["6.png"] 1024 768)) ].

Definition se_specs : Validator.screenshot_specs :=
  {| Validator.shot_size := (750, 1334); Validator.shot_count := 6 |}.

Definition ipad_specs : Validator.screenshot_specs :=
  {| Validator.shot_size := (1640, 2360); Validator.shot_count := 6 |}.

(** ** The screenshot post-processor *)

(** A written file was made from raw screenshot [i] of the input directory:
    it carries the output name of [i] and the size of the raw picture. *)
Definition made_from (input_dir : list (string * node))
    (specs : Screenshots.device_specs) (w : string * PIL.image) : Prop :=
  exists i filename src title,
    In i [1; 2; 3; 4; 5; 6]
    /\ Screenshots.find_input input_dir (Screenshots.input_files i) = Some filename
    /\ Image_open (lookup_entry input_dir filename) = inr src
    /\ Screenshots.title i = inr title
    /\ fst w = Screenshots.output_filename i title (Screenshots.export_size specs)
    /\ PIL.size (snd w) = PIL.size src.

(** The reading of the post-processor in which every written file has the
    export resolution of the device. *)
Definition outputs_have_export_size (env : Screenshots.typography)
    (fs : Posix.filesystem) (input_dir : list (string * node))
    (output_dir device_type : string) (add_captions : bool) : Prop :=
  forall specs,
    Screenshots.get Screenshots.DEVICE_SPECS device_type = Some specs ->
    Forall (fun w => PIL.size (snd w) = Screenshots.export_size specs)
      (fst (Screenshots.batch_process env fs input_dir output_dir device_type
              add_captions)).

(** A machine without the Helvetica file, and a fixed text box. *)
Definition plain_typography : Screenshots.typography :=
  {| Screenshots.helvetica_loads := false;
     Screenshots.textbbox := fun _ _ => (0, 0, 600, 40) |}.

(** An input directory with one raw capture of 1170 by 2532 pixels. *)
Definition raw_dir : list (string * node) :=
  [ ("1.png", File 900000 (Some (picture 1170 2532))) ].

(** A file system that holds the working directory [/work] and nothing
    else; and the same with a file, or a directory, added to the working
    directory. *)
Definition workdir : Posix.filesystem :=
  {| Posix.cwd := ["work"];
     Posix.store := {[ ["work"] := Posix.Directory ]} |}.

Definition with_file (fs : Posix.filesystem) (name : string) (img : PIL.image)
  : Posix.filesystem :=
  {| Posix.cwd := Posix.cwd fs;
     Posix.store :=
       <[Posix.cwd fs ++ [name] := Posix.RegularFile (Some img)]>
         (Posix.store fs) |}.

Definition with_directory (fs : Posix.filesystem) (name : string)
  : Posix.filesystem :=
  {| Posix.cwd := Posix.cwd fs;
     Posix.store :=
       <[Posix.cwd fs ++ [name] := Posix.Directory]> (Posix.store fs) |}.

Definition iphone_15_specs : Screenshots.device_specs :=
  {| Screenshots.name := "iPhone 15"; Screenshots.screen_size := (393, 852);
     Screenshots.export_size := (1179, 2556); Screenshots.scale := 3 |}.

(** ** The icon generator *)

(** A run of the generator for the dark variants with validation, into a
    fresh directory, from a valid master. *)
Definition dark_args : IconVariants.args :=
  {| IconVariants.arg_input := Some "app-icon-dark.png";
     IconVariants.arg_output := "AppIcon.appiconset/";
     IconVariants.arg_suffix := "-dark";
     IconVariants.arg_quality := 95;
     IconVariants.arg_update_contents_json := false;
     IconVariants.arg_validate := true |}.

Definition master_only : Posix.filesystem :=
  with_file workdir "app-icon-dark.png" (picture 1024 1024).

(** A name that path resolution takes as one step into a directory. *)
Fixpoint no_slash (s : string) : bool :=
  match s with
  | EmptyString => true
  | String c rest => negb (Ascii.eqb c "/"%char) && no_slash rest
  end.

Definition plain (name : string) : bool :=
  no_slash name && negb (Posix.stays name) && negb (String.eqb name "..").

(** What a variant of the table must look like once saved. *)
Definition variant_saved (output_dir suffix : string)
    (spec : Z * Z * Z * string) (sv : string * PIL.image) : Prop :=
  let '(export_size, _, _, filename) := spec in
  fst sv = path_join output_dir (IconVariants.with_suffix suffix filename)
  /\ PIL.size (snd sv) = (export_size, export_size).


(** ** The procedural icon *)



(** * The rest of the scripts *)

(** ** validate_app_store_assets.py: the video check, [--all] and [main] *)

Module ValidatorCli.

Import FS.

(** [VIDEO_SPECS] *)
Record video_specs := {
  duration_min : Z;
  duration_max : Z;
  resolution : Z * Z;
  video_format : list string;
  video_max_size_mb : Q;
  codec : string
}.

Definition VIDEO_SPECS : video_specs :=
  {| duration_min := 27;
     duration_max := 30;
     resolution := (1920, 1080);
     video_format := ["M4V"; "MOV"];
     video_max_size_mb := 50;
     codec := "H.264" |}.

(** [s.upper()] on ASCII text. *)
Definition upper_char (c : ascii) : ascii :=
  let n := N_of_ascii c in
  if ((97 <=? n) && (n <=? 122))%N then ascii_of_N (n - 32) else c.

Fixpoint upper (s : string) : string :=
  match s with
  | EmptyString => EmptyString
  | String c r => String (upper_char c) (upper r)
  end.

(** [s.lstrip(".")] *)
Fixpoint lstrip_dots (s : string) : string :=
  match s with
  | String c r => if Ascii.eqb c "."%char then lstrip_dots r else s
  | EmptyString => EmptyString
  end.

(** [os.path.getsize(path)] of whatever the path names; [dir_size] is the
    size that the system reports for a directory. *)
Definition os_getsize (dir_size : Z) (target : option node) : exn + Z :=
  match target with
  | Some (File bytes _) => inr bytes
  | Some (Dir _) => inr dir_size
  | None => inl FileNotFoundError
  end.

(** What [validate_video] prints. *)
Inductive video_line :=
| ValidatingVideo
| VideoFileNotFound
| VideoTooLarge (file_size_mb limit : Q)
| ExtensionWarning (ext : string) (expected : list string)
| ContainerNote
| NeedsFfmpeg
| BasicChecksPassed
| VideoFileSize (file_size_mb limit : Q)
| VideoExtension (ext : string)
| VideoError (e : exn).

(** [validate_video(video_path)]; [target] is what [video_path] names.
    The size in MB is compared as in [validate_icon]: the division by
    [1024 * 1024] is exact. *)
Definition validate_video (dir_size : Z) (video_path : string)
    (target : option node) : bool * list video_line :=
  let out := [ValidatingVideo] in
  if negb (exists_ target) then (false, out ++ [VideoFileNotFound])
  else
    match os_getsize dir_size target with
    | inl e => (false, out ++ [VideoError e])
    | inr bytes =>
        let file_size_mb := Validator.file_size_mb bytes in
        if negb (Qle_bool file_size_mb (video_max_size_mb VIDEO_SPECS))
        then (false, out ++ [VideoTooLarge file_size_mb
                               (video_max_size_mb VIDEO_SPECS)])
        else
          let ext := lstrip_dots (upper (snd (splitext video_path))) in
          let out :=
            if negb (existsb (String.eqb ext) (video_format VIDEO_SPECS))
            then out ++ [ExtensionWarning ext (video_format VIDEO_SPECS);
                         ContainerNote]
            else out in
          (true, out ++ [NeedsFfmpeg; BasicChecksPassed;
                         VideoFileSize file_size_mb (video_max_size_mb VIDEO_SPECS);
                         VideoExtension ext])
    end.

(** The machine as the validator sees it: what each path names. *)
Record world := {
  at_path : string -> option node;
  dir_size : Z
}.

(** What one run of the tool prints. *)
Inductive run_line :=
| ValidatingAll
| FromIcon (l : Validator.line)
| FromScreenshots (l : Validator.line)
| FromVideo (l : video_line)
| SummaryHeader
| Summary (asset : string) (passed : bool)
| AllAssetsValidated
| SomeAssetsFailed
| Help.

Definition icon_path : string :=
  "LexiconFlow/LexiconFlow/Assets.xcassets/AppIcon.appiconset/app-icon.png".
Definition screenshots_dir : string := "fastlane/screenshots".
Definition video_path : string :=
  "fastlane/video/exports/lexicon_flow_preview_1080p.m4v".

(** [f(path) if os.path.exists(path) else False] *)
Definition if_exists {L} (target : option node) (run : bool * list L)
  : bool * list L :=
  if exists_ target then run else (false, []).

(** [validate_all()]: the returned status and the printed lines. *)
Definition validate_all (w : world) : Z * list run_line :=
  let icon :=
    if_exists (at_path w icon_path)
      (Validator.validate_icon (at_path w icon_path)) in
  let screenshots :=
    if_exists (at_path w screenshots_dir)
      (Validator.validate_screenshots (at_path w screenshots_dir)) in
  let video :=
    if_exists (at_path w video_path)
      (validate_video (dir_size w) video_path (at_path w video_path)) in
  let results :=
    [("icon", fst icon); ("screenshots", fst screenshots); ("video", fst video)] in
  let all_passed := forallb snd results in
  let out :=
    [ValidatingAll] ++ map FromIcon (snd icon)
    ++ map FromScreenshots (snd screenshots) ++ map FromVideo (snd video)
    ++ [SummaryHeader] ++ map (fun r => Summary (fst r) (snd r)) results in
  if all_passed then (0, out ++ [AllAssetsValidated])
  else (1, out ++ [SomeAssetsFailed]).

(** The command line after [parser.parse_args()], which ends the process
    itself, with status 2, for a command line that it refuses. *)
Record args := {
  arg_all : bool;
  arg_icon : option string;
  arg_screenshots : option string;
  arg_video : option string
}.

(** The truth value of an optional string argument, with its text. *)
Definition given (o : option string) : option string :=
  match o with
  | Some text => if String.eqb text "" then None else Some text
  | None => None
  end.

(** [main()], from the parsed command line on: the value handed to
    [sys.exit] and the printed lines. *)
Definition main (w : world) (a : args) : Z * list run_line :=
  if arg_all a then validate_all w
  else
    match given (arg_icon a) with
    | Some path =>
        let r := Validator.validate_icon (at_path w path) in
        (Validator.exit_status (fst r), map FromIcon (snd r))
    | None =>
        match given (arg_screenshots a) with
        | Some path =>
            let r := Validator.validate_screenshots (at_path w path) in
            (Validator.exit_status (fst r), map FromScreenshots (snd r))
        | None =>
            match given (arg_video a) with
            | Some path =>
                let r := validate_video (dir_size w) path (at_path w path) in
                (Validator.exit_status (fst r), map FromVideo (snd r))
            | None => (1, [Help])
            end
        end
    end.

End ValidatorCli.

(** ** generate-icon-variants.py: the manifest *)

Module Manifest.

Import Posix.
Import IconVariants.

(** One element of ["images"].  [dark] stands for the [appearances] key
    with luminosity dark. *)
Record image_entry := {
  filename : string;
  idiom : string;
  platform : option string;
  scale : option string;
  size : string;
  dark : bool
}.

Definition among (x : Z) (l : list Z) : bool := existsb (Z.eqb x) l.

(** The [if export_size == 1024 ... elif ... elif ...] that builds [entry];
    nothing when no branch applies. *)
Definition build_entry (filename : string) (export_size display_size scale : Z)
  : option image_entry :=
  if export_size =? 1024 then
    Some {| filename := filename; idiom := "universal"; platform := Some "ios";
            scale := None; size := "1024x1024"; dark := false |}
  else if among display_size [60; 40; 29; 20] then
    Some {| filename := filename;
            idiom := if among export_size [120; 180; 58; 87; 40; 60]
                     then "iphone" else "ipad";
            platform := None;
            scale := Some (str scale +:+ "x");
            size := str display_size +:+ "x" +:+ str display_size;
            dark := false |}
  else if among display_size [16; 32; 64; 128; 256; 512] then
    Some {| filename := filename;
            idiom := "mac";
            platform := None;
            scale := Some (if 1 <? scale then str scale +:+ "x" else "1x");
            size := str display_size +:+ "x" +:+ str display_size;
            dark := false |}
  else None.

(** [entry.update(appearance)] for [suffix == "-dark"]. *)
Definition with_appearance (suffix : string) (e : image_entry) : image_entry :=
  if String.eqb suffix "-dark"
  then {| filename := filename e; idiom := idiom e; platform := platform e;
          scale := scale e; size := size e; dark := true |}
  else e.

(** One turn of the inner loop.  The result is nothing when a row falls
    through the three branches: the source then has no [entry] of this turn
    to append. *)
Definition add_image (fs : filesystem) (output_dir suffix : string)
    (images : list image_entry) (row : Z * Z * Z * string)
  : option (list image_entry) :=
  let '(export_size, display_size, scale, filename) := row in
  let filename := with_suffix suffix filename in
  let filepath := path_join output_dir filename in
  if negb (exists_ fs filepath) then Some images
  else
    match build_entry filename export_size display_size scale with
    | Some e => Some (images ++ [with_appearance suffix e])
    | None => None
    end.

Fixpoint add_images (fs : filesystem) (output_dir suffix : string)
    (rows : list (Z * Z * Z * string)) (images : list image_entry)
  : option (list image_entry) :=
  match rows with
  | [] => Some images
  | row :: rest =>
      match add_image fs output_dir suffix images row with
      | Some images => add_images fs output_dir suffix rest images
      | None => None
      end
  end.

(** The outer loop [for suffix in suffixes]. *)
Fixpoint add_suffixes (fs : filesystem) (output_dir : string)
    (suffixes : list string) (images : list image_entry)
  : option (list image_entry) :=
  match suffixes with
  | [] => Some images
  | suffix :: rest =>
      match add_images fs output_dir suffix IOS_ICON_SIZES images with
      | Some images => add_suffixes fs output_dir rest images
      | None => None
      end
  end.

(** The ["images"] list that [generate_contents_json(output_dir)] writes,
    with the default [suffixes]. *)
Definition images (fs : filesystem) (output_dir : string)
  : option (list image_entry) :=
  add_suffixes fs output_dir [""; "-dark"] [].

End Manifest.

(** ** Statements about the rest of the scripts: auxiliary definitions *)

(** The three rules of an icon, as propositions. *)
Definition conforming_icon (target : option node) : Prop :=
  exists bytes img,
    target = Some (File bytes (Some img))
    /\ PIL.size img = (1024, 1024)
    /\ PIL.format img = Some "PNG"
    /\ bytes <= 524288.

(** A device directory that meets the screenshot rules. *)
Definition conforming_device (root : list (string * node))
    (d : string * Validator.screenshot_specs) : Prop :=
  exists device_dir,
    lookup_entry root (fst d) = Some (Dir device_dir)
    /\ Validator.shot_count (snd d)
       <= Z.of_nat (length (Validator.png_files device_dir))
    /\ forall f, In f (Validator.png_files device_dir) ->
         exists bytes img,
           lookup_entry device_dir f = Some (File bytes (Some img))
           /\ PIL.size img = Validator.shot_size (snd d).

(** The devices whose header a report prints, in order. *)
Definition headers (out : list Validator.line) : list string :=
  flat_map (fun l => match l with
                     | Validator.DeviceHeader device => [device]
                     | _ => []
                     end) out.

(** Put another listing in the place of a device directory. *)
Definition relist (root : list (string * node)) (device : string)
    (listing : list (string * node)) : list (string * node) :=
  alter_entry (fun _ => Dir listing) root device.

(** The size in bytes of whatever a path names, for the video check. *)
Definition video_bytes (dir_size : Z) (target : option node) : option Z :=
  match target with
  | Some (File bytes _) => Some bytes
  | Some (Dir _) => Some dir_size
  | None => None
  end.

(** The verdict of each asset under [--all]. *)
Definition icon_verdict (w : ValidatorCli.world) : bool :=
  fst (Validator.validate_icon (ValidatorCli.at_path w ValidatorCli.icon_path)).
Definition screenshots_verdict (w : ValidatorCli.world) : bool :=
  fst (Validator.validate_screenshots
         (ValidatorCli.at_path w ValidatorCli.screenshots_dir)).
Definition video_verdict (w : ValidatorCli.world) : bool :=
  fst (ValidatorCli.validate_video (ValidatorCli.dir_size w)
         ValidatorCli.video_path
         (ValidatorCli.at_path w ValidatorCli.video_path)).

(** The title of screenshot [i], when it has one. *)
Definition title_text (i : Z) : string :=
  match Screenshots.title i with
  | inr t => t
  | inl _ => ""
  end.



(** A master of 512 by 512 pixels with an alpha channel. *)
Definition small_master_only : Posix.filesystem :=
  with_file workdir "small.png" (set_mode "RGBA" (picture 512 512)).

(** The size a worktree variant must have: the master's own for the entry
    1024, the target otherwise. *)
Definition worktree_saved (master : PIL.image) (size : Z)
    (sv : string * PIL.image) : Prop :=
  fst sv = "AppIcon-" +:+ str size +:+ "x" +:+ str size +:+ ".png"
  /\ PIL.size (snd sv) = (if size =? 1024 then PIL.size master else (size, size))
  /\ PIL.mode (snd sv) = "RGB"
  /\ PIL.format (snd sv) = Some "PNG".

(** The names of the manifest with their dark flag, for every file of the
    table, light set first. *)
Definition manifest_candidates : list (string * bool) :=
  map (fun row => (IconVariants.with_suffix "" (snd row), false))
    IconVariants.IOS_ICON_SIZES
  ++ map (fun row => (IconVariants.with_suffix "-dark" (snd row), true))
       IconVariants.IOS_ICON_SIZES.

(** A directory [out] that holds the complete light set and one dark
    file. *)
Definition light_and_one_dark : Posix.filesystem :=
  {| Posix.cwd := ["work"];
     Posix.store :=
       <[ ["work"; "out"; "app-icon-60@2x-dark.png"] :=
            Posix.RegularFile (Some (picture 120 120)) ]>
         (list_to_map
            (map (fun row =>
                    (["work"; "out"; snd row],
                     Posix.RegularFile
                       (Some (picture (fst (fst (fst row)))
                                (fst (fst (fst row)))))))
               IconVariants.IOS_ICON_SIZES)
          ∪ Posix.store (with_directory workdir "out")) |}.

(** The picture that [generate_variants] stores for a target size. *)
Definition stored_variant (master : PIL.image) (export_size : Z) : PIL.image :=
  Png.saved (PIL.Image (export_size, export_size) (PIL.mode master) None
               (PIL.Resampled export_size export_size (PIL.data master))).

(** The files that the rows of a size table give, each path with its
    picture. *)
Definition variants_of (master : PIL.image) (output_dir suffix : string)
    (rows : list (Z * Z * Z * string)) : list (string * PIL.image) :=
  map (fun row =>
         (path_join output_dir (IconVariants.with_suffix suffix (snd row)),
          stored_variant master (fst (fst (fst row)))))
    rows.

(** Writing a list of pictures, in order, each at its location. *)
Definition put_all (files : list (list string * PIL.image))
    (st : gmap (list string) Posix.entry) : gmap (list string) Posix.entry :=
  fold_left
    (fun st f => <[fst f := Posix.RegularFile (Some (snd f))]> st)
    files st.

(** The path of a variant of the size table. *)
Definition variant_path (output_dir suffix : string) (row : Z * Z * Z * string)
  : string :=
  path_join output_dir (IconVariants.with_suffix suffix (snd row)).

(** A colour whose three channels fit a byte. *)
Definition colour (c : Z * Z * Z) : bool :=
  let '(r, g, b) := c in
  (0 <=? r) && (r <=? 255) && (0 <=? g) && (g <=? 255)
  && (0 <=? b) && (b <=? 255).


(** Two tables hold the same directories. *)
Definition same_directories (st st' : gmap (list string) Posix.entry) : Prop :=
  forall loc, Posix.is_dir st loc = Posix.is_dir st' loc.

(** The second table keeps every entry of the first, and what it adds are
    directories. *)
Definition extends (st st' : gmap (list string) Posix.entry) : Prop :=
  (forall loc e, st !! loc = Some e -> st' !! loc = Some e)
  /\ (forall loc e, st' !! loc = Some e ->
        st !! loc = Some e \/ (st !! loc = None /\ e = Posix.Directory)).

(** * Properties *)

(** ** validate_icon *)

Lemma file_size_rule (bytes : Z) :
  Qle_bool (Validator.file_size_mb bytes) (Validator.max_size_mb Validator.ICON_SPECS)
  = file_size_ok bytes.
Proof.
  unfold Validator.file_size_mb, file_size_ok, Qle_bool.
  change (1024 * 1024) with 1048576. cbn.
  match goal with
  | |- (?a <=? ?b) = _ => destruct (Z.leb_spec a b)
  end; destruct (Z.leb_spec bytes 524288); try reflexivity; lia.
Qed.

Lemma dimension_errors_nil (img : PIL.image) :
  Validator.dimension_errors (fst (PIL.size img)) (snd (PIL.size img)) = []
  <-> dimensions_ok img = true.
Proof.
  unfold Validator.dimension_errors, dimensions_ok. cbn.
  destruct (fst (PIL.size img) =? 1024), (snd (PIL.size img) =? 1024);
    cbn; split; congruence.
Qed.

Lemma format_errors_nil (img : PIL.image) :
  Validator.format_errors (PIL.format img) = [] <-> format_ok img = true.
Proof.
  unfold Validator.format_errors, Validator.format_differs, format_ok. cbn.
  destruct (PIL.format img) as [f|]; [|split; congruence].
  destruct (String.eqb f "PNG"); cbn; split; congruence.
Qed.

Lemma file_size_errors_nil (bytes : Z) :
  Validator.file_size_errors (Validator.file_size_mb bytes) = []
  <-> file_size_ok bytes = true.
Proof.
  unfold Validator.file_size_errors. rewrite file_size_rule.
  destruct (file_size_ok bytes); cbn; split; congruence.
Qed.

(** The verdict of [validate_icon] on a decodable file is the conjunction of
    the three rules; the mode has no part in it. *)
Lemma validate_icon_decides (bytes : Z) (img : PIL.image) :
  fst (Validator.validate_icon (icon_file bytes img))
  = dimensions_ok img && format_ok img && file_size_ok bytes.
Proof.
  unfold Validator.validate_icon, icon_file. cbn.
  destruct (PIL.size img) as [width height] eqn:Hsize.
  pose proof (dimension_errors_nil img) as Hd.
  pose proof (format_errors_nil img) as Hf.
  pose proof (file_size_errors_nil bytes) as Hs.
  rewrite Hsize in Hd. cbn [fst snd] in Hd.
  destruct (Validator.dimension_errors width height) eqn:Ed.
  - rewrite (proj1 Hd eq_refl). cbn [app andb].
    destruct (Validator.format_errors (PIL.format img)) eqn:Ef.
    + rewrite (proj1 Hf eq_refl). cbn [app andb].
      destruct (Validator.file_size_errors (Validator.file_size_mb bytes)) eqn:Es.
      * rewrite (proj1 Hs eq_refl).
        destruct (Validator.alpha_warnings (PIL.mode img)); reflexivity.
      * destruct (file_size_ok bytes); [|reflexivity].
        destruct Hs as [_ Hs]. discriminate (Hs eq_refl).
    + destruct (format_ok img); [|reflexivity].
      destruct Hf as [_ Hf]. discriminate (Hf eq_refl).
  - destruct (dimensions_ok img); [|reflexivity].
    destruct Hd as [_ Hd]. discriminate (Hd eq_refl).
Qed.

(** C4.  An icon file that exists, is exactly 1024 by 1024, is a PNG and is
    at most 0.5 MB passes [validate_icon]; an icon that breaks exactly one of
    the three rules (dimensions, format, file size) and keeps the other two
    fails it. *)
Theorem validate_icon_pass_and_single_violation
    (bytes bytes' : Z) (img img' : PIL.image) :
  dimensions_ok img = true ->
  format_ok img = true ->
  file_size_ok bytes = true ->
  violations bytes' img' = 1%nat ->
  fst (Validator.validate_icon (icon_file bytes img)) = true
  /\ fst (Validator.validate_icon (icon_file bytes' img')) = false.
Proof.
  intros Hd Hf Hs Hv. rewrite !validate_icon_decides.
  split.
  - rewrite Hd, Hf, Hs. reflexivity.
  - unfold violations in Hv.
    destruct (dimensions_ok img'), (format_ok img'), (file_size_ok bytes');
      cbn in Hv; try reflexivity; discriminate.
Qed.


(** ** validate_screenshots: the report, device by device *)

Lemma forallb_through_map {A B} (f : B -> bool) (g : A -> B) (l : list A) :
  forallb f (map g l) = forallb (fun x => f (g x)) l.
Proof.
  induction l as [|x rest IH]; cbn; [reflexivity|]. rewrite IH. reflexivity.
Qed.

Lemma check_screenshot_step specs device_dir b out screenshot :
  Validator.check_screenshot specs device_dir (b, out) screenshot
  = (b && shot_ok specs device_dir screenshot,
     out ++ [shot_line specs device_dir screenshot]).
Proof.
  unfold Validator.check_screenshot, shot_ok, shot_line, shot_ok.
  destruct (Image_open (lookup_entry device_dir screenshot)) as [e|img].
  - rewrite andb_false_r. reflexivity.
  - destruct (PIL.size img) as [width height].
    destruct (Validator.shot_size specs) as [ew eh]. cbn [fst snd].
    destruct (width =? ew), (height =? eh); cbn [negb orb andb];
      rewrite ?andb_true_r, ?andb_false_r; reflexivity.
Qed.

Lemma check_screenshot_fold specs device_dir screenshots b out :
  fold_left (Validator.check_screenshot specs device_dir) screenshots (b, out)
  = (b && forallb (shot_ok specs device_dir) screenshots,
     out ++ map (shot_line specs device_dir) screenshots).
Proof.
  revert b out. induction screenshots as [|s rest IH]; intros b out.
  - cbn. rewrite andb_true_r, app_nil_r. reflexivity.
  - cbn [fold_left forallb map]. rewrite check_screenshot_step, IH.
    rewrite <- app_assoc, andb_assoc. reflexivity.
Qed.

Lemma check_device_step root b out d :
  Validator.check_device root (b, out) d
  = (b && fst (device_report root d), out ++ snd (device_report root d)).
Proof.
  destruct d as [device specs].
  unfold Validator.check_device, device_report.
  destruct (lookup_entry root device) as [[bytes decoded|device_dir]|].
  - cbn. rewrite andb_false_r, <- app_assoc. reflexivity.
  - destruct (_ <? _).
    + cbn. rewrite andb_false_r, <- app_assoc. reflexivity.
    + rewrite check_screenshot_fold. cbn [fst snd].
      rewrite <- app_assoc. reflexivity.
  - cbn. rewrite andb_false_r, <- app_assoc. reflexivity.
Qed.

Lemma check_device_fold root devices b out :
  fold_left (Validator.check_device root) devices (b, out)
  = (b && forallb fst (map (device_report root) devices),
     out ++ concat (map snd (map (device_report root) devices))).
Proof.
  revert b out. induction devices as [|d rest IH]; intros b out.
  - cbn. rewrite andb_true_r, app_nil_r. reflexivity.
  - cbn [fold_left map forallb concat]. rewrite check_device_step, IH.
    rewrite <- app_assoc, andb_assoc. reflexivity.
Qed.

Lemma validate_screenshots_assembled root :
  Validator.validate_screenshots (Some (Dir root)) = assembled_report root.
Proof.
  unfold Validator.validate_screenshots, assembled_report.
  rewrite check_device_fold. cbn [andb].
  destruct (forallb fst _); [|rewrite app_nil_r]; reflexivity.
Qed.

(** The verdict alone. *)
Lemma validate_screenshots_verdict root :
  fst (Validator.validate_screenshots (Some (Dir root)))
  = forallb (fun d => fst (device_report root d)) Validator.SCREENSHOT_SPECS.
Proof.
  rewrite validate_screenshots_assembled. unfold assembled_report. cbn [fst].
  rewrite forallb_through_map. reflexivity.
Qed.

(** C1, as the code has it.  For a device of the table whose directory
    exists, the report of [validate_screenshots] holds the section of that
    device: when the directory has fewer [.png] files than required, the
    section is the header and the short count, the verdict is a failure, and
    no file of the directory is dimension-checked; when it has enough, the
    section holds one status line for every present [.png] file, so a wrong
    file does not end the check of the others. *)
Theorem screenshot_count_gates_dimension_checks
    (root : list (string * node)) (device : string)
    (specs : Validator.screenshot_specs) (device_dir : list (string * node)) :
  In (device, specs) Validator.SCREENSHOT_SPECS ->
  lookup_entry root device = Some (Dir device_dir) ->
  let screenshots := Validator.png_files device_dir in
  let n := Z.of_nat (length screenshots) in
  let result := Validator.validate_screenshots (Some (Dir root)) in
  result = assembled_report root
  /\ (if n <? Validator.shot_count specs
      then device_report root (device, specs)
           = (false, [Validator.DeviceHeader device;
                      Validator.FoundScreenshots n (Validator.shot_count specs)])
           /\ fst result = false
      else snd (device_report root (device, specs))
           = Validator.DeviceHeader device
             :: map (shot_line specs device_dir) screenshots
           /\ forall s, In s screenshots ->
                exists l, In l (snd result) /\ status_of l = Some s).
Proof.
  intros Hin Hdir screenshots n result.
  split; [apply validate_screenshots_assembled|].
  assert (Hrep : In (device_report root (device, specs))
                   (map (device_report root) Validator.SCREENSHOT_SPECS))
    by (apply in_map; exact Hin).
  unfold device_report in *. rewrite Hdir in *.
  fold screenshots in Hrep |- *. fold n in Hrep |- *.
  destruct (n <? Validator.shot_count specs) eqn:Hshort.
  - split; [reflexivity|].
    subst result. rewrite validate_screenshots_verdict.
    apply not_true_is_false. intros Hall.
    rewrite forallb_forall in Hall. specialize (Hall _ Hin).
    unfold device_report in Hall. rewrite Hdir in Hall.
    fold screenshots in Hall. fold n in Hall. rewrite Hshort in Hall.
    discriminate.
  - split; [reflexivity|].
    intros s Hs. exists (shot_line specs device_dir s). split.
    + subst result. rewrite validate_screenshots_assembled.
      unfold assembled_report. cbn [snd].
      apply in_or_app. right. apply in_or_app. left.
      apply in_concat. eexists. split.
      * apply in_map. exact Hrep.
      * cbn [snd]. right. apply in_map. exact Hs.
    + unfold shot_line.
      destruct (Image_open (lookup_entry device_dir s)); [reflexivity|].
      destruct (shot_ok specs device_dir s); reflexivity.
Qed.

Lemma screenshot_count_gates_dimension_checks_witness :
  device_report four_of_six ("iphone_se", se_specs)
  = (false, [Validator.DeviceHeader "iphone_se"; Validator.FoundScreenshots 4 6])
  /\ exists l, In l (snd (Validator.validate_screenshots (Some (Dir one_wrong_root))))
              /\ status_of l = Some "6.png".
Proof.
  split.
  - refine (proj1 (proj2 (screenshot_count_gates_dimension_checks
              four_of_six "iphone_se" se_specs
              (shots ["1.png"; "2.png"; "3.png"; "4.png"] 750 1334) _ _))).
    + left. reflexivity.
    + reflexivity.
  - refine (proj2 (proj2 (screenshot_count_gates_dimension_checks
              one_wrong_root "ipad" ipad_specs
              (shots ["1.png"; "2.png"; "3.png"; "4.png"; "5.png"] 1640 2360
               ++ shots ["6.png"] 1024 768) _ _)) "6.png" _).
    + right. right. right. left. reflexivity.
    + reflexivity.
    + vm_compute. tauto.
Defined.

(** C1 as stated fails: with four correctly sized [.png] files in an
    existing iphone_se directory, no line of the report gives a dimension
    status for [1.png]. *)
Lemma short_directory_files_are_not_checked :
  ~ reports_every_present_file four_of_six.
Proof.
  intros H.
  destruct (H "iphone_se" se_specs
              (shots ["1.png"; "2.png"; "3.png"; "4.png"] 750 1334) "1.png")
    as [l [Hl Hstatus]].
  - left. reflexivity.
  - reflexivity.
  - left. reflexivity.
  - vm_compute in Hl.
    repeat (destruct Hl as [Hl|Hl]; [subst l; discriminate Hstatus|]).
    exact Hl.
Qed.

(** ** Directory listings *)

Lemma lookup_alter_entry f entries n n' :
  lookup_entry (alter_entry f entries n) n'
  = if String.eqb n n' then option_map f (lookup_entry entries n')
    else lookup_entry entries n'.
Proof.
  induction entries as [|[m x] rest IH]; cbn.
  - destruct (String.eqb n n'); reflexivity.
  - destruct (String.eqb_spec m n) as [->|Hmn]; cbn.
    + destruct (String.eqb_spec n n') as [->|Hnn]; reflexivity.
    + rewrite IH.
      destruct (String.eqb_spec m n') as [->|Hmn'];
        destruct (String.eqb_spec n n') as [->|Hnn]; try reflexivity.
      congruence.
Qed.

Lemma lookup_entry_app entries entries' f :
  lookup_entry (entries ++ entries') f
  = match lookup_entry entries f with
    | Some x => Some x
    | None => lookup_entry entries' f
    end.
Proof.
  induction entries as [|[m x] rest IH]; cbn; [reflexivity|].
  destruct (String.eqb m f); [reflexivity|exact IH].
Qed.

Lemma lookup_entry_listed entries f :
  In f (listdir entries) -> lookup_entry entries f <> None.
Proof.
  induction entries as [|[m x] rest IH]; cbn; [tauto|].
  intros [->|Hin].
  - rewrite String.eqb_refl. discriminate.
  - destruct (String.eqb m f); [discriminate|auto].
Qed.

Lemma lookup_entry_filter (p : string -> bool) entries f :
  p f = true ->
  lookup_entry (List.filter (fun e => p (fst e)) entries) f
  = lookup_entry entries f.
Proof.
  intros Hp. induction entries as [|[m x] rest IH]; cbn; [reflexivity|].
  destruct (String.eqb_spec m f) as [->|Hmf].
  - rewrite Hp. cbn. rewrite String.eqb_refl. reflexivity.
  - destruct (p m); cbn; [|exact IH].
    destruct (String.eqb_spec m f); [contradiction|exact IH].
Qed.

Lemma listdir_filter (p : string -> bool) entries :
  listdir (List.filter (fun e => p (fst e)) entries)
  = List.filter p (listdir entries).
Proof.
  unfold listdir.
  induction entries as [|[m x] rest IH]; cbn; [reflexivity|].
  destruct (p m); cbn; rewrite IH; reflexivity.
Qed.

Lemma filter_swap {A} (p q : A -> bool) (l : list A) :
  List.filter p (List.filter q l) = List.filter q (List.filter p l).
Proof.
  induction l as [|x rest IH]; cbn; [reflexivity|].
  destruct (p x) eqn:Hp, (q x) eqn:Hq; cbn; rewrite ?Hp, ?Hq, IH; reflexivity.
Qed.

Lemma filter_twice {A} (p : A -> bool) (l : list A) :
  List.filter p (List.filter p l) = List.filter p l.
Proof.
  induction l as [|x rest IH]; cbn; [reflexivity|].
  destruct (p x) eqn:Hp; cbn; rewrite ?Hp, IH; reflexivity.
Qed.

Lemma png_files_filter (p : string -> bool) entries :
  Validator.png_files (List.filter (fun e => p (fst e)) entries)
  = List.filter p (Validator.png_files entries).
Proof.
  unfold Validator.png_files. rewrite listdir_filter. apply filter_swap.
Qed.

Lemma png_files_app entries entries' :
  Validator.png_files (entries ++ entries')
  = Validator.png_files entries ++ Validator.png_files entries'.
Proof.
  unfold Validator.png_files, listdir. rewrite map_app. apply List.filter_app.
Qed.

Lemma png_files_listed entries f :
  In f (Validator.png_files entries) ->
  In f (listdir entries) /\ endswith f ".png" = true.
Proof.
  unfold Validator.png_files. intros H.
  exact (proj1 (List.filter_In _ _ _) H).
Qed.

Lemma filter_out_shorter (name : string) (l : list string) :
  In name l ->
  (length (List.filter (fun n => negb (String.eqb n name)) l) < length l)%nat.
Proof.
  induction l as [|x rest IH]; cbn; [tauto|].
  intros [->|Hin].
  - rewrite String.eqb_refl. cbn.
    pose proof (List.filter_length_le (fun n => negb (String.eqb n name)) rest).
    lia.
  - specialize (IH Hin). destruct (negb (String.eqb x name)); cbn; lia.
Qed.

Lemma shot_ok_same_lookup specs entries entries' f :
  lookup_entry entries' f = lookup_entry entries f ->
  shot_ok specs entries' f = shot_ok specs entries f.
Proof. unfold shot_ok. intros ->. reflexivity. Qed.

Lemma shot_line_same_lookup specs entries entries' f :
  lookup_entry entries' f = lookup_entry entries f ->
  shot_line specs entries' f = shot_line specs entries f.
Proof. unfold shot_line, shot_ok. intros ->. reflexivity. Qed.

(** The table names each device once. *)
Lemma specs_of_device_unique device specs specs' :
  In (device, specs) Validator.SCREENSHOT_SPECS ->
  In (device, specs') Validator.SCREENSHOT_SPECS ->
  specs = specs'.
Proof.
  cbn. intros H H'.
  repeat (destruct H as [H|H]; [inversion H; subst; clear H|]); try contradiction;
    repeat (destruct H' as [H'|H']; [inversion H'; subst; clear H'|]);
    try contradiction; try reflexivity.
Qed.

Lemma device_report_same_lookup root root' d :
  lookup_entry root' (fst d) = lookup_entry root (fst d) ->
  device_report root' d = device_report root d.
Proof. destruct d as [device specs]. unfold device_report. cbn. intros ->. reflexivity. Qed.

(** ** validate_screenshots reads [.png] names only *)

Lemma png_files_only_png entries :
  Validator.png_files
    (List.filter (fun e => endswith (fst e) ".png") entries)
  = Validator.png_files entries.
Proof.
  rewrite (png_files_filter (fun n => endswith n ".png")).
  unfold Validator.png_files. apply filter_twice.
Qed.

Lemma forallb_same_on {A} (f g : A -> bool) (l : list A) :
  (forall x, In x l -> f x = g x) -> forallb f l = forallb g l.
Proof.
  induction l as [|x rest IH]; cbn; [reflexivity|].
  intros H. rewrite (H x) by (left; reflexivity).
  rewrite IH by (intros y Hy; apply H; right; exact Hy). reflexivity.
Qed.

Lemma device_report_drop_other_files root d :
  device_report (drop_other_files root) d = device_report root d.
Proof.
  destruct d as [device specs]. unfold device_report.
  assert (Hlook : lookup_entry (drop_other_files root) device
                  = option_map only_png (lookup_entry root device)).
  { unfold drop_other_files.
    induction root as [|[m x] rest IH]; cbn; [reflexivity|].
    destruct (String.eqb m device); [reflexivity|exact IH]. }
  rewrite Hlook.
  destruct (lookup_entry root device) as [[bytes decoded|device_dir]|];
    cbn [option_map only_png]; try reflexivity.
  rewrite png_files_only_png.
  assert (Hsame : forall f, In f (Validator.png_files device_dir) ->
            lookup_entry
              (List.filter (fun e => endswith (fst e) ".png") device_dir) f
            = lookup_entry device_dir f).
  { intros f Hf. apply (lookup_entry_filter (fun n => endswith n ".png")).
    apply png_files_listed in Hf. tauto. }
  destruct (_ <? _); [reflexivity|].
  f_equal.
  - apply forallb_same_on. intros f Hf. apply shot_ok_same_lookup. auto.
  - f_equal. apply map_ext_in. intros f Hf. apply shot_line_same_lookup. auto.
Qed.

Lemma status_of_shot_line specs device_dir f :
  status_of (shot_line specs device_dir f) = Some f.
Proof.
  unfold shot_line.
  destruct (Image_open (lookup_entry device_dir f)); [reflexivity|].
  destruct (shot_ok specs device_dir f); reflexivity.
Qed.

(** C10.  [validate_screenshots] considers only the names that end in
    [.png]: deleting every other file from the device directories changes
    neither the verdict nor a single printed line (so such a file is not
    counted), and every dimension status in the report is about a name that
    ends in [.png] (so such a file is never dimension-checked). *)
Theorem only_png_names_are_considered (root : list (string * node)) :
  Validator.validate_screenshots (Some (Dir (drop_other_files root)))
  = Validator.validate_screenshots (Some (Dir root))
  /\ (forall l screenshot,
        In l (snd (Validator.validate_screenshots (Some (Dir root)))) ->
        status_of l = Some screenshot ->
        endswith screenshot ".png" = true).
Proof.
  split.
  - rewrite !validate_screenshots_assembled. unfold assembled_report.
    rewrite (map_ext _ _ (device_report_drop_other_files root)). reflexivity.
  - intros l screenshot Hl Hstatus.
    rewrite validate_screenshots_assembled in Hl. unfold assembled_report in Hl.
    cbn [snd] in Hl.
    apply in_app_or in Hl. destruct Hl as [Hl|Hl].
    { destruct Hl as [<-|[]]. discriminate. }
    apply in_app_or in Hl. destruct Hl as [Hl|Hl].
    2:{ destruct (forallb fst _); [destruct Hl as [<-|[]]; discriminate|destruct Hl]. }
    apply in_concat in Hl. destruct Hl as [section [Hsection Hl]].
    apply in_map_iff in Hsection. destruct Hsection as [report [<- Hreport]].
    apply in_map_iff in Hreport. destruct Hreport as [[device specs] [<- _]].
    unfold device_report in Hl.
    destruct (lookup_entry root device) as [[bytes decoded|device_dir]|].
    + destruct Hl as [<-|[<-|[]]]; discriminate.
    + destruct (_ <? _).
      * destruct Hl as [<-|[<-|[]]]; discriminate.
      * destruct Hl as [<-|Hl]; [discriminate|].
        apply in_map_iff in Hl. destruct Hl as [f [<- Hf]].
        rewrite status_of_shot_line in Hstatus. inversion Hstatus; subst.
        apply png_files_listed in Hf. tauto.
    + destruct Hl as [<-|[<-|[]]]; discriminate.
Qed.

(** ** validate_screenshots is monotonic in file presence *)

Lemma device_passes_after_add root device specs device_dir name bytes img :
  lookup_entry root device = Some (Dir device_dir) ->
  lookup_entry device_dir name = None ->
  PIL.size img = Validator.shot_size specs ->
  fst (device_report root (device, specs)) = true ->
  fst (device_report (add_file root device name (File bytes (Some img)))
         (device, specs)) = true.
Proof.
  intros Hdir Hfresh Hsize Hpass.
  unfold device_report, add_file in *.
  rewrite lookup_alter_entry, String.eqb_refl, Hdir.
  cbn [option_map add_to_dir]. rewrite Hdir in Hpass.
  rewrite png_files_app, length_app, forallb_app.
  destruct (Z.ltb_spec (Z.of_nat (length (Validator.png_files device_dir)))
              (Validator.shot_count specs)) as [Hshort|Henough];
    [discriminate Hpass|].
  cbn [fst] in Hpass.
  destruct (Z.ltb_spec
              (Z.of_nat (length (Validator.png_files device_dir)
                         + length (Validator.png_files
                                     [(name, File bytes (Some img))])))
              (Validator.shot_count specs)) as [Hshort'|_]; [lia|].
  cbn [fst]. apply andb_true_intro. split.
  - rewrite <- Hpass. apply forallb_same_on. intros f Hf.
    apply shot_ok_same_lookup. rewrite lookup_entry_app.
    apply png_files_listed in Hf. destruct Hf as [Hf _].
    apply lookup_entry_listed in Hf.
    destruct (lookup_entry device_dir f); [reflexivity|contradiction].
  - unfold Validator.png_files. cbn [listdir map fst List.filter].
    destruct (endswith name ".png"); [|reflexivity].
    cbn [forallb]. rewrite andb_true_r.
    unfold shot_ok. rewrite lookup_entry_app, Hfresh. cbn.
    rewrite String.eqb_refl. cbn. rewrite Hsize, !Z.eqb_refl. reflexivity.
Qed.

Lemma device_passed_before_remove root device specs device_dir name :
  lookup_entry root device = Some (Dir device_dir) ->
  required_file specs device_dir name ->
  fst (device_report (remove_file root device name) (device, specs)) = true ->
  fst (device_report root (device, specs)) = true.
Proof.
  intros Hdir [Hname Hrequired] Hpass.
  unfold device_report, remove_file in *.
  rewrite lookup_alter_entry, String.eqb_refl, Hdir in Hpass.
  cbn [option_map remove_from_dir] in Hpass. rewrite Hdir.
  rewrite (png_files_filter (fun n => negb (String.eqb n name))) in Hpass.
  pose proof (filter_out_shorter name _ Hname) as Hless.
  destruct (Z.ltb_spec
              (Z.of_nat (length (List.filter
                                   (fun n => negb (String.eqb n name))
                                   (Validator.png_files device_dir))))
              (Validator.shot_count specs)) as [Hshort|Henough];
    [discriminate Hpass|].
  cbn [fst] in Hpass.
  destruct (Z.ltb_spec (Z.of_nat (length (Validator.png_files device_dir)))
              (Validator.shot_count specs)) as [Hshort'|_]; [lia|].
  cbn [fst].
  destruct Hrequired as [Hok|Hneeded]; [|lia].
  apply forallb_forall. intros f Hf.
  destruct (String.eqb_spec f name) as [->|Hne]; [exact Hok|].
  rewrite forallb_forall in Hpass.
  rewrite <- (Hpass f).
  - symmetry. apply shot_ok_same_lookup.
    apply (lookup_entry_filter (fun n => negb (String.eqb n name))).
    apply negb_true_iff. apply String.eqb_neq. exact Hne.
  - apply List.filter_In. split; [exact Hf|].
    apply negb_true_iff. apply String.eqb_neq. exact Hne.
Qed.

(** C6.  The verdict of [validate_screenshots] is monotonic in file
    presence.  Adding to the directory of a device one more file that has
    exactly the resolution required for that device keeps a passing state
    passing.  Removing from a failing state a required file (a [.png] file
    of a device directory that has the required resolution, or that the
    directory needs to reach its required count) leaves it failing. *)
Theorem screenshot_verdict_is_monotonic
    (root : list (string * node)) (device : string)
    (specs : Validator.screenshot_specs) (device_dir : list (string * node)) :
  In (device, specs) Validator.SCREENSHOT_SPECS ->
  lookup_entry root device = Some (Dir device_dir) ->
  (forall name bytes img,
      lookup_entry device_dir name = None ->
      PIL.size img = Validator.shot_size specs ->
      fst (Validator.validate_screenshots (Some (Dir root))) = true ->
      fst (Validator.validate_screenshots
             (Some (Dir (add_file root device name (File bytes (Some img))))))
      = true)
  /\ (forall name,
        required_file specs device_dir name ->
        fst (Validator.validate_screenshots (Some (Dir root))) = false ->
        fst (Validator.validate_screenshots
               (Some (Dir (remove_file root device name))))
        = false).
Proof.
  intros Hin Hdir. split.
  - intros name bytes img Hfresh Hsize Hpass.
    rewrite validate_screenshots_verdict in *.
    rewrite forallb_forall in *. intros [device' specs'] Hin'.
    specialize (Hpass _ Hin').
    destruct (String.eqb_spec device device') as [<-|Hne].
    + rewrite (specs_of_device_unique _ _ _ Hin' Hin) in *.
      eapply device_passes_after_add; eassumption.
    + rewrite (device_report_same_lookup root); [exact Hpass|].
      unfold add_file. rewrite lookup_alter_entry. cbn [fst].
      destruct (String.eqb_spec device device'); [contradiction|reflexivity].
  - intros name Hrequired Hfail.
    rewrite validate_screenshots_verdict in *.
    apply not_true_is_false. intros Hpass.
    rewrite <- not_true_iff_false in Hfail. apply Hfail.
    rewrite forallb_forall in *. intros [device' specs'] Hin'.
    specialize (Hpass _ Hin').
    destruct (String.eqb_spec device device') as [<-|Hne].
    + rewrite (specs_of_device_unique _ _ _ Hin' Hin) in *.
      eapply device_passed_before_remove; eassumption.
    + rewrite (device_report_same_lookup root) in Hpass; [exact Hpass|].
      unfold remove_file. rewrite lookup_alter_entry. cbn [fst].
      destruct (String.eqb_spec device device'); [contradiction|reflexivity].
Qed.

Lemma screenshot_verdict_is_monotonic_witness :
  fst (Validator.validate_screenshots
         (Some (Dir (add_file complete_root "ipad" "7.png"
                       (File 200000 (Some (picture 1640 2360))))))) = true
  /\ fst (Validator.validate_screenshots
            (Some (Dir (remove_file one_wrong_root "ipad" "1.png")))) = false.
Proof.
  split.
  - refine (proj1 (screenshot_verdict_is_monotonic complete_root "ipad"
                     ipad_specs (shots six_names 1640 2360) _ _)
              "7.png" 200000 (picture 1640 2360) _ _ _).
    + right. right. right. left. reflexivity.
    + reflexivity.
    + reflexivity.
    + reflexivity.
    + vm_compute. reflexivity.
  - refine (proj2 (screenshot_verdict_is_monotonic one_wrong_root "ipad"
                     ipad_specs
                     (shots ["1.png"; "2.png"; "3.png"; "4.png"; "5.png"] 1640 2360
                      ++ shots ["6.png"] 1024 768) _ _)
              "1.png" _ _).
    + right. right. right. left. reflexivity.
    + reflexivity.
    + split; [vm_compute; tauto|left; vm_compute; reflexivity].
    + vm_compute. reflexivity.
Defined.

(** Why the removed file must be a required one: taking the one wrongly
    sized screenshot out of a directory that holds seven turns a failure
    into a pass. *)
Example removing_a_wrong_surplus_file_passes :
  let root := add_file complete_root "ipad" "7.png"
                (File 200000 (Some (picture 1024 768))) in
  fst (Validator.validate_screenshots (Some (Dir root))) = false
  /\ fst (Validator.validate_screenshots
            (Some (Dir (remove_file root "ipad" "7.png")))) = true.
Proof. vm_compute. split; reflexivity. Qed.

Lemma only_png_names_are_considered_witness :
  endswith "6.png" ".png" = true.
Proof.
  refine (proj2 (only_png_names_are_considered one_wrong_root)
            (Validator.ShotWrongSize "6.png" 1024 768 1640 2360) "6.png" _ _).
  - vm_compute. tauto.
  - reflexivity.
Defined.

(** ** Pillow operations: sizes and modes *)

Lemma new_ok m sz c :
  0 <= fst sz -> 0 <= snd sz ->
  PIL.new m sz c = Ok (PIL.Image sz m None (PIL.Blank c)).
Proof.
  intros Hw Hh. unfold PIL.new.
  destruct (Z.ltb_spec (fst sz) 0); [lia|].
  destruct (Z.ltb_spec (snd sz) 0); [lia|]. reflexivity.
Qed.

Lemma new_inv m sz c r :
  PIL.new m sz c = Ok r -> r = PIL.Image sz m None (PIL.Blank c).
Proof.
  unfold PIL.new. destruct (_ || _); [discriminate|].
  intros H. inversion H. reflexivity.
Qed.

Lemma same_size_of_eq a b : PIL.size a = PIL.size b -> PIL.same_size a b = true.
Proof. unfold PIL.same_size. intros ->. rewrite !Z.eqb_refl. reflexivity. Qed.

Lemma alpha_composite_ok a b :
  PIL.mode a = "RGBA" -> PIL.mode b = "RGBA" -> PIL.size a = PIL.size b ->
  PIL.alpha_composite a b
  = Ok (PIL.Image (PIL.size a) "RGBA" None
          (PIL.AlphaComposited (PIL.data a) (PIL.data b))).
Proof.
  intros Ha Hb Hsize. unfold PIL.alpha_composite.
  rewrite Ha, Hb, (same_size_of_eq _ _ Hsize). reflexivity.
Qed.

Lemma alpha_composite_inv a b r :
  PIL.alpha_composite a b = Ok r ->
  r = PIL.Image (PIL.size a) "RGBA" None
        (PIL.AlphaComposited (PIL.data a) (PIL.data b)).
Proof.
  unfold PIL.alpha_composite.
  destruct (_ || _); [discriminate|].
  destruct (negb _); [discriminate|].
  intros H. inversion H. reflexivity.
Qed.

(** ** The caption overlay *)

Lemma add_caption_keeps_size env img text device_name result :
  Screenshots.add_caption env img text device_name = Ok result ->
  PIL.size result = PIL.size img.
Proof.
  unfold Screenshots.add_caption.
  destruct (PIL.size img) as [width height] eqn:Hsize.
  destruct (PIL.new "RGBA" (width, height) [0; 0; 0; 0]) as [overlay| |] eqn:Hnew;
    cbn [Py.bind]; try discriminate.
  destruct (Screenshots.textbbox env _ text) as [[[bbox0 bbox1] bbox2] bbox3].
  destruct (PIL.alpha_composite _ _) as [composed| |] eqn:Hcomp;
    cbn [Py.bind]; try discriminate.
  intros H. inversion H; subst result.
  apply alpha_composite_inv in Hcomp. subst composed. cbn. exact Hsize.
Qed.



(** ** The screenshot post-processor keeps the size of its input *)

Lemma load_inv img img' : PIL.load img = Ok img' -> img' = img.
Proof.
  unfold PIL.load. destruct (PIL.loads img); [|discriminate].
  intros E. inversion E. reflexivity.
Qed.

Lemma save_at_stored st target img stored st' :
  Png.save_at st target img = inr (stored, st') -> stored = Png.saved img.
Proof.
  unfold Png.save_at. destruct (Posix.created st target _); [discriminate|].
  unfold Png.save. destruct (Png.writable (PIL.mode img)); [|discriminate].
  intros E. inversion E. reflexivity.
Qed.

Lemma save_to_stored fs path img stored fs' :
  Png.save_to fs path img = inr (stored, fs') -> stored = Png.saved img.
Proof.
  unfold Png.save_to, Png.keep_cwd.
  destruct (Png.save_at _ _ _) as [e|[stored0 st]] eqn:Hsave; [discriminate|].
  intros E. inversion E; subst. eapply save_at_stored. exact Hsave.
Qed.

Lemma process_screenshot_keeps_size env fs source output_path caption_text
    device_name stored fs' :
  Screenshots.process_screenshot env fs source output_path caption_text
    device_name = Ok (stored, fs') ->
  exists src, Image_open source = inr src /\ PIL.size stored = PIL.size src.
Proof.
  unfold Screenshots.process_screenshot.
  destruct (Image_open source) as [e|src]; cbn [lift Py.bind]; [discriminate|].
  intros H. exists src. split; [reflexivity|].
  destruct (PIL.load src) as [loaded| |] eqn:Hload; cbn [Py.bind] in H;
    try discriminate.
  apply load_inv in Hload. subst loaded.
  assert (Hcap : forall img,
             match caption_text with
             | Some text =>
                 if String.eqb text "" then Ok src
                 else Screenshots.add_caption env src text device_name
             | None => Ok src
             end = Ok img -> PIL.size img = PIL.size src).
  { intros img. destruct caption_text as [text|].
    - destruct (String.eqb text "").
      + intros E. inversion E. reflexivity.
      + apply add_caption_keeps_size.
    - intros E. inversion E. reflexivity. }
  destruct (match caption_text with Some _ => _ | None => _ end) as [img| |];
    cbn [Py.bind] in H; try discriminate.
  specialize (Hcap img eq_refl).
  destruct (Png.save_to fs output_path img) as [e|[stored0 fs0]] eqn:Hsave;
    cbn [lift] in H; [discriminate|].
  inversion H; subst stored0 fs0.
  apply save_to_stored in Hsave. subst stored. cbn. exact Hcap.
Qed.

Lemma process_all_made_from env fs input_dir output_dir specs add_captions
    indices written :
  (forall i, In i indices -> In i [1; 2; 3; 4; 5; 6]) ->
  Forall (made_from input_dir specs) written ->
  Forall (made_from input_dir specs)
    (fst (Screenshots.process_all env fs input_dir output_dir specs add_captions
            indices written)).
Proof.
  revert fs written.
  induction indices as [|i rest IH]; intros fs written Hidx Hwritten.
  - exact Hwritten.
  - cbn [Screenshots.process_all].
    assert (Hrest : forall j, In j rest -> In j [1; 2; 3; 4; 5; 6])
      by (intros j Hj; apply Hidx; right; exact Hj).
    destruct (Screenshots.process_index env fs input_dir output_dir specs
                add_captions i)
      as [[[w|] fs1]|e|code] eqn:Hstep; try exact Hwritten.
    + apply IH; [exact Hrest|].
      apply Forall_app. split; [exact Hwritten|].
      constructor; [|constructor].
      unfold Screenshots.process_index in Hstep.
      destruct (Screenshots.find_input input_dir (Screenshots.input_files i))
        as [filename|] eqn:Hfind; [|discriminate].
      destruct (Screenshots.title i) as [e|t] eqn:Htitle;
        cbn [lift Py.bind] in Hstep; [discriminate|].
      destruct (if add_captions then _ else _) as [caption_text| |];
        cbn [Py.bind] in Hstep; try discriminate.
      destruct (Screenshots.process_screenshot _ _ _ _ _ _)
        as [[stored fs2]| |] eqn:Hproc;
        cbn [Py.bind fst snd] in Hstep; try discriminate.
      inversion Hstep; subst w fs1.
      apply process_screenshot_keeps_size in Hproc.
      destruct Hproc as [src [Hopen Hsize]].
      exists i, filename, src, t. cbn [fst snd].
      repeat split; try assumption. apply Hidx. left. reflexivity.
    + apply IH; assumption.
Qed.

(** C2, as the code has it.  For a known device, every file written by
    [batch_process] (also in a run that a later screenshot aborts) carries
    the output name of the raw screenshot it was made from, a name that
    spells the export resolution of the device, and has exactly the pixel
    dimensions of that raw screenshot: the pictures are captioned and
    renamed, not resized. *)
Theorem batch_process_keeps_input_dimensions
    (env : Screenshots.typography) (fs : Posix.filesystem)
    (input_dir : list (string * node))
    (output_dir device_type : string) (specs : Screenshots.device_specs)
    (add_captions : bool) :
  Screenshots.get Screenshots.DEVICE_SPECS device_type = Some specs ->
  Forall (made_from input_dir specs)
    (fst (Screenshots.batch_process env fs input_dir output_dir device_type
            add_captions)).
Proof.
  intros Hspecs. unfold Screenshots.batch_process. rewrite Hspecs.
  destruct (Posix.makedirs fs output_dir) as [e|fs1]; [constructor|].
  apply process_all_made_from; [auto|constructor].
Qed.

Lemma batch_process_keeps_input_dimensions_witness :
  Forall (made_from raw_dir iphone_15_specs)
    [ ("1_FORGET_LESS_1179x2556.png",
       Png.saved
         (PIL.convert
            (PIL.Image (1170, 2532) "RGBA" None
               (PIL.AlphaComposited
                  (PIL.Converted "RGBA" (PIL.Decoded 0))
                  (PIL.Drawn (PIL.Text 285 2088 "Tired of forgetting what you learn?"
                                PIL.DefaultFont)
                     [255; 255; 255; 255]
                     (PIL.Drawn (PIL.Rectangle 0 1899 1170 2532) [0; 0; 0; 153]
                        (PIL.Blank [0; 0; 0; 0])))))
            "RGB")) ].
Proof.
  assert (Hrun :
    fst (Screenshots.batch_process plain_typography workdir raw_dir
           "processed/iphone_15" "iphone_15" true)
    = [ ("1_FORGET_LESS_1179x2556.png",
         Png.saved
           (PIL.convert
              (PIL.Image (1170, 2532) "RGBA" None
                 (PIL.AlphaComposited
                    (PIL.Converted "RGBA" (PIL.Decoded 0))
                    (PIL.Drawn (PIL.Text 285 2088
                                  "Tired of forgetting what you learn?"
                                  PIL.DefaultFont)
                       [255; 255; 255; 255]
                       (PIL.Drawn (PIL.Rectangle 0 1899 1170 2532) [0; 0; 0; 153]
                          (PIL.Blank [0; 0; 0; 0])))))
              "RGB")) ]) by (vm_compute; reflexivity).
  rewrite <- Hrun.
  apply (batch_process_keeps_input_dimensions plain_typography workdir raw_dir
           "processed/iphone_15" "iphone_15" iphone_15_specs true).
  reflexivity.
Defined.

(** C2 as stated fails: a raw capture of 1170 by 2532 processed for
    iphone_15 is written with 1170 by 2532 pixels, not 1179 by 2556. *)
Lemma outputs_are_not_resized :
  ~ outputs_have_export_size plain_typography workdir raw_dir
      "processed/iphone_15" "iphone_15" true.
Proof.
  intros H.
  specialize (H iphone_15_specs eq_refl).
  vm_compute in H.
  inversion H as [|w rest Hsize _]. discriminate Hsize.
Qed.

(** ** Paths and their resolution *)

Lemma append_cons c (a b : string) : String c a +:+ b = String c (a +:+ b).
Proof. reflexivity. Qed.

Lemma append_empty (b : string) : "" +:+ b = b.
Proof. reflexivity. Qed.

Lemma components_nonempty s : Posix.components s <> [].
Proof.
  destruct s as [|c s]; cbn; [discriminate|].
  destruct (Ascii.eqb c "/"); [discriminate|].
  destruct (Posix.components s); discriminate.
Qed.

Lemma components_app_slash a b :
  Posix.components (a +:+ String "/" b)
  = Posix.components a ++ Posix.components b.
Proof.
  induction a as [|c a IH]; [reflexivity|].
  rewrite append_cons. cbn [Posix.components]. rewrite IH.
  destruct (Ascii.eqb c "/"); [reflexivity|].
  pose proof (components_nonempty a) as Hne.
  destruct (Posix.components a) as [|first others]; [contradiction|].
  reflexivity.
Qed.

Lemma no_slash_app a b : no_slash (a +:+ b) = no_slash a && no_slash b.
Proof.
  induction a as [|c a IH]; [reflexivity|].
  rewrite append_cons. cbn [no_slash]. rewrite IH. apply andb_assoc.
Qed.

Lemma components_no_slash n : no_slash n = true -> Posix.components n = [n].
Proof.
  induction n as [|c n IH]; [reflexivity|].
  cbn [no_slash Posix.components]. intros H.
  apply andb_true_iff in H. destruct H as [Hc Hn].
  apply negb_true_iff in Hc. rewrite Hc, (IH Hn). reflexivity.
Qed.

Lemma substring_last c s :
  exists a last,
    String c s = a +:+ String last ""
    /\ substring (String.length s) 1 (String c s) = String last "".
Proof.
  revert c. induction s as [|c' s IH]; intros c.
  - exists "", c. split; reflexivity.
  - destruct (IH c') as (a & last & Hs & Hsub).
    exists (String c a), last. split.
    + rewrite append_cons, <- Hs. reflexivity.
    + cbn [String.length substring]. exact Hsub.
Qed.

Lemma endswith_slash d : endswith d "/" = true -> exists a, d = a +:+ "/".
Proof.
  unfold endswith. destruct d as [|c s]; [discriminate|].
  cbn [String.length]. rewrite andb_true_iff. intros [_ H].
  replace (S (String.length s) - 1)%nat with (String.length s) in H by lia.
  destruct (substring_last c s) as (a & last & Hs & Hsub).
  rewrite Hsub in H. apply String.eqb_eq in H. inversion H; subst.
  exists a. exact Hs.
Qed.

Lemma append_associative (a b c : string) : (a +:+ b) +:+ c = a +:+ (b +:+ c).
Proof.
  induction a as [|x a IH]; [reflexivity|].
  rewrite !append_cons, IH. reflexivity.
Qed.

Lemma prefix_empty s : String.prefix "" s = true.
Proof. destruct s; reflexivity. Qed.

Lemma prefix_slash_app d x :
  d <> "" -> String.prefix "/" (d +:+ x) = String.prefix "/" d.
Proof.
  destruct d as [|c d]; [contradiction|]. intros _.
  rewrite append_cons. cbn [String.prefix].
  destruct (ascii_dec "/" c); [|reflexivity].
  rewrite !prefix_empty. reflexivity.
Qed.

Lemma prefix_slash_same a x y :
  String.prefix "/" (a +:+ String "/" x) = String.prefix "/" (a +:+ String "/" y).
Proof.
  destruct a as [|c a]; rewrite ?append_cons, ?append_empty;
    cbn [String.prefix]; destruct (ascii_dec "/" _); rewrite ?prefix_empty;
    reflexivity.
Qed.

Lemma append_not_empty d x : d <> "" -> String.eqb (d +:+ x) "" = false.
Proof.
  destruct d as [|c d]; [contradiction|]. intros _.
  rewrite append_cons. reflexivity.
Qed.

Lemma is_dir_entry st loc :
  Posix.is_dir st loc = true <-> Posix.entry_at st loc = Some Posix.Directory.
Proof.
  unfold Posix.is_dir. destruct (Posix.entry_at st loc) as [[decoded|]|];
    split; congruence.
Qed.

Lemma walk_app st loc xs ys :
  Posix.walk st loc (xs ++ ys)
  = match Posix.walk st loc xs with
    | inr reached => Posix.walk st reached ys
    | inl e => inl e
    end.
Proof.
  revert loc. induction xs as [|x xs IH]; intros loc; [reflexivity|].
  cbn [app Posix.walk].
  destruct (Posix.entry_at st loc) as [[decoded|]|]; try reflexivity.
  destruct (Posix.stays x); [apply IH|].
  destruct (String.eqb x ".."); apply IH.
Qed.

Lemma walk_plain st loc n :
  Posix.is_dir st loc = true -> plain n = true ->
  Posix.walk st loc [n] = inr (loc ++ [n]).
Proof.
  intros Hdir Hplain. apply is_dir_entry in Hdir.
  unfold plain in Hplain. rewrite !andb_true_iff, !negb_true_iff in Hplain.
  destruct Hplain as [[_ Hstays] Hup].
  cbn [Posix.walk]. rewrite Hdir, Hstays, Hup. reflexivity.
Qed.

Lemma plain_not_absolute n : plain n = true -> String.prefix "/" n = false.
Proof.
  unfold plain. destruct n as [|c n]; [reflexivity|].
  cbn [no_slash]. rewrite !andb_true_iff, negb_true_iff.
  intros [[[Hc _] _] _]. cbn [String.prefix].
  destruct (ascii_dec "/" c) as [<-|Hne]; [discriminate|reflexivity].
Qed.

Lemma plain_components n : plain n = true -> Posix.components n = [n].
Proof.
  unfold plain. rewrite !andb_true_iff. intros [[H _] _].
  apply components_no_slash. exact H.
Qed.

(** A plain name joined to a directory is resolved to the entry of that
    name in the directory. *)
Lemma resolve_join fs d D n :
  Posix.resolve fs d = inr D ->
  Posix.is_dir (Posix.store fs) D = true ->
  plain n = true ->
  Posix.resolve fs (path_join d n) = inr (D ++ [n]).
Proof.
  intros Hd Hdir Hplain. unfold Posix.resolve in *.
  destruct (String.eqb_spec d "") as [->|Hne]; [discriminate|].
  unfold path_join. rewrite (plain_not_absolute n Hplain).
  destruct (String.eqb_spec d "") as [E|_]; [contradiction|].
  destruct (endswith d "/") eqn:Hend.
  - destruct (endswith_slash d Hend) as [a ->].
    rewrite append_associative, append_cons, append_empty.
    assert (Hfull : String.eqb (a +:+ String "/" n) "" = false)
      by (destruct a; reflexivity).
    rewrite Hfull.
    change ("/") with (String "/"%char "") in Hd.
    rewrite components_app_slash in Hd. rewrite components_app_slash.
    rewrite (plain_components n Hplain).
    rewrite (prefix_slash_same a n "").
    rewrite walk_app in Hd. rewrite walk_app.
    destruct (Posix.walk _ _ (Posix.components a)) as [e|reached];
      [discriminate|].
    cbn [Posix.components Posix.walk] in Hd.
    destruct (Posix.entry_at (Posix.store fs) reached) as [[decoded|]|] eqn:Hat;
      try discriminate.
    cbn [Posix.stays String.eqb orb] in Hd. inversion Hd; subst reached.
    apply walk_plain; assumption.
  - rewrite append_not_empty by exact Hne.
    rewrite prefix_slash_app by exact Hne.
    rewrite append_cons, append_empty, components_app_slash.
    rewrite (plain_components n Hplain), walk_app, Hd.
    apply walk_plain; assumption.
Qed.

(** ** Tables: what a write and a new directory change *)

Lemma walk_same_directories st st' loc names reached :
  same_directories st st' ->
  Posix.walk st loc names = inr reached ->
  Posix.walk st' loc names = inr reached.
Proof.
  intros Hsame. revert loc. induction names as [|name rest IH]; intros loc;
    [auto|].
  cbn [Posix.walk].
  destruct (Posix.entry_at st loc) as [[decoded|]|] eqn:Hat; try discriminate.
  apply is_dir_entry in Hat. rewrite Hsame in Hat. apply is_dir_entry in Hat.
  rewrite Hat.
  destruct (Posix.stays name); [apply IH|].
  destruct (String.eqb name ".."); apply IH.
Qed.

Lemma same_directories_sym st st' :
  same_directories st st' -> same_directories st' st.
Proof. intros H loc. symmetry. apply H. Qed.

Lemma same_directories_trans st st' st'' :
  same_directories st st' -> same_directories st' st'' ->
  same_directories st st''.
Proof. intros H H' loc. rewrite H. apply H'. Qed.

Lemma created_inv st loc content st' :
  Posix.created st (inr loc) content = inr st' ->
  Posix.is_dir st loc = false
  /\ st' = <[loc := Posix.RegularFile content]> st.
Proof.
  unfold Posix.created, Posix.is_dir.
  destruct (Posix.entry_at st loc) as [[decoded|]|]; try discriminate;
    destruct (match Posix.entry_at st (removelast loc) with
              | Some Posix.Directory => true
              | _ => false
              end); try discriminate;
    intros E; inversion E; auto.
Qed.

Lemma created_ok st loc content :
  Posix.is_dir st loc = false ->
  Posix.is_dir st (removelast loc) = true ->
  Posix.created st (inr loc) content
  = inr (<[loc := Posix.RegularFile content]> st).
Proof.
  unfold Posix.created. intros Hfile ->. unfold Posix.is_dir in Hfile.
  destruct (Posix.entry_at st loc) as [[decoded|]|]; try reflexivity.
  discriminate.
Qed.

Lemma insert_file_same_directories st loc content :
  Posix.is_dir st loc = false ->
  same_directories st (<[loc := Posix.RegularFile content]> st).
Proof.
  intros Hfile other. unfold Posix.is_dir, Posix.entry_at in *.
  destruct other as [|name rest]; [reflexivity|].
  destruct (decide (loc = name :: rest)) as [->|Hne].
  - rewrite lookup_insert_eq. exact Hfile.
  - rewrite lookup_insert_ne by exact Hne. reflexivity.
Qed.



(** What a successful save has done. *)
Lemma save_at_inv st loc img stored st' :
  Png.save_at st (inr loc) img = inr (stored, st') ->
  stored = Png.saved img
  /\ Png.writable (PIL.mode img) = true
  /\ Posix.is_dir st loc = false
  /\ st' = <[loc := Posix.RegularFile (Some stored)]> st.
Proof.
  unfold Png.save_at.
  destruct (Posix.created st (inr loc) _) as [e|st1] eqn:Hcreated;
    [discriminate|].
  apply created_inv in Hcreated. destruct Hcreated as [Hfile ->].
  unfold Png.save. destruct (Png.writable (PIL.mode img)); [|discriminate].
  intros E. inversion E; subst. auto.
Qed.

Lemma save_at_ok st loc img :
  Png.writable (PIL.mode img) = true ->
  Posix.is_dir st loc = false ->
  Posix.is_dir st (removelast loc) = true ->
  Png.save_at st (inr loc) img
  = inr (Png.saved img, <[loc := Posix.RegularFile (Some (Png.saved img))]> st).
Proof.
  intros Hmode Hfile Hparent. unfold Png.save_at.
  rewrite (created_ok _ _ _ Hfile Hparent).
  unfold Png.save. rewrite Hmode. reflexivity.
Qed.

Lemma save_to_inv fs path img stored fs' :
  Png.save_to fs path img = inr (stored, fs') ->
  exists loc,
    Posix.resolve fs path = inr loc
    /\ stored = Png.saved img
    /\ Png.writable (PIL.mode img) = true
    /\ Posix.is_dir (Posix.store fs) loc = false
    /\ Posix.cwd fs' = Posix.cwd fs
    /\ Posix.store fs'
       = <[loc := Posix.RegularFile (Some stored)]> (Posix.store fs).
Proof.
  unfold Png.save_to, Png.keep_cwd.
  destruct (Posix.resolve fs path) as [e|loc] eqn:Hresolve.
  - cbn. discriminate.
  - destruct (Png.save_at _ _ _) as [e|[stored0 st]] eqn:Hsave; [discriminate|].
    intros E. inversion E; subst.
    apply save_at_inv in Hsave. destruct Hsave as (-> & Hmode & Hfile & ->).
    exists loc. cbn. auto 10.
Qed.

Lemma extends_refl st : extends st st.
Proof. split; auto. Qed.

Lemma extends_trans st st' st'' :
  extends st st' -> extends st' st'' -> extends st st''.
Proof.
  intros [Hkeep Hnew] [Hkeep' Hnew']. split.
  - auto.
  - intros loc e H. destruct (Hnew' loc e H) as [H'|[H' ->]].
    + apply Hnew. exact H'.
    + right. split; [|reflexivity].
      destruct (st !! loc) as [e0|] eqn:Hat; [|reflexivity].
      apply Hkeep in Hat. congruence.
Qed.

Lemma extends_new_directory st loc :
  st !! loc = None -> extends st (<[loc := Posix.Directory]> st).
Proof.
  intros Hnone. split.
  - intros other e H. rewrite lookup_insert_ne; [exact H|]. congruence.
  - intros other e H. destruct (decide (loc = other)) as [->|Hne].
    + rewrite lookup_insert_eq in H. inversion H. auto.
    + rewrite lookup_insert_ne in H by exact Hne. auto.
Qed.

Lemma extends_entry_at st st' loc e :
  extends st st' -> Posix.entry_at st loc = Some e ->
  Posix.entry_at st' loc = Some e.
Proof.
  intros [Hkeep _]. destruct loc as [|name rest]; [auto|apply Hkeep].
Qed.

Lemma walk_extends st st' loc names reached :
  extends st st' ->
  Posix.walk st loc names = inr reached ->
  Posix.walk st' loc names = inr reached.
Proof.
  intros Hext. revert loc. induction names as [|name rest IH]; intros loc;
    [auto|].
  cbn [Posix.walk].
  destruct (Posix.entry_at st loc) as [[decoded|]|] eqn:Hat; try discriminate.
  rewrite (extends_entry_at _ _ _ _ Hext Hat).
  destruct (Posix.stays name); [apply IH|].
  destruct (String.eqb name ".."); apply IH.
Qed.

(** What making the directories along a path has done: the path now leads
    to a directory, and the table has only gained directories. *)
Lemma make_along_inv names :
  forall st loc st',
    Posix.make_along st loc names = inr st' ->
    extends st st'
    /\ exists reached,
         Posix.walk st' loc names = inr reached
         /\ Posix.is_dir st' reached = true.
Proof.
  induction names as [|name rest IH]; intros st loc st'; cbn [Posix.make_along].
  - destruct (Posix.entry_at st loc) as [[decoded|]|] eqn:Hat; try discriminate.
    intros E. inversion E; subst. split; [apply extends_refl|].
    exists loc. split; [reflexivity|]. apply is_dir_entry. exact Hat.
  - destruct (Posix.entry_at st loc) as [[decoded|]|] eqn:Hat; try discriminate.
    assert (Hstep : forall st1 next,
               extends st st1 ->
               Posix.make_along st1 next rest = inr st' ->
               extends st st'
               /\ exists reached,
                    Posix.walk st' next rest = inr reached
                    /\ Posix.is_dir st' reached = true).
    { intros st1 next Hext Hrun. apply IH in Hrun.
      destruct Hrun as [Hext' Hreached].
      split; [eapply extends_trans; eassumption|exact Hreached]. }
    cbn [Posix.walk].
    destruct (Posix.stays name) eqn:Hstays;
      [|destruct (String.eqb name "..") eqn:Hup;
        [|destruct (st !! (loc ++ [name])) as [e|] eqn:Hnext]];
      intros Hrun;
      [apply (Hstep st loc (extends_refl st)) in Hrun
      |apply (Hstep st (removelast loc) (extends_refl st)) in Hrun
      |apply (Hstep st (loc ++ [name]) (extends_refl st)) in Hrun
      |apply (Hstep _ (loc ++ [name]) (extends_new_directory st _ Hnext)) in Hrun];
      destruct Hrun as [Hext Hreached];
      (split; [exact Hext|]);
      rewrite (extends_entry_at _ _ _ _ Hext Hat), ?Hstays, ?Hup;
      exact Hreached.
Qed.

Lemma makedirs_inv fs path fs' :
  Posix.makedirs fs path = inr fs' ->
  Posix.cwd fs' = Posix.cwd fs
  /\ extends (Posix.store fs) (Posix.store fs')
  /\ exists dir,
       Posix.resolve fs' path = inr dir
       /\ Posix.is_dir (Posix.store fs') dir = true.
Proof.
  unfold Posix.makedirs, Posix.resolve.
  destruct (String.eqb path ""); [discriminate|].
  destruct (Posix.make_along _ _ _) as [e|st] eqn:Hrun; [discriminate|].
  intros E. inversion E; subst. cbn [Posix.cwd Posix.store].
  apply make_along_inv in Hrun. destruct Hrun as [Hext Hreached].
  split; [reflexivity|]. split; [exact Hext|exact Hreached].
Qed.

Lemma path_mkdir_inv fs p fs' :
  Posix.path_mkdir fs p = inr fs' ->
  Posix.cwd fs' = Posix.cwd fs
  /\ extends (Posix.store fs) (Posix.store fs')
  /\ exists dir,
       Posix.locate fs' p = inr dir
       /\ Posix.is_dir (Posix.store fs') dir = true.
Proof.
  unfold Posix.path_mkdir, Posix.locate.
  destruct (Posix.make_along _ _ _) as [e|st] eqn:Hrun; [discriminate|].
  intros E. inversion E; subst. cbn [Posix.cwd Posix.store].
  apply make_along_inv in Hrun. destruct Hrun as [Hext Hreached].
  split; [reflexivity|]. split; [exact Hext|exact Hreached].
Qed.
(** ** The icon variants *)

Lemma resize_ok im w h :
  1 <= w -> 1 <= h ->
  PIL.resize im (w, h)
  = Ok (PIL.Image (w, h) (PIL.mode im) None (PIL.Resampled w h (PIL.data im))).
Proof.
  intros Hw Hh. unfold PIL.resize. cbn [fst snd].
  destruct (Z.ltb_spec w 1); [lia|].
  destruct (Z.ltb_spec h 1); [lia|]. reflexivity.
Qed.

Lemma resize_inv im w h resized :
  PIL.resize im (w, h) = Ok resized ->
  resized
  = PIL.Image (w, h) (PIL.mode im) None (PIL.Resampled w h (PIL.data im)).
Proof.
  unfold PIL.resize. destruct (_ || _); [discriminate|].
  intros E. inversion E. reflexivity.
Qed.

Lemma save_ok img :
  Png.writable (PIL.mode img) = true -> Png.save img = inr (Png.saved img).
Proof. unfold Png.save. intros ->. reflexivity. Qed.

Lemma load_ok img : PIL.loads img = true -> PIL.load img = Ok img.
Proof. unfold PIL.load. intros ->. reflexivity. Qed.

Lemma resolve_same_directories fs fs' path loc :
  Posix.cwd fs' = Posix.cwd fs ->
  same_directories (Posix.store fs) (Posix.store fs') ->
  Posix.resolve fs path = inr loc -> Posix.resolve fs' path = inr loc.
Proof.
  intros Hcwd Hsame. unfold Posix.resolve, Posix.origin. rewrite Hcwd.
  destruct (String.eqb path ""); [auto|].
  apply walk_same_directories. exact Hsame.
Qed.

Lemma put_all_other files st loc :
  ~ In loc (map fst files) -> put_all files st !! loc = st !! loc.
Proof.
  unfold put_all. revert st.
  induction files as [|[other img] rest IH]; intros st Hnotin; [reflexivity|].
  cbn [fold_left map fst snd] in *.
  rewrite IH by (intros H; apply Hnotin; right; exact H).
  apply lookup_insert_ne. intros ->. apply Hnotin. left. reflexivity.
Qed.

Lemma put_all_written files st loc img :
  List.NoDup (map fst files) ->
  In (loc, img) files ->
  put_all files st !! loc = Some (Posix.RegularFile (Some img)).
Proof.
  unfold put_all. revert st.
  induction files as [|[other img'] rest IH]; intros st Hnodup Hin;
    [destruct Hin|].
  cbn [fold_left map fst snd] in *.
  inversion Hnodup as [|? ? Hnotin Hrest]; subst.
  destruct Hin as [E|Hin].
  - inversion E; subst.
    fold (put_all rest (<[loc := Posix.RegularFile (Some img)]> st)).
    rewrite put_all_other by exact Hnotin. apply lookup_insert_eq.
  - apply IH; assumption.
Qed.

Lemma put_all_same_directories files st :
  Forall (fun f => Posix.is_dir st (fst f) = false) files ->
  same_directories st (put_all files st).
Proof.
  unfold put_all. revert st.
  induction files as [|[loc img] rest IH]; intros st Hfiles; [intros l; reflexivity|].
  inversion Hfiles as [|? ? Hfile Hrest]; subst. cbn [fold_left fst snd] in *.
  pose proof (insert_file_same_directories st loc (Some img) Hfile) as Hsame.
  eapply same_directories_trans; [exact Hsame|].
  apply IH. eapply List.Forall_impl; [|exact Hrest].
  intros f Hf. cbn beta in *. rewrite <- Hsame. exact Hf.
Qed.

(** One turn of the loop of [generate_variants]. *)
Lemma generate_one_inv master output_dir suffix generated fs row generated' fs' :
  IconVariants.generate_one master output_dir suffix (generated, fs) row
  = Ok (generated', fs') ->
  exists loc,
    PIL.loads master = true
    /\ Png.writable (PIL.mode master) = true
    /\ Posix.resolve fs (variant_path output_dir suffix row) = inr loc
    /\ Posix.is_dir (Posix.store fs) loc = false
    /\ generated'
       = generated ++ [(variant_path output_dir suffix row,
                        stored_variant master (fst (fst (fst row))))]
    /\ Posix.cwd fs' = Posix.cwd fs
    /\ Posix.store fs'
       = <[loc := Posix.RegularFile
                    (Some (stored_variant master (fst (fst (fst row)))))]>
           (Posix.store fs).
Proof.
  destruct row as [[[export_size display_size] scale] filename].
  unfold IconVariants.generate_one, variant_path. cbn [fst snd].
  unfold PIL.load. destruct (PIL.loads master); cbn [Py.bind]; [|discriminate].
  destruct (PIL.resize master (export_size, export_size)) as [resized| |] eqn:Hresize;
    cbn [Py.bind]; try discriminate.
  apply resize_inv in Hresize. subst resized.
  destruct (Png.save_to fs _ _) as [e|[stored fs1]] eqn:Hsave;
    cbn [lift Py.bind fst snd]; [discriminate|].
  intros E. inversion E; subst generated' fs1.
  apply save_to_inv in Hsave.
  destruct Hsave as (loc & Hresolve & -> & Hmode & Hfile & Hcwd & Hstore).
  exists loc. unfold stored_variant. cbn [PIL.mode] in Hmode. auto 10.
Qed.

Lemma generate_one_ok master output_dir suffix generated fs row loc :
  PIL.loads master = true ->
  Png.writable (PIL.mode master) = true ->
  1 <= fst (fst (fst row)) ->
  Posix.resolve fs (variant_path output_dir suffix row) = inr loc ->
  Posix.is_dir (Posix.store fs) loc = false ->
  Posix.is_dir (Posix.store fs) (removelast loc) = true ->
  IconVariants.generate_one master output_dir suffix (generated, fs) row
  = Ok (generated ++ [(variant_path output_dir suffix row,
                       stored_variant master (fst (fst (fst row))))],
        {| Posix.cwd := Posix.cwd fs;
           Posix.store :=
             <[loc := Posix.RegularFile
                        (Some (stored_variant master (fst (fst (fst row)))))]>
               (Posix.store fs) |}).
Proof.
  destruct row as [[[export_size display_size] scale] filename].
  unfold variant_path. cbn [fst snd].
  intros Hloads Hmode Hsize Hresolve Hfile Hparent.
  unfold IconVariants.generate_one.
  rewrite (load_ok _ Hloads). cbn [Py.bind].
  rewrite resize_ok by assumption. cbn [Py.bind].
  unfold Png.save_to. rewrite Hresolve.
  rewrite save_at_ok by assumption. reflexivity.
Qed.

(** The whole loop, when it ends normally. *)
Lemma for_each_generate_inv master output_dir suffix rows :
  forall generated fs generated' fs',
    for_each (IconVariants.generate_one master output_dir suffix) rows
      (generated, fs) = Ok (generated', fs') ->
    exists locs,
      generated' = generated ++ variants_of master output_dir suffix rows
      /\ Forall2 (fun row loc =>
                    Posix.resolve fs (variant_path output_dir suffix row) = inr loc
                    /\ Posix.is_dir (Posix.store fs) loc = false)
           rows locs
      /\ Posix.cwd fs' = Posix.cwd fs
      /\ Posix.store fs'
         = put_all (combine locs
                      (map snd (variants_of master output_dir suffix rows)))
             (Posix.store fs)
      /\ (rows <> [] ->
          PIL.loads master = true /\ Png.writable (PIL.mode master) = true).
Proof.
  induction rows as [|row rest IH]; intros generated fs generated' fs' Hrun.
  - cbn in Hrun. inversion Hrun; subst. exists []. cbn. rewrite app_nil_r.
    repeat split; try constructor; contradiction.
  - cbn [for_each] in Hrun.
    destruct (IconVariants.generate_one master output_dir suffix (generated, fs) row)
      as [[generated1 fs1]| |] eqn:Hone; cbn [Py.bind] in Hrun; try discriminate.
    apply generate_one_inv in Hone.
    destruct Hone as (loc & Hloads & Hmode & Hresolve & Hfile & -> & Hcwd & Hstore).
    apply IH in Hrun.
    destruct Hrun as (locs & -> & Hlocs & Hcwd' & Hstore' & _).
    assert (Hsame : same_directories (Posix.store fs) (Posix.store fs1)).
    { rewrite Hstore. apply insert_file_same_directories. exact Hfile. }
    exists (loc :: locs). cbn [variants_of map combine put_all fold_left fst snd].
    rewrite <- app_assoc. split; [reflexivity|]. split.
    { constructor; [auto|]. eapply List.Forall2_impl; [|exact Hlocs].
      intros r l [Hr Hl]. split.
      - eapply resolve_same_directories; [| |exact Hr].
        + symmetry. exact Hcwd.
        + apply same_directories_sym. exact Hsame.
      - rewrite Hsame. exact Hl. }
    split; [congruence|]. split; [|auto].
    rewrite Hstore', Hstore. reflexivity.
Qed.

(** The loop ends normally when every variant can be written. *)
Lemma for_each_generate_ok master output_dir suffix rows :
  PIL.loads master = true ->
  Png.writable (PIL.mode master) = true ->
  forall generated fs,
    Forall (fun row =>
              1 <= fst (fst (fst row))
              /\ exists loc,
                   Posix.resolve fs (variant_path output_dir suffix row) = inr loc
                   /\ Posix.is_dir (Posix.store fs) loc = false
                   /\ Posix.is_dir (Posix.store fs) (removelast loc) = true)
      rows ->
    exists fs',
      for_each (IconVariants.generate_one master output_dir suffix) rows
        (generated, fs)
      = Ok (generated ++ variants_of master output_dir suffix rows, fs').
Proof.
  intros Hloads Hmode.
  induction rows as [|row rest IH]; intros generated fs Hrows.
  - exists fs. cbn. rewrite app_nil_r. reflexivity.
  - inversion Hrows as [|? ? [Hsize (loc & Hresolve & Hfile & Hparent)] Hrest];
      subst.
    cbn [for_each].
    rewrite (generate_one_ok _ _ _ _ _ _ loc Hloads Hmode Hsize Hresolve Hfile
               Hparent).
    cbn [Py.bind].
    set (fs1 := {| Posix.cwd := Posix.cwd fs; Posix.store := _ |}).
    assert (Hsame : same_directories (Posix.store fs) (Posix.store fs1))
      by (apply insert_file_same_directories; exact Hfile).
    destruct (IH (generated ++ [(variant_path output_dir suffix row,
                                 stored_variant master (fst (fst (fst row))))])
                fs1) as [fs' Hrun].
    { eapply List.Forall_impl; [|exact Hrest].
      intros r [Hr (l & Hl & Hlfile & Hlparent)]. split; [exact Hr|].
      exists l. split.
      - eapply resolve_same_directories; [| |exact Hl]; [reflexivity|exact Hsame].
      - rewrite <- !Hsame. auto. }
    exists fs'. rewrite Hrun. cbn [variants_of map]. rewrite <- app_assoc.
    reflexivity.
Qed.

Lemma table_sizes_positive :
  Forall (fun row : Z * Z * Z * string => 1 <= fst (fst (fst row)))
    IconVariants.IOS_ICON_SIZES.
Proof. repeat constructor; cbn; lia. Qed.

Lemma variants_of_sizes master output_dir suffix rows :
  Forall2 (variant_saved output_dir suffix) rows
    (variants_of master output_dir suffix rows).
Proof.
  induction rows as [|[[[export_size display_size] scale] filename] rest IH];
    cbn; constructor; [|exact IH].
  split; reflexivity.
Qed.

(** The names of the table are plain, with any suffix that has no slash. *)
Lemma table_names_plain suffix :
  no_slash suffix = true ->
  Forall (fun row : Z * Z * Z * string =>
            plain (IconVariants.with_suffix suffix (snd row)) = true)
    IconVariants.IOS_ICON_SIZES.
Proof.
  intros Hsuffix. unfold IconVariants.with_suffix.
  destruct (String.eqb suffix ""); [repeat constructor|].
  assert (Hname : forall root : string,
             no_slash root = true ->
             (exists c rest, root = String c rest /\ Ascii.eqb c "." = false) ->
             plain (root +:+ suffix +:+ ".png") = true).
  { intros root Hroot (c & rest & -> & Hc). unfold plain.
    rewrite !no_slash_app, Hroot, Hsuffix. rewrite append_cons.
    cbn [no_slash Posix.stays String.eqb andb orb negb].
    rewrite Hc. reflexivity. }
  repeat constructor; cbn [snd]; apply Hname;
    solve [reflexivity | do 2 eexists; split; reflexivity].
Qed.

Lemma opened_found st target img :
  Posix.opened st target = inr img -> Posix.found st target = true.
Proof.
  unfold Posix.opened, Posix.found. destruct target as [e|loc]; [discriminate|].
  destruct (Posix.entry_at st loc); [reflexivity|discriminate].
Qed.


(** ** The worktree's generator *)


Lemma to_rgb_inv master rgb :
  WorktreeVariants.to_rgb master = Ok rgb ->
  PIL.mode rgb = "RGB" /\ PIL.size rgb = PIL.size master.
Proof.
  unfold WorktreeVariants.to_rgb, PIL.load.
  destruct (PIL.loads master); cbn [Py.bind]; [|discriminate].
  destruct (String.eqb (PIL.mode master) "RGBA"
            || String.eqb (PIL.mode master) "LA"
            || String.eqb (PIL.mode master) "P").
  - destruct (PIL.new "RGB" (PIL.size master) [255; 255; 255]) as [bg| |] eqn:Hnew;
      cbn [Py.bind]; try discriminate.
    apply new_inv in Hnew. subst bg. unfold PIL.paste.
    destruct (if String.eqb _ "RGBA" then _ else _) as [mask|].
    + destruct (negb _); [discriminate|].
      intros H. inversion H. cbn. auto.
    + intros H. inversion H. cbn. auto.
  - destruct (String.eqb_spec (PIL.mode master) "RGB") as [Hrgb|Hother]; cbn;
      intros H; inversion H; subst; cbn; auto.
Qed.




Lemma save_to_path_inv fs p img stored fs' :
  Png.save_to_path fs p img = inr (stored, fs') ->
  exists loc,
    Posix.locate fs p = inr loc
    /\ stored = Png.saved img
    /\ Png.writable (PIL.mode img) = true
    /\ Posix.is_dir (Posix.store fs) loc = false
    /\ Posix.cwd fs' = Posix.cwd fs
    /\ Posix.store fs'
       = <[loc := Posix.RegularFile (Some stored)]> (Posix.store fs).
Proof.
  unfold Png.save_to_path, Png.keep_cwd.
  destruct (Posix.locate fs p) as [e|loc] eqn:Hlocate.
  - cbn. discriminate.
  - destruct (Png.save_at _ _ _) as [e|[stored0 st]] eqn:Hsave; [discriminate|].
    intros E. inversion E; subst.
    apply save_at_inv in Hsave. destruct Hsave as (-> & Hmode & Hfile & ->).
    exists loc. cbn. auto 10.
Qed.




Lemma generate_size_inv master rgb output_path generated fs size generated' fs' :
  PIL.mode rgb = "RGB" ->
  PIL.size rgb = PIL.size master ->
  WorktreeVariants.generate_size rgb output_path (generated, fs) size
  = Ok (generated', fs') ->
  exists stored,
    generated' = generated ++ [stored]
    /\ worktree_saved master size stored.
Proof.
  intros Hmode Hsize. unfold WorktreeVariants.generate_size, worktree_saved.
  destruct (Z.eqb_spec size 1024) as [->|Hne].
  - destruct (Png.save_to_path fs _ rgb) as [e|[stored fs1]] eqn:Hsave;
      cbn [lift Py.bind fst snd]; [discriminate|].
    apply save_to_path_inv in Hsave.
    destruct Hsave as (loc & _ & -> & _).
    intros E. inversion E; subst. eexists. split; [reflexivity|].
    cbn [fst snd]. repeat split; assumption.
  - destruct (PIL.resize rgb (size, size)) as [resized| |] eqn:Hresize;
      cbn [Py.bind]; try discriminate.
    apply resize_inv in Hresize. subst resized.
    destruct (Png.save_to_path fs _ _) as [e|[stored fs1]] eqn:Hsave;
      cbn [lift Py.bind fst snd]; [discriminate|].
    apply save_to_path_inv in Hsave.
    destruct Hsave as (loc & _ & -> & _).
    intros E. inversion E; subst. eexists. split; [reflexivity|].
    cbn [fst snd]. repeat split. exact Hmode.
Qed.

Lemma for_each_generate_size_inv master rgb output_path sizes :
  PIL.mode rgb = "RGB" ->
  PIL.size rgb = PIL.size master ->
  forall generated fs generated' fs',
    for_each (WorktreeVariants.generate_size rgb output_path) sizes
      (generated, fs) = Ok (generated', fs') ->
    exists more,
      generated' = generated ++ more
      /\ Forall2 (worktree_saved master) sizes more.
Proof.
  intros Hmode Hsize.
  induction sizes as [|size rest IH]; intros generated fs generated' fs' Hrun.
  - cbn in Hrun. inversion Hrun; subst. exists []. rewrite app_nil_r.
    split; [reflexivity|constructor].
  - cbn [for_each] in Hrun.
    destruct (WorktreeVariants.generate_size rgb output_path (generated, fs) size)
      as [[generated1 fs1]| |] eqn:Hone; cbn [Py.bind] in Hrun; try discriminate.
    apply (generate_size_inv master) in Hone; try assumption.
    destruct Hone as (stored & -> & Hstored).
    apply IH in Hrun. destruct Hrun as (more & -> & Hmore).
    exists (stored :: more). rewrite <- app_assoc. split; [reflexivity|].
    constructor; assumption.
Qed.







(** ** The exit status of the icon generator *)

(** The status never depends on the validation toggle, hence never on what
    [validate_icons] found. *)
Lemma main_status_ignores_validation a answer fs :
  IconVariants.exit_status (IconVariants.main a answer fs)
  = IconVariants.exit_status
      (IconVariants.main
         {| IconVariants.arg_input := IconVariants.arg_input a;
            IconVariants.arg_output := IconVariants.arg_output a;
            IconVariants.arg_suffix := IconVariants.arg_suffix a;
            IconVariants.arg_quality := IconVariants.arg_quality a;
            IconVariants.arg_update_contents_json :=
              IconVariants.arg_update_contents_json a;
            IconVariants.arg_validate := false |}
         answer fs).
Proof. unfold IconVariants.main. cbn. reflexivity. Qed.

(** The validator, by contrast, turns its verdict into the exit status. *)
Lemma validator_status_follows_verdict passed :
  Validator.exit_status passed = 0 <-> passed = true.
Proof. destruct passed; cbn; split; congruence. Qed.

(** C3, at the failing input: the command line
    [--input app-icon-dark.png --output AppIcon.appiconset/ --suffix=-dark
    --validate], which [parse_args] turns into [dark_args].  The dark variants
    are generated from a valid master into a fresh directory; generation
    succeeds, [validate_icons] returns False (it looks for the names without
    the suffix and finds none), and the process still ends with status 0. *)
Theorem failed_validation_exits_zero :
  (let* st := IconVariants.generate_variants master_only None
                "app-icon-dark.png" "AppIcon.appiconset/" "-dark" in
   Ok (IconVariants.validate_icons (snd st) "AppIcon.appiconset/")) = Ok false
  /\ IconVariants.exit_status (IconVariants.main dark_args None master_only) = 0.
Proof. split; vm_compute; reflexivity. Qed.

(** ** The procedural icon *)


(** ** Concrete runs of the icon rules *)

Lemma validate_icon_pass_and_single_violation_witness :
  fst (Validator.validate_icon (icon_file 300000 (picture 1024 1024))) = true
  /\ fst (Validator.validate_icon (icon_file 300000 (picture 900 900))) = false.
Proof.
  apply (validate_icon_pass_and_single_violation 300000 300000
           (picture 1024 1024) (picture 900 900)); reflexivity.
Defined.


(** The validator recognises an alpha channel by the mode RGBA only: a
    conforming grey icon with alpha (mode LA) passes without the warning. *)
Example grey_alpha_icon_passes_without_warning :
  Validator.validate_icon (icon_file 300000 (set_mode "LA" (picture 1024 1024)))
  = (true, [Validator.ValidatingIcon; Validator.IconPassesAll;
            Validator.IconSize 1024 1024; Validator.IconFormat (Some "PNG");
            Validator.IconFileSize (Validator.file_size_mb 300000)]).
Proof. reflexivity. Qed.


(** * Further properties *)

(** ** validate_icon: when it passes and what it prints *)

Lemma dimensions_ok_iff (img : PIL.image) :
  dimensions_ok img = true <-> PIL.size img = (1024, 1024).
Proof.
  unfold dimensions_ok. destruct (PIL.size img) as [w h]. cbn [fst snd].
  rewrite andb_true_iff, !Z.eqb_eq. split.
  - intros [-> ->]. reflexivity.
  - intros H. inversion H. auto.
Qed.

Lemma format_ok_iff (img : PIL.image) :
  format_ok img = true <-> PIL.format img = Some "PNG".
Proof.
  unfold format_ok. destruct (PIL.format img) as [f|].
  - rewrite String.eqb_eq. split; [intros ->; reflexivity|congruence].
  - split; discriminate.
Qed.

(** X1.  [validate_icon] returns pass exactly for a path that names a file
    which Pillow decodes, of 1024 by 1024 pixels, of format PNG and of at
    most 524288 bytes; a missing path, a directory and an undecodable file
    all fail. *)
Theorem validate_icon_passes_iff (target : option node) :
  fst (Validator.validate_icon target) = true <-> conforming_icon target.
Proof.
  split.
  - destruct target as [[bytes [img|]|entries]|]; try (cbn; discriminate).
    fold (icon_file bytes img). rewrite validate_icon_decides.
    rewrite !andb_true_iff. intros [[Hd Hf] Hs].
    exists bytes, img. split; [reflexivity|].
    apply dimensions_ok_iff in Hd. apply format_ok_iff in Hf.
    apply Z.leb_le in Hs. auto.
  - intros (bytes & img & -> & Hd & Hf & Hs).
    fold (icon_file bytes img). rewrite validate_icon_decides.
    apply dimensions_ok_iff in Hd. apply format_ok_iff in Hf.
    apply Z.leb_le in Hs. unfold file_size_ok. rewrite Hd, Hf, Hs. reflexivity.
Qed.

(** X2.  A decodable icon that breaks at least one rule gets the verdict
    fail and, after the opening line, exactly one error line per broken
    rule: the rules are all evaluated, the first failure does not hide the
    others, and neither a warning nor a pass line is printed. *)
Theorem validate_icon_reports_every_violation (bytes : Z) (img : PIL.image) :
  (0 < violations bytes img)%nat ->
  exists errors,
    Validator.validate_icon (icon_file bytes img)
    = (false, Validator.ValidatingIcon :: errors)
    /\ length errors = violations bytes img
    /\ (dimensions_ok img = false ->
        In (Validator.WrongSize (fst (PIL.size img)) (snd (PIL.size img)) 1024 1024)
          errors)
    /\ (format_ok img = false ->
        In (Validator.WrongFormat (PIL.format img) "PNG") errors)
    /\ (file_size_ok bytes = false ->
        In (Validator.FileTooLarge (Validator.file_size_mb bytes) 0.5) errors).
Proof.
  intros Hv.
  exists (Validator.dimension_errors (fst (PIL.size img)) (snd (PIL.size img))
          ++ Validator.format_errors (PIL.format img)
          ++ Validator.file_size_errors (Validator.file_size_mb bytes)).
  pose proof (dimension_errors_nil img) as Hd.
  pose proof (format_errors_nil img) as Hf.
  pose proof (file_size_errors_nil bytes) as Hs.
  unfold violations in *.
  unfold Validator.validate_icon, icon_file. cbn [exists_ negb Image_open getsize].
  destruct (PIL.size img) as [width height] eqn:Hsize. cbn [fst snd] in *.
  unfold Validator.dimension_errors, Validator.format_errors,
    Validator.file_size_errors in *.
  rewrite file_size_rule in *.
  assert (Hdim : negb (width =? fst (Validator.icon_size Validator.ICON_SPECS))
                 || negb (height =? snd (Validator.icon_size Validator.ICON_SPECS))
                 = negb (dimensions_ok img)).
  { unfold dimensions_ok. rewrite Hsize. cbn.
    destruct (width =? 1024), (height =? 1024); reflexivity. }
  assert (Hfmt : Validator.format_differs (PIL.format img)
                   (Validator.icon_format Validator.ICON_SPECS)
                 = negb (format_ok img)).
  { unfold Validator.format_differs, format_ok.
    destruct (PIL.format img); reflexivity. }
  rewrite Hdim, Hfmt in *.
  destruct (dimensions_ok img), (format_ok img), (file_size_ok bytes);
    cbn in Hv |- *; try lia;
    (split; [reflexivity|]; split; [reflexivity|];
     repeat split; intros; try discriminate; auto).
Qed.

Lemma validate_icon_reports_every_violation_witness :
  exists errors,
    Validator.validate_icon
      (icon_file 600000 (PIL.Image (900, 900) "RGB" (Some "JPEG") (PIL.Decoded 0)))
    = (false, Validator.ValidatingIcon :: errors)
    /\ length errors = 3%nat.
Proof.
  destruct (validate_icon_reports_every_violation 600000
              (PIL.Image (900, 900) "RGB" (Some "JPEG") (PIL.Decoded 0)))
    as [errors [Hrun [Hlen _]]].
  - cbn. lia.
  - exists errors. split; [exact Hrun|exact Hlen].
Defined.

(** ** validate_screenshots: every device is reported *)

Lemma headers_app (a b : list Validator.line) :
  headers (a ++ b) = headers a ++ headers b.
Proof. unfold headers. apply flat_map_app. Qed.

Lemma headers_shot_lines specs device_dir screenshots :
  headers (map (shot_line specs device_dir) screenshots) = [].
Proof.
  induction screenshots as [|s rest IH]; [reflexivity|].
  cbn [map]. change (?x :: ?l) with ([x] ++ l). rewrite headers_app, IH.
  unfold shot_line.
  destruct (Image_open (lookup_entry device_dir s)); [reflexivity|].
  destruct (shot_ok specs device_dir s); reflexivity.
Qed.

Lemma headers_device_report root d :
  headers (snd (device_report root d)) = [fst d].
Proof.
  destruct d as [device specs]. unfold device_report.
  destruct (lookup_entry root device) as [[bytes decoded|device_dir]|];
    try reflexivity.
  destruct (_ <? _); [reflexivity|].
  cbn [snd fst]. change (?x :: ?l) with ([x] ++ l).
  rewrite headers_app, headers_shot_lines. reflexivity.
Qed.

(** X3.  Whatever the screenshots directory holds, the report names every
    device of the table once, in table order: a missing or short device
    directory fails the run but does not stop the check of the devices after
    it.  A path that is not a directory gives the single line "Directory not
    found" and the verdict fail. *)
Theorem every_device_is_reported (target : option node) :
  match target with
  | Some (Dir root) =>
      headers (snd (Validator.validate_screenshots target))
      = ["iphone_se"; "iphone_15"; "iphone_15_pro_max"; "ipad"]
  | _ =>
      Validator.validate_screenshots target
      = (false, [Validator.ValidatingScreenshots; Validator.DirectoryNotFound])
  end.
Proof.
  destruct target as [[bytes decoded|root]|]; try reflexivity.
  rewrite validate_screenshots_assembled. unfold assembled_report.
  cbn [snd]. rewrite !headers_app.
  unfold Validator.SCREENSHOT_SPECS. cbn [map concat].
  rewrite !headers_app, !headers_device_report.
  destruct (forallb fst _); reflexivity.
Qed.

(** ** validate_screenshots: when it passes *)

Lemma shot_ok_iff specs device_dir f :
  shot_ok specs device_dir f = true
  <-> exists bytes img,
        lookup_entry device_dir f = Some (File bytes (Some img))
        /\ PIL.size img = Validator.shot_size specs.
Proof.
  unfold shot_ok, Image_open.
  destruct (lookup_entry device_dir f) as [[bytes [img|]|entries]|].
  - rewrite andb_true_iff, !Z.eqb_eq.
    destruct (PIL.size img) as [w h] eqn:Hs.
    destruct (Validator.shot_size specs) as [ew eh].
    cbn [fst snd]. split.
    + intros [-> ->]. exists bytes, img. auto.
    + intros (b & i & E & Hsize). inversion E; subst.
      rewrite Hs in Hsize. inversion Hsize. auto.
  - split; [discriminate|]. intros (b & i & E & _). discriminate.
  - split; [discriminate|]. intros (b & i & E & _). discriminate.
  - split; [discriminate|]. intros (b & i & E & _). discriminate.
Qed.

Lemma device_report_passes_iff root d :
  fst (device_report root d) = true <-> conforming_device root d.
Proof.
  destruct d as [device specs]. unfold device_report, conforming_device.
  cbn [fst snd].
  destruct (lookup_entry root device) as [[bytes decoded|device_dir]|].
  - split; [discriminate|]. intros (dd & E & _). discriminate.
  - destruct (Z.ltb_spec (Z.of_nat (length (Validator.png_files device_dir)))
                (Validator.shot_count specs)) as [Hshort|Henough]; cbn [fst].
    + split; [discriminate|]. intros (dd & E & Hcount & _).
      inversion E; subst. lia.
    + rewrite forallb_forall. split.
      * intros Hall. exists device_dir. split; [reflexivity|].
        split; [exact Henough|]. intros f Hf. apply shot_ok_iff. auto.
      * intros (dd & E & _ & Hall). inversion E; subst.
        intros f Hf. apply shot_ok_iff. auto.
  - split; [discriminate|]. intros (dd & E & _). discriminate.
Qed.

(** X4.  [validate_screenshots] returns pass exactly when the path is a
    directory in which every device of the table has a directory with at
    least the required number of [.png] files, each of which decodes to
    exactly the resolution required for that device. *)
Theorem validate_screenshots_passes_iff (target : option node) :
  fst (Validator.validate_screenshots target) = true
  <-> exists root,
        target = Some (Dir root)
        /\ Forall (conforming_device root) Validator.SCREENSHOT_SPECS.
Proof.
  destruct target as [[bytes decoded|root]|].
  - split; [discriminate|]. intros (r & E & _). discriminate.
  - rewrite validate_screenshots_verdict, forallb_forall.
    split.
    + intros H. exists root. split; [reflexivity|].
      apply List.Forall_forall.
      intros d Hd. apply device_report_passes_iff. auto.
    + intros (r & E & H). inversion E; subst.
      rewrite List.Forall_forall in H.
      intros d Hd. apply device_report_passes_iff. auto.
  - split; [discriminate|]. intros (r & E & _). discriminate.
Qed.

(** ** validate_screenshots: the order of a listing does not matter *)

Lemma lookup_entry_Some_In entries f x :
  lookup_entry entries f = Some x -> In (f, x) entries.
Proof.
  induction entries as [|[m y] rest IH]; cbn; [discriminate|].
  destruct (String.eqb_spec m f) as [->|Hne].
  - intros E. inversion E. auto.
  - auto.
Qed.

Lemma In_lookup_entry entries f x :
  List.NoDup (listdir entries) -> In (f, x) entries -> lookup_entry entries f = Some x.
Proof.
  unfold listdir.
  induction entries as [|[m y] rest IH]; cbn; [tauto|].
  intros Hnodup Hin. inversion Hnodup as [|? ? Hnotin Hrest]; subst.
  destruct Hin as [E|Hin].
  - inversion E; subst. rewrite String.eqb_refl. reflexivity.
  - destruct (String.eqb_spec m f) as [->|Hne]; [|auto].
    exfalso. apply Hnotin. apply (in_map fst) in Hin. exact Hin.
Qed.

Lemma lookup_entry_permuted entries entries' f :
  List.NoDup (listdir entries) ->
  Permutation entries entries' ->
  lookup_entry entries' f = lookup_entry entries f.
Proof.
  intros Hnodup Hperm.
  assert (Hnodup' : List.NoDup (listdir entries')).
  { unfold listdir in *. eapply Permutation_NoDup; [|exact Hnodup].
    apply Permutation_map. exact Hperm. }
  destruct (lookup_entry entries f) as [x|] eqn:E.
  - apply In_lookup_entry; [exact Hnodup'|].
    eapply Permutation_in; [exact Hperm|]. apply lookup_entry_Some_In. exact E.
  - destruct (lookup_entry entries' f) as [x'|] eqn:E'; [|reflexivity].
    apply lookup_entry_Some_In in E'.
    apply Permutation_sym in Hperm.
    apply (Permutation_in _ Hperm) in E'.
    apply In_lookup_entry in E'; [congruence|exact Hnodup].
Qed.

Lemma permuted_filter {A} (p : A -> bool) (l l' : list A) :
  Permutation l l' -> Permutation (List.filter p l) (List.filter p l').
Proof.
  induction 1 as [|x l l' _ IH|x y l|l l' l'' _ IH1 _ IH2]; cbn.
  - constructor.
  - destruct (p x); [constructor|]; exact IH.
  - destruct (p x), (p y); try reflexivity. constructor.
  - etransitivity; eassumption.
Qed.

Lemma permuted_forallb {A} (p : A -> bool) (l l' : list A) :
  Permutation l l' -> forallb p l = forallb p l'.
Proof.
  induction 1 as [|x l l' _ IH|x y l|l l' l'' _ IH1 _ IH2]; cbn.
  - reflexivity.
  - rewrite IH. reflexivity.
  - destruct (p x), (p y); reflexivity.
  - congruence.
Qed.

(** X5.  The verdict does not depend on the order in which [os.listdir]
    returns the names of a device directory: listing the same files (no name
    twice) in any other order gives the same verdict. *)
Theorem verdict_ignores_listing_order
    (root : list (string * node)) (device : string)
    (listing listing' : list (string * node)) :
  lookup_entry root device = Some (Dir listing) ->
  List.NoDup (listdir listing) ->
  Permutation listing listing' ->
  fst (Validator.validate_screenshots (Some (Dir (relist root device listing'))))
  = fst (Validator.validate_screenshots (Some (Dir root))).
Proof.
  intros Hdir Hnodup Hperm.
  rewrite !validate_screenshots_verdict.
  apply forallb_same_on. intros [device' specs] Hin.
  unfold device_report, relist. rewrite lookup_alter_entry.
  destruct (String.eqb_spec device device') as [<-|Hne]; [|reflexivity].
  rewrite Hdir. cbn [option_map].
  assert (Hpng : Permutation (Validator.png_files listing')
                   (Validator.png_files listing)).
  { unfold Validator.png_files, listdir. apply permuted_filter.
    apply Permutation_map. apply Permutation_sym. exact Hperm. }
  rewrite (Permutation_length Hpng).
  destruct (_ <? _); [reflexivity|]. cbn [fst].
  rewrite (permuted_forallb _ _ _ Hpng).
  apply forallb_same_on. intros f Hf. apply shot_ok_same_lookup.
  apply lookup_entry_permuted; assumption.
Qed.

Lemma verdict_ignores_listing_order_witness :
  fst (Validator.validate_screenshots
         (Some (Dir (relist one_wrong_root "iphone_se"
                       (rev (shots six_names 750 1334))))))
  = fst (Validator.validate_screenshots (Some (Dir one_wrong_root))).
Proof.
  apply (verdict_ignores_listing_order one_wrong_root "iphone_se"
           (shots six_names 750 1334) (rev (shots six_names 750 1334))).
  - reflexivity.
  - vm_compute. repeat constructor; cbn; intuition discriminate.
  - apply Permutation_rev.
Defined.

(** ** validate_video *)

Lemma video_size_rule (bytes : Z) :
  Qle_bool (Validator.file_size_mb bytes)
    (ValidatorCli.video_max_size_mb ValidatorCli.VIDEO_SPECS)
  = (bytes <=? 52428800).
Proof.
  unfold Validator.file_size_mb, Qle_bool.
  change (1024 * 1024) with 1048576. cbn.
  match goal with
  | |- (?a <=? ?b) = _ => destruct (Z.leb_spec a b)
  end; destruct (Z.leb_spec bytes 52428800); try reflexivity; lia.
Qed.

(** X6.  [validate_video] returns pass exactly when the path names
    something whose size is at most 50 MB (52428800 bytes).  Nothing else
    enters the verdict: not the extension, which only adds a warning, and not
    the duration, resolution or codec, which are never read. *)
Theorem validate_video_passes_iff
    (dir_size : Z) (path : string) (target : option node) :
  fst (ValidatorCli.validate_video dir_size path target) = true
  <-> exists bytes, video_bytes dir_size target = Some bytes /\ bytes <= 52428800.
Proof.
  unfold ValidatorCli.validate_video.
  destruct target as [[bytes decoded|entries]|];
    cbn [exists_ negb ValidatorCli.os_getsize video_bytes].
  - rewrite video_size_rule.
    destruct (Z.leb_spec bytes 52428800); cbn [negb fst].
    + split; [eauto|reflexivity].
    + split; [discriminate|]. intros (b & E & Hb). inversion E; subst. lia.
  - rewrite video_size_rule.
    destruct (Z.leb_spec dir_size 52428800); cbn [negb fst].
    + split; [eauto|reflexivity].
    + split; [discriminate|]. intros (b & E & Hb). inversion E; subst. lia.
  - cbn. split; [discriminate|]. intros (b & E & _). discriminate.
Qed.

(** ** The validator's command line *)

Lemma if_exists_verdict {L} (target : option node) (run : option node -> bool * list L) :
  fst (run None) = false ->
  fst (ValidatorCli.if_exists target (run target)) = fst (run target).
Proof.
  intros Hnone. unfold ValidatorCli.if_exists.
  destruct target; [reflexivity|]. cbn. symmetry. exact Hnone.
Qed.

(** X7.  With [--all] the other selectors are ignored and the status is 0
    exactly when the three fixed assets (icon, screenshots, video) all pass;
    it is 1 otherwise, and an asset that does not exist counts as failed. *)
Theorem all_flag_status (w : ValidatorCli.world) (a : ValidatorCli.args) :
  ValidatorCli.arg_all a = true ->
  fst (ValidatorCli.main w a)
  = if icon_verdict w && screenshots_verdict w && video_verdict w then 0 else 1.
Proof.
  intros Hall. unfold ValidatorCli.main. rewrite Hall.
  unfold ValidatorCli.validate_all. cbn [forallb map snd fst].
  rewrite (if_exists_verdict _ Validator.validate_icon) by reflexivity.
  rewrite (if_exists_verdict _ Validator.validate_screenshots) by reflexivity.
  rewrite (if_exists_verdict _
             (ValidatorCli.validate_video (ValidatorCli.dir_size w)
                ValidatorCli.video_path)) by reflexivity.
  fold (icon_verdict w). fold (screenshots_verdict w). fold (video_verdict w).
  destruct (icon_verdict w), (screenshots_verdict w), (video_verdict w);
    reflexivity.
Qed.

Lemma all_flag_status_witness :
  fst (ValidatorCli.main
         {| ValidatorCli.at_path := fun _ => None; ValidatorCli.dir_size := 4096 |}
         {| ValidatorCli.arg_all := true;
            ValidatorCli.arg_icon := Some "app-icon.png";
            ValidatorCli.arg_screenshots := None;
            ValidatorCli.arg_video := None |}) = 1.
Proof.
  apply (all_flag_status
           {| ValidatorCli.at_path := fun _ => None; ValidatorCli.dir_size := 4096 |}).
  reflexivity.
Defined.

(** X8.  From the parsed command line on, without [--all], exactly one
    validator runs: the one of the first selector given, in the order icon,
    screenshots, video (an empty path counts as not given).  The lines
    printed are the lines of that validator and no others, and the status is
    0 exactly when it passes.  With no selector the help is printed and the
    status is 1. *)
Theorem selector_status (w : ValidatorCli.world) (a : ValidatorCli.args) :
  ValidatorCli.arg_all a = false ->
  match ValidatorCli.given (ValidatorCli.arg_icon a),
        ValidatorCli.given (ValidatorCli.arg_screenshots a),
        ValidatorCli.given (ValidatorCli.arg_video a) with
  | Some path, _, _ =>
      snd (ValidatorCli.main w a)
      = map ValidatorCli.FromIcon
          (snd (Validator.validate_icon (ValidatorCli.at_path w path)))
      /\ (fst (ValidatorCli.main w a) = 0
          <-> fst (Validator.validate_icon (ValidatorCli.at_path w path)) = true)
  | None, Some path, _ =>
      snd (ValidatorCli.main w a)
      = map ValidatorCli.FromScreenshots
          (snd (Validator.validate_screenshots (ValidatorCli.at_path w path)))
      /\ (fst (ValidatorCli.main w a) = 0
          <-> fst (Validator.validate_screenshots (ValidatorCli.at_path w path))
              = true)
  | None, None, Some path =>
      snd (ValidatorCli.main w a)
      = map ValidatorCli.FromVideo
          (snd (ValidatorCli.validate_video (ValidatorCli.dir_size w) path
                  (ValidatorCli.at_path w path)))
      /\ (fst (ValidatorCli.main w a) = 0
          <-> fst (ValidatorCli.validate_video (ValidatorCli.dir_size w) path
                     (ValidatorCli.at_path w path)) = true)
  | None, None, None => ValidatorCli.main w a = (1, [ValidatorCli.Help])
  end.
Proof.
  intros Hall. unfold ValidatorCli.main. rewrite Hall.
  destruct (ValidatorCli.given (ValidatorCli.arg_icon a)) as [p|].
  { cbn [fst snd]. split; [reflexivity|apply validator_status_follows_verdict]. }
  destruct (ValidatorCli.given (ValidatorCli.arg_screenshots a)) as [p|].
  { cbn [fst snd]. split; [reflexivity|apply validator_status_follows_verdict]. }
  destruct (ValidatorCli.given (ValidatorCli.arg_video a)) as [p|].
  { cbn [fst snd]. split; [reflexivity|apply validator_status_follows_verdict]. }
  reflexivity.
Qed.

Lemma selector_status_witness :
  ValidatorCli.main
    {| ValidatorCli.at_path := fun _ => None; ValidatorCli.dir_size := 4096 |}
    {| ValidatorCli.arg_all := false;
       ValidatorCli.arg_icon := Some "";
       ValidatorCli.arg_screenshots := None;
       ValidatorCli.arg_video := None |} = (1, [ValidatorCli.Help]).
Proof.
  apply (selector_status
           {| ValidatorCli.at_path := fun _ => None;
              ValidatorCli.dir_size := 4096 |}
           {| ValidatorCli.arg_all := false;
              ValidatorCli.arg_icon := Some "";
              ValidatorCli.arg_screenshots := None;
              ValidatorCli.arg_video := None |} eq_refl).
Defined.

(** ** process_screenshots.py: how a batch ends *)






(** ** process_screenshots.py: what one processed screenshot is *)






(** ** process_screenshots.py: a batch that ends normally *)






(** ** process_screenshots.py: the output names *)

Lemma output_filename_injective i j ti tj export export' :
  In i [1; 2; 3; 4; 5; 6] ->
  In j [1; 2; 3; 4; 5; 6] ->
  Screenshots.output_filename i ti export
  = Screenshots.output_filename j tj export' ->
  i = j.
Proof.
  intros Hi Hj. destruct export as [w h], export' as [w' h'].
  cbn in Hi, Hj.
  repeat (destruct Hi as [<-|Hi]);
    repeat (destruct Hj as [<-|Hj]);
    try contradiction; try reflexivity;
    intros H; vm_compute in H; discriminate H.
Qed.

Lemma NoDup_map_injective_on {A B} (f : A -> B) (l : list A) :
  (forall x y, In x l -> In y l -> f x = f y -> x = y) ->
  List.NoDup l -> List.NoDup (map f l).
Proof.
  intros Hinj Hnodup. induction Hnodup as [|x l Hnotin Hnodup IH]; cbn.
  - constructor.
  - constructor.
    + intros Hin. apply in_map_iff in Hin. destruct Hin as (y & Hy & Hyl).
      apply Hnotin. rewrite (Hinj x y); auto.
      * left. reflexivity.
      * right. exact Hyl.
    + apply IH. intros a b Ha Hb. apply Hinj; right; assumption.
Qed.

Lemma process_all_names env input_dir output_dir specs add_captions indices :
  forall fs written,
  exists js,
    map fst (fst (Screenshots.process_all env fs input_dir output_dir specs
                    add_captions indices written))
    = map fst written
      ++ map (fun i => Screenshots.output_filename i (title_text i)
                         (Screenshots.export_size specs)) js
    /\ incl js indices
    /\ (List.NoDup indices -> List.NoDup js).
Proof.
  induction indices as [|i rest IH]; intros fs written.
  - exists []. cbn. rewrite app_nil_r.
    split; [reflexivity|]. split; [apply incl_refl|auto].
  - cbn [Screenshots.process_all].
    destruct (Screenshots.process_index env fs input_dir output_dir specs
                add_captions i) as [[[w|] fs1]|e|c] eqn:Hstep.
    + destruct (IH fs1 (written ++ [w])) as (js & Hnames & Hincl & Hnodup).
      exists (i :: js). rewrite Hnames, map_app, <- app_assoc. cbn [map app].
      assert (Hw : fst w = Screenshots.output_filename i (title_text i)
                             (Screenshots.export_size specs)).
      { unfold Screenshots.process_index in Hstep.
        destruct (Screenshots.find_input _ _); [|discriminate].
        unfold title_text.
        destruct (Screenshots.title i) as [e|t]; cbn [lift Py.bind] in Hstep;
          [discriminate|].
        destruct (if add_captions then _ else _) as [cap| |];
          cbn [Py.bind] in Hstep; try discriminate.
        destruct (Screenshots.process_screenshot _ _ _ _ _ _);
          cbn [Py.bind] in Hstep; try discriminate.
        inversion Hstep. reflexivity. }
      rewrite Hw. split; [reflexivity|]. split.
      * intros x [<-|Hx]; [left; reflexivity|right; apply Hincl; exact Hx].
      * intros Hnd. inversion Hnd as [|? ? Hnotin Hrest]; subst.
        constructor; [|auto]. intros Hin. apply Hnotin. apply Hincl. exact Hin.
    + destruct (IH fs1 written) as (js & Hnames & Hincl & Hnodup).
      exists js. split; [exact Hnames|]. split.
      * intros x Hx. right. apply Hincl. exact Hx.
      * intros Hnd. inversion Hnd; subst. auto.
    + exists []. cbn. rewrite app_nil_r.
      split; [reflexivity|]. split; [intros x []|constructor].
    + exists []. cbn. rewrite app_nil_r.
      split; [reflexivity|]. split; [intros x []|constructor].
Qed.

(** X12.  In one run no two written files have the same name: each index
    gets a name of its own, so no output overwrites another, whatever the
    device, the directories and the caption toggle. *)
Theorem batch_never_overwrites_its_outputs
    (env : Screenshots.typography) (fs : Posix.filesystem)
    (input_dir : list (string * node)) (output_dir device_type : string)
    (add_captions : bool) :
  List.NoDup
    (map fst (fst (Screenshots.batch_process env fs input_dir output_dir
                     device_type add_captions))).
Proof.
  unfold Screenshots.batch_process.
  destruct (Screenshots.get Screenshots.DEVICE_SPECS device_type) as [specs|];
    [|constructor].
  destruct (Posix.makedirs fs output_dir) as [e|fs1]; [constructor|].
  destruct (process_all_names env input_dir output_dir specs add_captions
              [1; 2; 3; 4; 5; 6] fs1 []) as (js & Hnames & Hincl & Hnodup).
  rewrite Hnames. cbn [map app].
  apply NoDup_map_injective_on.
  - intros x y Hx Hy. apply output_filename_injective; apply Hincl; assumption.
  - apply Hnodup. repeat constructor; cbn; intuition discriminate.
Qed.

(** ** generate-icon-variants.py: what a successful run has done *)

Lemma lower_is_y (response : string) :
  IconVariants.lower response = "y" <-> response = "y" \/ response = "Y".
Proof.
  split.
  - destruct response as [|c [|c' rest]]; cbn; try discriminate.
    destruct c as [[] [] [] [] [] [] [] []]; vm_compute; intros E;
      try discriminate E; auto.
  - intros [-> | ->]; reflexivity.
Qed.

Lemma load_master_inv fs answer input_path master :
  IconVariants.load_master fs answer input_path = Ok master ->
  Posix.Image_open fs input_path = inr master
  /\ (PIL.size master = (1024, 1024)
      \/ exists response,
           answer = Some response /\ IconVariants.lower response = "y").
Proof.
  unfold IconVariants.load_master.
  destruct (Posix.Image_open fs input_path) as [e|m];
    cbn [lift Py.bind try_except]; [discriminate|].
  destruct (PIL.size m) as [w h] eqn:Hsize.
  destruct (Z.eqb_spec w 1024) as [->|Hw], (Z.eqb_spec h 1024) as [->|Hh];
    cbn [negb orb];
    try (cbn; intros E; inversion E; subst; auto; fail);
    (destruct answer as [response|]; cbn [IconVariants.input lift Py.bind];
     [|discriminate];
     destruct (String.eqb_spec (IconVariants.lower response) "y");
     cbn [negb try_except]; [|discriminate];
     intros E; inversion E; subst; split; [reflexivity|right; eauto]).
Qed.

Lemma combine_fst_length {A B} (xs : list A) (ys : list B) :
  length xs = length ys -> map fst (combine xs ys) = xs.
Proof.
  revert ys. induction xs as [|x xs IH]; intros [|y ys] Hlen;
    try discriminate; [reflexivity|].
  cbn. rewrite IH by (cbn in Hlen; lia). reflexivity.
Qed.

Lemma Forall2_same_length {A B} (R : A -> B -> Prop) xs ys :
  Forall2 R xs ys -> length xs = length ys.
Proof. induction 1; cbn; congruence. Qed.

(** What a successful run has done: the master was read, the directory
    made, and every variant written at the place that its path denotes. *)
Lemma generate_variants_inv fs answer input_path output_dir suffix saved fs' :
  IconVariants.generate_variants fs answer input_path output_dir suffix
  = Ok (saved, fs') ->
  exists master fs1 locs,
    Posix.Image_open fs input_path = inr master
    /\ (PIL.size master = (1024, 1024)
        \/ exists response,
             answer = Some response /\ IconVariants.lower response = "y")
    /\ Posix.makedirs fs output_dir = inr fs1
    /\ saved = variants_of master output_dir suffix IconVariants.IOS_ICON_SIZES
    /\ Forall2 (fun row loc =>
                  Posix.resolve fs1 (variant_path output_dir suffix row) = inr loc
                  /\ Posix.is_dir (Posix.store fs1) loc = false)
         IconVariants.IOS_ICON_SIZES locs
    /\ Posix.cwd fs' = Posix.cwd fs1
    /\ Posix.store fs' = put_all (combine locs (map snd saved)) (Posix.store fs1)
    /\ same_directories (Posix.store fs1) (Posix.store fs').
Proof.
  unfold IconVariants.generate_variants.
  destruct (negb (Posix.exists_ fs input_path)); [discriminate|].
  destruct (IconVariants.load_master fs answer input_path) as [master|e|c]
    eqn:Hload; cbn [Py.bind]; try discriminate.
  apply load_master_inv in Hload. destruct Hload as [Hin Hsize].
  destruct (Posix.makedirs fs output_dir) as [e|fs1] eqn:Hmk;
    cbn [lift Py.bind]; [discriminate|].
  intros Hrun. apply for_each_generate_inv in Hrun.
  destruct Hrun as (locs & Hsaved & Hlocs & Hcwd & Hstore & _).
  cbn [app] in Hsaved. subst saved.
  exists master, fs1, locs. repeat split; try assumption.
  rewrite Hstore. apply put_all_same_directories.
  apply List.Forall_forall. intros [loc img] Hin'. cbn [fst].
  apply in_combine_l in Hin'.
  clear -Hlocs Hin'. induction Hlocs as [|row l rows ls [_ Hfile] _ IH];
    [destruct Hin'|].
  destruct Hin' as [<-|Hin']; [exact Hfile|auto].
Qed.

(** X13.  A successful run of [generate_variants] changes nothing but the
    places of the files it returns as generated, apart from making
    directories: every other location holds after the run what it held
    before, or held nothing and now holds a directory.  The working directory
    stays the same. *)
Theorem generate_variants_leaves_other_files
    (fs fs' : Posix.filesystem) (answer : option string)
    (input_path output_dir suffix : string)
    (saved : list (string * PIL.image)) (loc : list string) :
  IconVariants.generate_variants fs answer input_path output_dir suffix
  = Ok (saved, fs') ->
  (forall path, In path (map fst saved) -> Posix.resolve fs' path <> inr loc) ->
  Posix.cwd fs' = Posix.cwd fs
  /\ (Posix.store fs' !! loc = Posix.store fs !! loc
      \/ (Posix.store fs !! loc = None
          /\ Posix.store fs' !! loc = Some Posix.Directory)).
Proof.
  intros Hrun Hother.
  destruct (generate_variants_inv _ _ _ _ _ _ _ Hrun)
    as (master & fs1 & locs & _ & _ & Hmk & Hsaved & Hlocs & Hcwd & Hstore & Hsame).
  apply makedirs_inv in Hmk. destruct Hmk as (Hcwd1 & [Hkeep Hnew] & _).
  split; [congruence|].
  assert (Hnotin : ~ In loc locs).
  { intros Hin. subst saved.
    assert (Hpath : exists row,
               In row IconVariants.IOS_ICON_SIZES
               /\ Posix.resolve fs1 (variant_path output_dir suffix row) = inr loc).
    { clear -Hlocs Hin. induction Hlocs as [|row l rows ls [Hr _] _ IH];
        [destruct Hin|].
      destruct Hin as [->|Hin].
      - exists row. split; [left; reflexivity|exact Hr].
      - destruct (IH Hin) as (r & Hr' & Hres). exists r. split; [right|]; auto. }
    destruct Hpath as (row & Hrow & Hres).
    apply (Hother (variant_path output_dir suffix row)).
    - unfold variants_of. rewrite map_map. cbn [fst]. apply in_map_iff.
      exists row. split; [reflexivity|exact Hrow].
    - eapply resolve_same_directories; [exact Hcwd|exact Hsame|exact Hres]. }
  rewrite Hstore, put_all_other.
  2:{ rewrite combine_fst_length; [exact Hnotin|].
      rewrite length_map. subst saved. unfold variants_of. rewrite length_map.
      symmetry. eapply Forall2_same_length. exact Hlocs. }
  destruct (Posix.store fs1 !! loc) as [e|] eqn:Hat.
  - destruct (Hnew loc e Hat) as [H|[H ->]]; [left; congruence|right; auto].
  - left. destruct (Posix.store fs !! loc) as [e|] eqn:Hat0; [|reflexivity].
    apply Hkeep in Hat0. congruence.
Qed.

(** The run succeeds when the master is accepted and every variant can be
    written. *)
Lemma generate_variants_ok fs fs1 answer input_path output_dir suffix master :
  Posix.Image_open fs input_path = inr master ->
  IconVariants.load_master fs answer input_path = Ok master ->
  PIL.loads master = true ->
  Png.writable (PIL.mode master) = true ->
  no_slash suffix = true ->
  Posix.makedirs fs output_dir = inr fs1 ->
  (forall row, In row IconVariants.IOS_ICON_SIZES ->
     Posix.isdir fs1 (variant_path output_dir suffix row) = false) ->
  exists fs',
    IconVariants.generate_variants fs answer input_path output_dir suffix
    = Ok (variants_of master output_dir suffix IconVariants.IOS_ICON_SIZES, fs').
Proof.
  intros Hopen Hload Hloads Hmode Hsuffix Hmk Hfree.
  unfold IconVariants.generate_variants.
  unfold Posix.exists_. unfold Posix.Image_open in Hopen.
  rewrite (opened_found _ _ _ Hopen). cbn [negb].
  rewrite Hload. cbn [Py.bind]. rewrite Hmk. cbn [lift Py.bind].
  apply makedirs_inv in Hmk.
  destruct Hmk as (Hcwd & Hext & dir & Hdir & Hisdir).
  destruct (for_each_generate_ok master output_dir suffix
              IconVariants.IOS_ICON_SIZES Hloads Hmode [] fs1) as [fs' Hrun].
  { pose proof table_sizes_positive as Hpos.
    pose proof (table_names_plain suffix Hsuffix) as Hplain.
    rewrite List.Forall_forall in Hpos, Hplain. apply List.Forall_forall.
    intros row Hrow. split; [apply Hpos; exact Hrow|].
    exists (dir ++ [IconVariants.with_suffix suffix (snd row)]).
    assert (Hresolve :
      Posix.resolve fs1 (variant_path output_dir suffix row)
      = inr (dir ++ [IconVariants.with_suffix suffix (snd row)])).
    { apply resolve_join; [exact Hdir|exact Hisdir|apply Hplain; exact Hrow]. }
    split; [exact Hresolve|]. split.
    - specialize (Hfree row Hrow). unfold Posix.isdir in Hfree.
      rewrite Hresolve in Hfree. exact Hfree.
    - rewrite removelast_last. exact Hisdir. }
  exists fs'. exact Hrun.
Qed.

Lemma master_only_runs suffix :
  no_slash suffix = true ->
  (forall row, In row IconVariants.IOS_ICON_SIZES ->
     Posix.isdir (with_directory master_only "AppIcon.appiconset")
       (variant_path "AppIcon.appiconset/" suffix row) = false) ->
  exists fs',
    IconVariants.generate_variants master_only None "app-icon-dark.png"
      "AppIcon.appiconset/" suffix
    = Ok (variants_of (picture 1024 1024) "AppIcon.appiconset/" suffix
            IconVariants.IOS_ICON_SIZES, fs').
Proof.
  intros Hsuffix Hfree.
  apply (generate_variants_ok master_only
           (with_directory master_only "AppIcon.appiconset"));
    try assumption; try reflexivity; vm_compute; reflexivity.
Qed.

Lemma master_only_free suffix :
  suffix = "" \/ suffix = "-dark" ->
  forall row, In row IconVariants.IOS_ICON_SIZES ->
    Posix.isdir (with_directory master_only "AppIcon.appiconset")
      (variant_path "AppIcon.appiconset/" suffix row) = false.
Proof.
  intros [-> | ->] row Hrow; cbn in Hrow;
    repeat (destruct Hrow as [<-|Hrow]; [vm_compute; reflexivity|]);
    destruct Hrow.
Qed.

Lemma generate_variants_leaves_other_files_witness :
  exists saved fs',
    IconVariants.generate_variants master_only None "app-icon-dark.png"
      "AppIcon.appiconset/" "-dark" = Ok (saved, fs')
    /\ Posix.cwd fs' = Posix.cwd master_only
    /\ (Posix.store fs' !! ["work"; "app-icon-dark.png"]
        = Posix.store master_only !! ["work"; "app-icon-dark.png"]
        \/ (Posix.store master_only !! ["work"; "app-icon-dark.png"] = None
            /\ Posix.store fs' !! ["work"; "app-icon-dark.png"]
               = Some Posix.Directory)).
Proof.
  destruct (master_only_runs "-dark" eq_refl
              (master_only_free "-dark" (or_intror eq_refl))) as [fs' Hrun].
  do 2 eexists. split; [exact Hrun|].
  apply (generate_variants_leaves_other_files _ _ _ _ _ _ _ _ Hrun).
  intros path Hin Hresolve.
  destruct (generate_variants_inv _ _ _ _ _ _ _ Hrun)
    as (master & fs1 & locs & _ & _ & Hmk & _ & _ & Hcwd & _ & Hsame).
  assert (Hfs1 : fs1 = with_directory master_only "AppIcon.appiconset").
  { vm_compute in Hmk. inversion Hmk. reflexivity. }
  subst fs1.
  apply (resolve_same_directories fs'
           (with_directory master_only "AppIcon.appiconset") path
           ["work"; "app-icon-dark.png"]) in Hresolve;
    [|symmetry; exact Hcwd|apply same_directories_sym; exact Hsame].
  clear -Hin Hresolve. cbn in Hin.
  repeat (destruct Hin as [<-|Hin]; [vm_compute in Hresolve; discriminate|]).
  destruct Hin.
Defined.

(** ** generate-icon-variants.py: generation, then validation *)

Lemma table_names_distinct :
  List.NoDup (map snd IconVariants.IOS_ICON_SIZES).
Proof. repeat constructor; cbn; intuition discriminate. Qed.

Lemma table_expected_sizes :
  Forall (fun row : Z * Z * Z * string =>
            IconVariants.expected_size_of IconVariants.IOS_ICON_SIZES (snd row)
            = Some (fst (fst (fst row))))
    IconVariants.IOS_ICON_SIZES.
Proof. repeat constructor. Qed.

Lemma fold_validate_required fs output_dir names :
  (forall f b, In f names ->
     IconVariants.validate_required fs output_dir b f = b) ->
  forall b, fold_left (IconVariants.validate_required fs output_dir) names b = b.
Proof.
  induction names as [|f rest IH]; intros Hstep b; [reflexivity|].
  cbn [fold_left]. rewrite Hstep by (left; reflexivity).
  apply IH. intros g c Hg. apply Hstep. right. exact Hg.
Qed.

Lemma Forall2_determined {A B} (R : A -> B -> Prop) (g : A -> B) xs ys :
  Forall2 R xs ys ->
  (forall x y, In x xs -> R x y -> y = g x) ->
  ys = map g xs.
Proof.
  induction 1 as [|x y xs ys Hxy _ IH]; intros Hg; [reflexivity|].
  cbn. rewrite (Hg x y) by (auto; left; reflexivity).
  rewrite IH; [reflexivity|]. intros a b Ha. apply Hg. right. exact Ha.
Qed.

Lemma combine_maps {A B C} (f : A -> B) (g : A -> C) xs :
  combine (map f xs) (map g xs) = map (fun x => (f x, g x)) xs.
Proof. induction xs as [|x xs IH]; cbn; [|rewrite IH]; reflexivity. Qed.

Lemma entry_at_inside st dir name :
  Posix.entry_at st (dir ++ [name]) = st !! (dir ++ [name]).
Proof. destruct dir; reflexivity. Qed.

(** After a run without suffix, the path of every variant leads to the
    picture stored for it. *)
Lemma generated_files_read_back fs fs' answer input_path output_dir saved :
  IconVariants.generate_variants fs answer input_path output_dir ""
  = Ok (saved, fs') ->
  exists master,
    forall row, In row IconVariants.IOS_ICON_SIZES ->
      Posix.exists_ fs' (path_join output_dir (snd row)) = true
      /\ Posix.Image_open fs' (path_join output_dir (snd row))
         = inr (stored_variant master (fst (fst (fst row)))).
Proof.
  intros Hrun.
  destruct (generate_variants_inv _ _ _ _ _ _ _ Hrun)
    as (master & fs1 & locs & _ & _ & Hmk & -> & Hlocs & Hcwd & Hstore & Hsame).
  apply makedirs_inv in Hmk. destruct Hmk as (_ & _ & dir & Hdir & Hisdir).
  exists master.
  assert (Hplain : forall row, In row IconVariants.IOS_ICON_SIZES ->
                     plain (snd row) = true).
  { pose proof (table_names_plain "" eq_refl) as H.
    rewrite List.Forall_forall in H. exact H. }
  assert (Hwhere : forall row, In row IconVariants.IOS_ICON_SIZES ->
            Posix.resolve fs1 (path_join output_dir (snd row))
            = inr (dir ++ [snd row])).
  { intros row Hrow. apply resolve_join; auto. }
  assert (Hlocs' : locs
            = map (fun row : Z * Z * Z * string => dir ++ [snd row])
                IconVariants.IOS_ICON_SIZES).
  { apply (Forall2_determined _ _ _ _ Hlocs).
    intros row loc Hrow [Hres _].
    change (variant_path output_dir "" row)
      with (path_join output_dir (snd row)) in Hres.
    rewrite (Hwhere row Hrow) in Hres. inversion Hres. reflexivity. }
  intros row Hrow.
  assert (Hstored :
    Posix.store fs' !! (dir ++ [snd row])
    = Some (Posix.RegularFile (Some (stored_variant master (fst (fst (fst row))))))).
  { rewrite Hstore, Hlocs'. unfold variants_of. rewrite map_map. cbn [snd].
    rewrite combine_maps. apply put_all_written.
    - rewrite map_map. cbn [fst].
      rewrite <- (map_map snd (fun name => dir ++ [name])).
      apply NoDup_map_injective_on; [|apply table_names_distinct].
      intros x y _ _ E. apply app_inv_head in E. inversion E. reflexivity.
    - apply in_map_iff. exists row. split; [reflexivity|exact Hrow]. }
  assert (Hres : Posix.resolve fs' (path_join output_dir (snd row))
                 = inr (dir ++ [snd row])).
  { eapply resolve_same_directories; [exact Hcwd|exact Hsame|].
    apply Hwhere. exact Hrow. }
  unfold Posix.exists_, Posix.Image_open. rewrite Hres.
  cbn [Posix.found Posix.opened]. rewrite entry_at_inside, Hstored. auto.
Qed.

(** X14.  Generation and validation agree: whenever [generate_variants]
    succeeds without a suffix, [validate_icons] run on the resulting output
    directory returns True, whatever the master's size or mode was and
    whatever the directory held before. *)
Theorem generated_icons_pass_validation
    (fs fs' : Posix.filesystem) (answer : option string)
    (input_path output_dir : string) (saved : list (string * PIL.image)) :
  IconVariants.generate_variants fs answer input_path output_dir ""
  = Ok (saved, fs') ->
  IconVariants.validate_icons fs' output_dir = true.
Proof.
  intros Hrun.
  destruct (generated_files_read_back _ _ _ _ _ _ Hrun) as [master Hback].
  unfold IconVariants.validate_icons.
  apply fold_validate_required. intros f b Hf.
  apply in_map_iff in Hf.
  destruct Hf as ([[[export_size display_size] scale] filename] & <- & Hrow).
  destruct (Hback _ Hrow) as [Hexists Hopen]. cbn [fst snd] in *.
  pose proof table_expected_sizes as Hexp. rewrite List.Forall_forall in Hexp.
  specialize (Hexp _ Hrow). cbn [fst snd] in Hexp.
  unfold IconVariants.validate_required.
  rewrite Hexists, Hopen, Hexp. cbn. rewrite Z.eqb_refl. reflexivity.
Qed.

Lemma generated_icons_pass_validation_witness :
  exists saved fs',
    IconVariants.generate_variants master_only None "app-icon-dark.png"
      "AppIcon.appiconset/" "" = Ok (saved, fs')
    /\ IconVariants.validate_icons fs' "AppIcon.appiconset/" = true.
Proof.
  destruct (master_only_runs "" eq_refl
              (master_only_free "" (or_introl eq_refl))) as [fs' Hrun].
  do 2 eexists. split; [exact Hrun|].
  exact (generated_icons_pass_validation _ _ _ _ _ _ Hrun).
Defined.

(** ** generate-icon-variants.py: the size of the master *)

(** X15.  The size of the master never reaches the output: in every
    successful run each variant is exactly its target size, also when the
    master is not 1024 by 1024; and a run with such a master succeeds only
    when the answer typed at the prompt is [y] or [Y]. *)
Theorem variants_are_square_for_any_master
    (fs fs' : Posix.filesystem) (answer : option string)
    (input_path output_dir suffix : string)
    (saved : list (string * PIL.image)) :
  IconVariants.generate_variants fs answer input_path output_dir suffix
  = Ok (saved, fs') ->
  Forall2 (variant_saved output_dir suffix) IconVariants.IOS_ICON_SIZES saved
  /\ exists master,
       Posix.Image_open fs input_path = inr master
       /\ (PIL.size master = (1024, 1024)
           \/ answer = Some "y" \/ answer = Some "Y").
Proof.
  intros Hrun.
  destruct (generate_variants_inv _ _ _ _ _ _ _ Hrun)
    as (master & fs1 & locs & Hin & Hsize & _ & -> & _).
  split; [apply variants_of_sizes|].
  exists master. split; [exact Hin|].
  destruct Hsize as [Hsize|(response & -> & Hy)]; [auto|].
  apply lower_is_y in Hy. destruct Hy as [-> | ->]; auto.
Qed.

Lemma load_master_confirmed fs response input_path master :
  Posix.Image_open fs input_path = inr master ->
  IconVariants.lower response = "y" ->
  IconVariants.load_master fs (Some response) input_path = Ok master.
Proof.
  intros Hmaster Hy. unfold IconVariants.load_master.
  rewrite Hmaster. cbn [lift Py.bind].
  destruct (PIL.size master) as [w h].
  destruct (negb (w =? 1024) || negb (h =? 1024)); [|reflexivity].
  cbn [IconVariants.input lift Py.bind]. rewrite Hy. reflexivity.
Qed.

Lemma variants_are_square_for_any_master_witness :
  exists saved fs',
    IconVariants.generate_variants small_master_only (Some "Y") "small.png"
      "out" "" = Ok (saved, fs')
    /\ Forall2 (variant_saved "out" "") IconVariants.IOS_ICON_SIZES saved.
Proof.
  destruct (generate_variants_ok small_master_only
              (with_directory small_master_only "out") (Some "Y") "small.png"
              "out" "" (set_mode "RGBA" (picture 512 512)))
    as (fs' & Hrun).
  - vm_compute. reflexivity.
  - apply load_master_confirmed; [vm_compute|]; reflexivity.
  - reflexivity.
  - reflexivity.
  - reflexivity.
  - vm_compute. reflexivity.
  - intros row Hrow. cbn in Hrow.
    repeat (destruct Hrow as [<-|Hrow]; [vm_compute; reflexivity|]).
    destruct Hrow.
  - do 2 eexists. split; [exact Hrun|].
    exact (proj1 (variants_are_square_for_any_master _ _ _ _ _ _ _ Hrun)).
Defined.

(** X16.  When the master is not 1024 by 1024 and the answer at the prompt
    is anything but [y] or [Y] (or there is no answer), [generate_variants]
    leaves through [sys.exit(1)], whatever the output directory and the
    suffix are, and a process started with this input ends with status 1. *)
Theorem declined_master_exits_with_1
    (fs : Posix.filesystem) (answer : option string)
    (a : IconVariants.args) (input_path output_dir suffix : string)
    (master : PIL.image) :
  Posix.Image_open fs input_path = inr master ->
  PIL.size master <> (1024, 1024) ->
  answer <> Some "y" ->
  answer <> Some "Y" ->
  IconVariants.arg_update_contents_json a = false ->
  IconVariants.arg_input a = Some input_path ->
  input_path <> "" ->
  IconVariants.generate_variants fs answer input_path output_dir suffix
  = SysExit 1
  /\ IconVariants.exit_status (IconVariants.main a answer fs) = 1.
Proof.
  intros Hmaster Hsize Hy HY Hmode Hinput Hne.
  assert (Hload : IconVariants.load_master fs answer input_path = SysExit 1).
  { unfold IconVariants.load_master.
    rewrite Hmaster. cbn [lift Py.bind].
    destruct (PIL.size master) as [w h].
    destruct (Z.eqb_spec w 1024) as [->|Hw], (Z.eqb_spec h 1024) as [->|Hh];
      cbn [negb orb]; try congruence;
      (destruct answer as [response|]; cbn [IconVariants.input lift Py.bind];
       [|reflexivity];
       destruct (String.eqb_spec (IconVariants.lower response) "y") as [E|E];
       [apply lower_is_y in E; destruct E; congruence|reflexivity]). }
  assert (Hexists : Posix.exists_ fs input_path = true)
    by (unfold Posix.exists_; eapply opened_found; exact Hmaster).
  split.
  - unfold IconVariants.generate_variants. rewrite Hexists, Hload. reflexivity.
  - unfold IconVariants.main. rewrite Hmode, Hinput.
    apply String.eqb_neq in Hne. rewrite Hne.
    unfold IconVariants.generate_variants. rewrite Hexists, Hload. reflexivity.
Qed.

Lemma declined_master_exits_with_1_witness :
  IconVariants.generate_variants small_master_only (Some "yes") "small.png"
    "out" "" = SysExit 1
  /\ IconVariants.exit_status
       (IconVariants.main
          {| IconVariants.arg_input := Some "small.png";
             IconVariants.arg_output := "out";
             IconVariants.arg_suffix := "";
             IconVariants.arg_quality := 95;
             IconVariants.arg_update_contents_json := false;
             IconVariants.arg_validate := false |}
          (Some "yes") small_master_only) = 1.
Proof.
  apply (declined_master_exits_with_1 small_master_only (Some "yes") _
           "small.png" "out" "" (set_mode "RGBA" (picture 512 512)));
    try reflexivity; try discriminate.
Defined.

(** ** generate-icon-variants.py: the exit status *)

Lemma for_each_never_exits {A B} (body : A -> B -> outcome A) items acc code :
  (forall a x c, body a x <> SysExit c) ->
  for_each body items acc <> SysExit code.
Proof.
  intros Hbody. revert acc. induction items as [|x rest IH]; intros acc.
  - discriminate.
  - cbn [for_each]. pose proof (Hbody acc x) as Hx.
    destruct (body acc x) as [acc'|e|c]; cbn [Py.bind].
    + apply IH.
    + discriminate.
    + exfalso. exact (Hx c eq_refl).
Qed.

Lemma generate_one_never_exits master output_dir suffix st row code :
  IconVariants.generate_one master output_dir suffix st row <> SysExit code.
Proof.
  destruct st as [generated fs].
  destruct row as [[[export_size display_size] scale] filename].
  unfold IconVariants.generate_one, PIL.load, PIL.resize.
  destruct (PIL.loads master); cbn [Py.bind]; [|discriminate].
  destruct (_ || _); cbn [Py.bind]; [discriminate|].
  destruct (Png.save_to _ _ _); cbn; discriminate.
Qed.

Lemma load_master_exit_code fs answer input_path code :
  IconVariants.load_master fs answer input_path = SysExit code -> code = 1.
Proof.
  unfold IconVariants.load_master.
  destruct (let* master := lift (Posix.Image_open fs input_path) in _)
    as [m|e|c] eqn:Hbody; cbn [try_except]; try discriminate.
  - intros E. inversion E. reflexivity.
  - intros E. inversion E; subst. clear E. revert Hbody.
    destruct (Posix.Image_open fs input_path) as [e|master];
      cbn [lift Py.bind]; [discriminate|].
    destruct (PIL.size master) as [w h].
    destruct (_ || _); [|discriminate].
    destruct (IconVariants.input answer); cbn [lift Py.bind]; [discriminate|].
    destruct (negb _); [|discriminate].
    intros E. inversion E. reflexivity.
Qed.

Lemma generate_variants_exit_code fs answer input_path output_dir suffix code :
  IconVariants.generate_variants fs answer input_path output_dir suffix
  = SysExit code -> code = 1.
Proof.
  unfold IconVariants.generate_variants.
  destruct (negb _); [discriminate|].
  destruct (IconVariants.load_master fs answer input_path) as [master|e|c]
    eqn:Hload; cbn [Py.bind]; try discriminate.
  - destruct (Posix.makedirs fs output_dir); cbn [lift Py.bind];
      [discriminate|].
    intros E. exfalso. revert E. apply for_each_never_exits.
    intros st row c. apply generate_one_never_exits.
  - intros E. inversion E; subst. eapply load_master_exit_code. exact Hload.
Qed.

(** In an existing directory a file can be written under a plain name
    exactly when the name is not that of a directory. *)
Lemma write_in_directory fs output_dir name content :
  Posix.isdir fs output_dir = true ->
  plain name = true ->
  (exists fs', Posix.write fs (path_join output_dir name) content = inr fs')
  <-> Posix.isdir fs (path_join output_dir name) = false.
Proof.
  intros Hdir Hplain. unfold Posix.isdir in Hdir.
  destruct (Posix.resolve fs output_dir) as [e|dir] eqn:Hres; [discriminate|].
  cbn [Posix.found_dir] in Hdir.
  pose proof (resolve_join fs output_dir dir name Hres Hdir Hplain) as Hjoin.
  unfold Posix.write, Posix.isdir. rewrite Hjoin. cbn [Posix.found_dir].
  split.
  - intros [fs' Hwrite].
    destruct (Posix.created _ _ _) as [e|st] eqn:Hcreated; [discriminate|].
    apply created_inv in Hcreated. tauto.
  - intros Hfile. rewrite created_ok; [eexists; reflexivity|exact Hfile|].
    rewrite removelast_last. exact Hdir.
Qed.

(** X17.  From the parsed command line on, the icon generator ends with
    status 0 in these cases only.  In manifest mode: when the output path is
    a directory and [Contents.json] in it is not one (the manifest cannot be
    written over a directory, and nothing catches that exception).  In
    generation mode: when an input path is given and [generate_variants]
    succeeds; a missing or undecodable master, a declined prompt and a failed
    save all end the process with another status. *)
Theorem icon_generator_status
    (a : IconVariants.args) (answer : option string) (fs : Posix.filesystem) :
  IconVariants.exit_status (IconVariants.main a answer fs) = 0
  <-> if IconVariants.arg_update_contents_json a
      then Posix.isdir fs (IconVariants.arg_output a) = true
           /\ Posix.isdir fs
                (path_join (IconVariants.arg_output a) "Contents.json") = false
      else exists input_path saved fs',
             IconVariants.arg_input a = Some input_path
             /\ input_path <> ""
             /\ IconVariants.generate_variants fs answer input_path
                  (IconVariants.arg_output a) (IconVariants.arg_suffix a)
                = Ok (saved, fs').
Proof.
  unfold IconVariants.main.
  destruct (IconVariants.arg_update_contents_json a).
  { destruct (Posix.isdir fs (IconVariants.arg_output a)) eqn:Hdir; cbn [negb].
    - pose proof (write_in_directory fs (IconVariants.arg_output a)
                    "Contents.json" None Hdir eq_refl) as Hwrite.
      unfold IconVariants.generate_contents_json.
      destruct (Posix.write fs _ None) as [e|fs'] eqn:Hrun; cbn.
      + split; [discriminate|]. intros [_ Hfile].
        apply Hwrite in Hfile. destruct Hfile as [fs' Hfs']. discriminate.
      + split; [|reflexivity]. intros _. split; [reflexivity|].
        apply Hwrite. eauto.
    - cbn. split; [discriminate|]. intros [H _]. discriminate. }
  destruct (IconVariants.arg_input a) as [input_path|].
  2:{ cbn. split; [discriminate|].
      intros (p & s & f & E & _). discriminate. }
  destruct (String.eqb_spec input_path "") as [->|Hne].
  { cbn. split; [discriminate|].
    intros (p & s & f & E & Hp & _). inversion E; subst. contradiction. }
  destruct (IconVariants.generate_variants fs answer input_path
              (IconVariants.arg_output a) (IconVariants.arg_suffix a))
    as [[saved fs']|e|c] eqn:Hrun; cbn.
  - split; [|reflexivity].
    intros _. exists input_path, saved, fs'. auto.
  - split; [discriminate|].
    intros (p & s & f & E & _ & Hok). inversion E; subst. congruence.
  - pose proof (generate_variants_exit_code _ _ _ _ _ _ Hrun) as Hc. subst c.
    split; [discriminate|].
    intros (p & s & f & E & _ & Hok). inversion E; subst. congruence.
Qed.

(** ** generate-icon-variants.py: the manifest *)

Lemma table_rows_classified :
  Forall (fun row : Z * Z * Z * string =>
            forall name,
              exists e,
                Manifest.build_entry name (fst (fst (fst row)))
                  (snd (fst (fst row))) (snd (fst row)) = Some e
                /\ Manifest.filename e = name
                /\ Manifest.dark e = false)
    IconVariants.IOS_ICON_SIZES.
Proof.
  repeat constructor; intros name; eexists;
    (split; [reflexivity|split; reflexivity]).
Qed.

Lemma add_images_lists fs output_dir suffix rows images :
  Forall (fun row : Z * Z * Z * string =>
            forall name,
              exists e,
                Manifest.build_entry name (fst (fst (fst row)))
                  (snd (fst (fst row))) (snd (fst row)) = Some e
                /\ Manifest.filename e = name
                /\ Manifest.dark e = false) rows ->
  exists more,
    Manifest.add_images fs output_dir suffix rows images = Some (images ++ more)
    /\ map (fun e => (Manifest.filename e, Manifest.dark e)) more
       = List.filter
           (fun c => Posix.exists_ fs (path_join output_dir (fst c)))
           (map (fun row => (IconVariants.with_suffix suffix (snd row),
                             String.eqb suffix "-dark")) rows).
Proof.
  intros Hrows. revert images.
  induction Hrows as [|[[[export_size display_size] scale] filename] rest Hrow _ IH];
    intros images.
  - exists []. cbn. rewrite app_nil_r. auto.
  - cbn [Manifest.add_images Manifest.add_image map List.filter fst snd].
    cbn [fst snd] in Hrow.
    destruct (Posix.exists_ fs
                (path_join output_dir (IconVariants.with_suffix suffix filename)))
      eqn:Hexists; cbn [negb].
    + destruct (Hrow (IconVariants.with_suffix suffix filename))
        as (e & Hbuild & Hname & Hdark).
      rewrite Hbuild.
      destruct (IH (images ++ [Manifest.with_appearance suffix e]))
        as (more & Hrun & Hlist).
      exists (Manifest.with_appearance suffix e :: more).
      rewrite Hrun, <- app_assoc. split; [reflexivity|].
      cbn [map]. rewrite Hlist. f_equal.
      unfold Manifest.with_appearance.
      destruct (String.eqb suffix "-dark"); cbn; congruence.
    + destruct (IH images) as (more & Hrun & Hlist).
      exists more. auto.
Qed.

(** X18.  The manifest never fails on the size table (every row falls in
    one of the three branches that build an entry) and lists exactly the
    table's files that exist in the output directory, each once: first the
    plain names in table order, then the [-dark] names in table order, the
    latter and only the latter marked with the dark appearance. *)
Theorem manifest_lists_existing_files
    (fs : Posix.filesystem) (output_dir : string) :
  exists images,
    Manifest.images fs output_dir = Some images
    /\ map (fun e => (Manifest.filename e, Manifest.dark e)) images
       = List.filter
           (fun c => Posix.exists_ fs (path_join output_dir (fst c)))
           manifest_candidates.
Proof.
  unfold Manifest.images. cbn [Manifest.add_suffixes].
  destruct (add_images_lists fs output_dir "" IconVariants.IOS_ICON_SIZES []
              table_rows_classified) as (light & Hlight & Hl).
  rewrite Hlight. cbn [app].
  destruct (add_images_lists fs output_dir "-dark" IconVariants.IOS_ICON_SIZES
              light table_rows_classified) as (dark & Hdark & Hd).
  rewrite Hdark. exists (light ++ dark). split; [reflexivity|].
  unfold manifest_candidates. rewrite map_app, List.filter_app, Hl, Hd.
  reflexivity.
Qed.

(** The manifest of a directory with the complete plain set and one dark
    file: the idioms of the fifteen entries. *)
Example manifest_of_light_and_one_dark :
  option_map (map (fun e => (Manifest.filename e, Manifest.idiom e, Manifest.dark e)))
    (Manifest.images light_and_one_dark "out")
  = Some [ ("app-icon-1024.png", "universal", false);
           ("app-icon-512.png", "mac", false);
           ("app-icon-256.png", "mac", false);
           ("app-icon-128.png", "mac", false);
           ("app-icon-64@2x.png", "mac", false);
           ("app-icon-60@2x.png", "iphone", false);
           ("app-icon-60@3x.png", "iphone", false);
           ("app-icon-40@2x.png", "ipad", false);
           ("app-icon-40@3x.png", "iphone", false);
           ("app-icon-29@2x.png", "iphone", false);
           ("app-icon-29@3x.png", "iphone", false);
           ("app-icon-20@2x.png", "iphone", false);
           ("app-icon-20@3x.png", "iphone", false);
           ("app-icon-16.png", "mac", false);
           ("app-icon-60@2x-dark.png", "iphone", true) ].
Proof. vm_compute. reflexivity. Qed.

(** ** The worktree's generate-icon-variants.py *)

(** Making directories does not change what an existing path leads to. *)
Lemma path_open_after_mkdir fs fs1 p :
  Posix.cwd fs1 = Posix.cwd fs ->
  extends (Posix.store fs) (Posix.store fs1) ->
  Posix.path_exists fs p = true ->
  Posix.path_open fs1 p = Posix.path_open fs p.
Proof.
  intros Hcwd Hext. unfold Posix.path_exists, Posix.path_open, Posix.locate,
    Posix.origin.
  rewrite Hcwd.
  destruct (Posix.walk (Posix.store fs) _ _) as [e|loc] eqn:Hwalk;
    [discriminate|].
  rewrite (walk_extends _ _ _ _ _ Hext Hwalk). cbn [Posix.found Posix.opened].
  destruct (Posix.entry_at (Posix.store fs) loc) as [e|] eqn:Hat;
    [|discriminate].
  rewrite (extends_entry_at _ _ _ _ Hext Hat). reflexivity.
Qed.

(** X19.  Whenever the worktree's generator returns, for a master of any
    size and mode, it has saved one file per entry of [ICON_SIZES], in table
    order and under the name [AppIcon-<S>x<S>.png]; every file is an RGB PNG
    (the alpha channel is gone), of S by S pixels except the entry 1024,
    which is the master at its own size, not resized; and a master that is
    not 1024 by 1024 was accepted with the answer [y] or [Y]. *)
Theorem worktree_variants_are_rgb_png
    (fs : Posix.filesystem) (answer : option string)
    (master_path output_dir : string) (saved : list (string * PIL.image)) :
  WorktreeVariants.generate_icon_variants fs answer master_path output_dir
  = Ok saved ->
  exists master,
    Posix.path_open fs (Posix.Path master_path) = inr master
    /\ Forall2 (worktree_saved master) WorktreeVariants.ICON_SIZES saved
    /\ (PIL.size master = (1024, 1024)
        \/ answer = Some "y" \/ answer = Some "Y").
Proof.
  unfold WorktreeVariants.generate_icon_variants.
  destruct (negb (Posix.path_exists fs (Posix.Path master_path))) eqn:Hexists;
    [discriminate|].
  destruct (Posix.path_mkdir fs (Posix.Path output_dir)) as [e|fs1] eqn:Hmk;
    cbn [lift Py.bind]; [discriminate|].
  destruct (Posix.path_open fs1 (Posix.Path master_path)) as [e|master] eqn:Hopen;
    cbn [lift Py.bind try_except]; [discriminate|].
  intros Hrun. exists master. split.
  { apply path_mkdir_inv in Hmk. destruct Hmk as (Hcwd & Hext & _).
    rewrite <- Hopen. symmetry.
    apply path_open_after_mkdir; [exact Hcwd|exact Hext|].
    apply negb_false_iff. exact Hexists. }
  assert (Hcheck :
    PIL.size master = (1024, 1024) \/ answer = Some "y" \/ answer = Some "Y").
  { destruct (PIL.size master) as [w h]. cbn [fst snd] in Hrun.
    destruct (Z.eqb_spec w 1024) as [Hw|Hw], (Z.eqb_spec h 1024) as [Hh|Hh];
      [left; congruence| | |];
      cbn [negb orb] in Hrun; right;
      (destruct answer as [response|]; cbn [IconVariants.input lift Py.bind] in Hrun;
       [|discriminate Hrun]);
      (destruct (String.eqb_spec (IconVariants.lower response) "y") as [Hy|Hn];
       cbn [negb Py.bind try_except] in Hrun; [|discriminate Hrun]);
      apply lower_is_y in Hy; destruct Hy as [-> | ->]; auto. }
  split; [|exact Hcheck].
  destruct (if negb (fst (PIL.size master) =? 1024)
               || negb (snd (PIL.size master) =? 1024)
            then _ else _) as [[]|e|c]; cbn [Py.bind try_except] in Hrun;
    try discriminate Hrun.
  destruct (WorktreeVariants.to_rgb master) as [rgb|e|c] eqn:Hrgb;
    cbn [Py.bind try_except] in Hrun; try discriminate Hrun.
  apply to_rgb_inv in Hrgb. destruct Hrgb as [Hmode Hsize].
  destruct (for_each (WorktreeVariants.generate_size rgb (Posix.Path output_dir))
              WorktreeVariants.ICON_SIZES ([], fs1))
    as [[generated fs2]|e|c] eqn:Hloop; cbn [Py.bind try_except fst] in Hrun;
    try discriminate Hrun.
  inversion Hrun; subst saved.
  apply (for_each_generate_size_inv master) in Hloop; try assumption.
  destruct Hloop as (more & -> & Hmore). exact Hmore.
Qed.

Lemma worktree_variants_are_rgb_png_witness :
  match WorktreeVariants.generate_icon_variants small_master_only (Some "Y")
          "small.png" "icons" with
  | Ok saved =>
      exists master,
        Posix.path_open small_master_only (Posix.Path "small.png") = inr master
        /\ Forall2 (worktree_saved master) WorktreeVariants.ICON_SIZES saved
        /\ (PIL.size master = (1024, 1024)
            \/ Some "Y" = Some "y" \/ Some "Y" = Some "Y")
  | _ => False
  end.
Proof.
  destruct (WorktreeVariants.generate_icon_variants small_master_only (Some "Y")
              "small.png" "icons") as [saved|e|code] eqn:Hrun.
  - exact (worktree_variants_are_rgb_png _ _ _ _ _ Hrun).
  - vm_compute in Hrun. discriminate Hrun.
  - vm_compute in Hrun. discriminate Hrun.
Defined.

(** ** create-glass-morphism-icon.py: the layers *)

Lemma opacity_alpha_floor opacity :
  0 <= opacity -> GlassIcon.opacity_alpha opacity = 255 * opacity / 100.
Proof.
  intros H. unfold GlassIcon.opacity_alpha, int, Qdiv, Qmult, Qinv, inject_Z.
  cbn [Qnum Qden].
  change (Z.pos (1 * 100)) with 100. rewrite Z.mul_1_r.
  apply Z.quot_div_nonneg; lia.
Qed.

(** X20.  For an opacity percentage from 0 to 100, the alpha value that
    [create_noise_texture] and [create_glass_card] compute is a byte: it
    lies between 0 and 255 and is 255 times the percentage over 100, rounded
    down; only 100 percent gives 255. *)
Theorem opacity_alpha_is_a_byte (opacity : Z) :
  0 <= opacity <= 100 ->
  0 <= GlassIcon.opacity_alpha opacity <= 255
  /\ 100 * GlassIcon.opacity_alpha opacity <= 255 * opacity
     < 100 * (GlassIcon.opacity_alpha opacity + 1)
  /\ (GlassIcon.opacity_alpha opacity = 255 <-> opacity = 100).
Proof.
  intros H. rewrite opacity_alpha_floor by lia.
  pose proof (Z.div_mod (255 * opacity) 100 ltac:(lia)) as Hdiv.
  pose proof (Z.mod_pos_bound (255 * opacity) 100 ltac:(lia)) as Hmod.
  lia.
Qed.

Lemma opacity_alpha_is_a_byte_witness :
  0 <= GlassIcon.opacity_alpha 25 <= 255
  /\ 100 * GlassIcon.opacity_alpha 25 <= 255 * 25
     < 100 * (GlassIcon.opacity_alpha 25 + 1)
  /\ (GlassIcon.opacity_alpha 25 = 255 <-> 25 = 100).
Proof. apply (opacity_alpha_is_a_byte 25). lia. Defined.

Lemma composite_ok a b mask :
  PIL.size a = PIL.size b -> PIL.size a = PIL.size mask ->
  PIL.composite a b mask
  = Ok (PIL.Image (PIL.size b) (PIL.mode b) None
          (PIL.Composited (PIL.data a) (PIL.data b) (PIL.data mask))).
Proof.
  intros Hb Hm. unfold PIL.composite.
  rewrite (same_size_of_eq _ _ Hb), (same_size_of_eq _ _ Hm). reflexivity.
Qed.

Lemma same_size_eq a b : PIL.same_size a b = true -> PIL.size a = PIL.size b.
Proof.
  unfold PIL.same_size. destruct (PIL.size a) as [w h], (PIL.size b) as [w' h'].
  cbn [fst snd].
  destruct (Z.eqb_spec w w'), (Z.eqb_spec h h'); cbn; congruence.
Qed.

(** X21.  On a canvas with sides of at least one pixel, [create_fluid_L]
    returns exactly when the gradient handed to it has the size of the
    canvas, and then the symbol is an RGBA picture of the canvas size; for a
    gradient of any other size it raises [ValueError] (from
    [Image.alpha_composite]); it never ends the program. *)
Theorem fluid_L_needs_a_gradient_of_canvas_size
    (width height : Z) (gradient_img : PIL.image) :
  1 <= width -> 1 <= height ->
  match GlassIcon.create_fluid_L (width, height) gradient_img with
  | Ok symbol =>
      PIL.size gradient_img = (width, height)
      /\ PIL.size symbol = (width, height) /\ PIL.mode symbol = "RGBA"
  | Raise e => e = ValueError /\ PIL.size gradient_img <> (width, height)
  | SysExit _ => False
  end.
Proof.
  intros Hw Hh. unfold GlassIcon.create_fluid_L.
  rewrite !new_ok by (cbn [fst snd]; lia). cbn [Py.bind].
  unfold PIL.alpha_composite.
  cbn [PIL.mode PIL.convert String.eqb Ascii.eqb Bool.eqb negb orb].
  destruct (PIL.same_size _ (PIL.convert gradient_img "RGBA")) eqn:Hsame;
    cbn [negb Py.bind].
  - apply same_size_eq in Hsame. cbn [PIL.size PIL.convert] in Hsame.
    rewrite composite_ok by reflexivity. cbn [PIL.size PIL.mode]. auto.
  - split; [reflexivity|]. intros Hsize.
    rewrite same_size_of_eq in Hsame; [discriminate|].
    cbn [PIL.size PIL.convert]. symmetry. exact Hsize.
Qed.

Lemma fluid_L_needs_a_gradient_of_canvas_size_witness :
  match GlassIcon.create_fluid_L (8, 8)
          (GlassIcon.create_gradient_color (8, 8)
             (99, 102, 241) (236, 72, 153) (139, 92, 246)) with
  | Ok symbol =>
      PIL.size (GlassIcon.create_gradient_color (8, 8)
                  (99, 102, 241) (236, 72, 153) (139, 92, 246)) = (8, 8)
      /\ PIL.size symbol = (8, 8) /\ PIL.mode symbol = "RGBA"
  | Raise e =>
      e = ValueError
      /\ PIL.size (GlassIcon.create_gradient_color (8, 8)
                     (99, 102, 241) (236, 72, 153) (139, 92, 246)) <> (8, 8)
  | SysExit _ => False
  end.
Proof.
  apply (fluid_L_needs_a_gradient_of_canvas_size 8 8); lia.
Defined.

Lemma noise_texture_ok rng width height opacity :
  0 <= width -> 0 <= height -> 0 <= opacity <= 100 ->
  exists noise,
    GlassIcon.create_noise_texture rng width height opacity = Ok noise
    /\ PIL.size noise = (width, height) /\ PIL.mode noise = "RGBA".
Proof.
  intros Hw Hh Hop. unfold GlassIcon.create_noise_texture.
  destruct (Z.ltb_spec width 0); [lia|].
  destruct (Z.ltb_spec height 0); [lia|]. cbn [orb].
  rewrite opacity_alpha_floor by lia.
  pose proof (Z.div_mod (255 * opacity) 100 ltac:(lia)) as Hdiv.
  pose proof (Z.mod_pos_bound (255 * opacity) 100 ltac:(lia)) as Hmod.
  destruct (Z.ltb_spec (255 * opacity / 100) (- 2147483648)); [lia|].
  destruct (Z.ltb_spec 2147483647 (255 * opacity / 100)); [lia|]. cbn [orb].
  eexists. split; [reflexivity|]. split; reflexivity.
Qed.

(** X22.  The layer functions fit together on any canvas with sides of at
    least one pixel, for colours whose channels fit a byte, a blur radius
    that is not negative, opacities from 0 to 100 and any noise: the glass
    card, the symbol filled with the gradient that [create_gradient_color]
    makes for the same size, and the noise texture are RGBA pictures of the
    canvas size, so the three [Image.alpha_composite] calls over an RGBA
    background of that size succeed and give an RGBA picture of the canvas
    size. *)
Theorem layers_compose_on_any_canvas
    (rng : Z -> Z -> Z) (width height : Z)
    (color_start color_middle color_end : Z * Z * Z)
    (blur_radius opacity border_opacity noise_opacity : Z)
    (background : PIL.image) :
  1 <= width -> 1 <= height ->
  colour color_start = true ->
  colour color_middle = true ->
  colour color_end = true ->
  0 <= blur_radius ->
  0 <= opacity <= 100 ->
  0 <= border_opacity <= 100 ->
  0 <= noise_opacity <= 100 ->
  PIL.size background = (width, height) ->
  PIL.mode background = "RGBA" ->
  exists glass_card fluid_l noise icon,
    GlassIcon.create_glass_card (width, height) blur_radius opacity border_opacity
    = Ok glass_card
    /\ GlassIcon.create_fluid_L (width, height)
         (GlassIcon.create_gradient_color (width, height)
            color_start color_middle color_end)
       = Ok fluid_l
    /\ GlassIcon.create_noise_texture rng width height noise_opacity = Ok noise
    /\ (let* icon := PIL.alpha_composite background glass_card in
        let* icon := PIL.alpha_composite icon fluid_l in
        PIL.alpha_composite icon noise) = Ok icon
    /\ PIL.size icon = (width, height) /\ PIL.mode icon = "RGBA".
Proof.
  intros Hw Hh _ _ _ _ _ _ Hnoise Hsize Hmode.
  destruct (noise_texture_ok rng width height noise_opacity
              ltac:(lia) ltac:(lia) Hnoise)
    as (noise & Hrun & Hnsize & Hnmode).
  unfold GlassIcon.create_glass_card, GlassIcon.create_fluid_L,
    GlassIcon.create_gradient_color.
  rewrite !new_ok by (cbn [fst snd]; lia). cbn [Py.bind].
  rewrite alpha_composite_ok by reflexivity.
  cbn [Py.bind]. rewrite composite_ok by reflexivity.
  do 2 eexists. exists noise. eexists.
  split; [reflexivity|]. split; [reflexivity|]. split; [exact Hrun|].
  rewrite alpha_composite_ok
    by first [assumption | reflexivity | (rewrite Hsize; reflexivity)].
  cbn [Py.bind].
  rewrite alpha_composite_ok
    by first [reflexivity | (cbn [PIL.size]; rewrite Hsize; reflexivity)].
  cbn [Py.bind].
  rewrite alpha_composite_ok
    by first [reflexivity | assumption
             | (cbn [PIL.size]; rewrite Hsize, Hnsize; reflexivity)].
  split; [reflexivity|].
  cbn [PIL.size PIL.mode]. rewrite Hsize. auto.
Qed.

Lemma layers_compose_on_any_canvas_witness :
  exists glass_card fluid_l noise icon,
    GlassIcon.create_glass_card (16, 9) 40 25 40 = Ok glass_card
    /\ GlassIcon.create_fluid_L (16, 9)
         (GlassIcon.create_gradient_color (16, 9)
            (99, 102, 241) (236, 72, 153) (139, 92, 246))
       = Ok fluid_l
    /\ GlassIcon.create_noise_texture (fun y x => x + y) 16 9 5 = Ok noise
    /\ (let* icon :=
          PIL.alpha_composite
            (PIL.convert (PIL.Image (16, 9) "RGB" None (PIL.Blank [0; 0; 0])) "RGBA")
            glass_card in
        let* icon := PIL.alpha_composite icon fluid_l in
        PIL.alpha_composite icon noise) = Ok icon
    /\ PIL.size icon = (16, 9) /\ PIL.mode icon = "RGBA".
Proof.
  apply (layers_compose_on_any_canvas (fun y x => x + y) 16 9
           (99, 102, 241) (236, 72, 153) (139, 92, 246) 40 25 40 5
           (PIL.convert (PIL.Image (16, 9) "RGB" None (PIL.Blank [0; 0; 0])) "RGBA"));
    first [reflexivity | lia].
Defined.
